(** * LUIS result normalisation (botbuilder-ai): a shallow embedding

    The development follows
    [libraries/botbuilder-ai/botbuilder/ai/luis/luis_util.py] (class [LuisUtil])
    and [recognizer_result.py] (class [RecognizerResult]), and
    [libraries/botbuilder-dialogs/botbuilder/dialogs/waterfall_step_context.py].

    - Python [str] values are Rocq strings holding the UTF-8 bytes of the text.
      The characters the code tests for (['.'], [' '], [':'], ['%'], the
      [builtin.] prefixes) are ASCII, and an ASCII byte never occurs inside the
      encoding of another character, so [replace], [split], [startswith],
      [endswith] and the slices used here act on the bytes exactly as they act
      on the characters.
    - A Python [dict] is an association list in insertion order with unique
      keys: iteration order is observable ([get_top_scoring_intent]).
    - A raised exception is the [Raise] case of [result].
    - [==] on deserialised values is structural equality.  Python's [==] is
      coarser on mappings (key order) and on numbers (across [int], [float]
      and [bool]), so what depends on the equality of values is proved for
      string keys and for entities told apart by text, type and span, where
      the two equalities agree.
    - The conversions of the Python runtime ([int], [float], [str] of a
      container) are the fields of the class [PyRuntime]: the theorems hold for
      every runtime, and [sample_runtime] runs the examples. *)

From Stdlib Require Import String Ascii List ZArith QArith Bool Lia.
From Stdlib Require Import DecimalString.
From Stdlib Require Import Permutation.
Import ListNotations.
Close Scope Q_scope.
Open Scope string_scope.
Open Scope list_scope.
Open Scope nat_scope.

(** ** Exceptions *)

Inductive exn : Set :=
| ValueError | KeyError | TypeError | AttributeError | IndexError | OverflowError.

Inductive result (A : Type) : Type :=
| Ok (a : A)
| Raise (e : exn).
Arguments Ok {A} a.
Arguments Raise {A} e.

Definition bind {A B : Type} (r : result A) (k : A -> result B) : result B :=
  match r with
  | Ok a => k a
  | Raise e => Raise e
  end.

Notation "x <- c ;; k" := (bind c (fun x => k))
  (at level 61, c at next level, right associativity).
Notation "' p <- c ;; k" := (bind c (fun x => match x with p => k end))
  (at level 61, p pattern, c at next level, right associativity).

(** [try: body except E: handler] for one exception class [E]. *)
Definition try_except {A : Type} (body : result A) (E : exn) (handler : result A)
  : result A :=
  match body with
  | Ok a => Ok a
  | Raise e => match e, E with
               | ValueError, ValueError | KeyError, KeyError
               | TypeError, TypeError | AttributeError, AttributeError
               | IndexError, IndexError | OverflowError, OverflowError => handler
               | _, _ => Raise e
               end
  end.

Definition of_option {A : Type} (o : option A) (e : exn) : result A :=
  match o with
  | Some a => Ok a
  | None => Raise e
  end.

(** A loop whose body may raise: [for x in xs: st = body(st, x)]. *)
Fixpoint for_each {S X : Type} (body : S -> X -> result S) (xs : list X) (st : S)
  : result S :=
  match xs with
  | [] => Ok st
  | x :: xs' => st' <- body st x ;; for_each body xs' st'
  end.

(** ** Strings *)

(** [s.replace(a, b)] for one-character [a] and [b]. *)
Fixpoint replace (a b : ascii) (s : string) : string :=
  match s with
  | EmptyString => EmptyString
  | String c s' => String (if Ascii.eqb c a then b else c) (replace a b s')
  end.

(** [s.split(sep)] for a one-character separator: never the empty list. *)
Fixpoint split (sep : ascii) (s : string) : list string :=
  match s with
  | EmptyString => [EmptyString]
  | String c s' =>
      if Ascii.eqb c sep then EmptyString :: split sep s'
      else match split sep s' with
           | [] => [String c EmptyString]
           | w :: ws => String c w :: ws
           end
  end.

Definition startswith (s p : string) : bool := String.prefix p s.

(** [s[n:]] *)
Fixpoint drop (n : nat) (s : string) : string :=
  match n, s with
  | O, _ => s
  | S _, EmptyString => EmptyString
  | S n', String _ s' => drop n' s'
  end.

(** [s.endswith(c)] for a one-character [c]. *)
Fixpoint endswith (s : string) (c : ascii) : bool :=
  match s with
  | EmptyString => false
  | String d EmptyString => Ascii.eqb d c
  | String _ s' => endswith s' c
  end.

(** [s[:-1]] *)
Fixpoint drop_last (s : string) : string :=
  match s with
  | EmptyString => EmptyString
  | String _ EmptyString => EmptyString
  | String c s' => String c (drop_last s')
  end.

Definition byte (c : ascii) : nat := nat_of_ascii c.

(** A one-byte whitespace character: U+0009..U+000D, U+001C..U+001F, U+0020. *)
Definition space1 (c : ascii) : bool :=
  let n := byte c in
  ((9 <=? n) && (n <=? 13)) || ((28 <=? n) && (n <=? 32)).

(** Every character of the UTF-8 text is whitespace for [str.isspace]:
    besides [space1], U+0085 and U+00A0 (C2 85, C2 A0), U+1680 (E1 9A 80),
    U+2000..U+200A, U+2028, U+2029, U+202F (E2 80 ..), U+205F (E2 81 9F) and
    U+3000 (E3 80 80). *)
Fixpoint all_space (s : string) : bool :=
  match s with
  | EmptyString => true
  | String c s1 =>
      if space1 c then all_space s1
      else match s1 with
           | EmptyString => false
           | String d s2 =>
               if (byte c =? 194) && ((byte d =? 133) || (byte d =? 160))
               then all_space s2
               else match s2 with
                    | EmptyString => false
                    | String e s3 =>
                        let b1 := byte c in
                        let b2 := byte d in
                        let b3 := byte e in
                        if ((b1 =? 225) && (b2 =? 154) && (b3 =? 128))
                           || ((b1 =? 226) && (b2 =? 128)
                               && (((128 <=? b3) && (b3 <=? 138))
                                   || (b3 =? 168) || (b3 =? 169) || (b3 =? 175)))
                           || ((b1 =? 226) && (b2 =? 129) && (b3 =? 159))
                           || ((b1 =? 227) && (b2 =? 128) && (b3 =? 128))
                        then all_space s3
                        else false
                    end
           end
  end.

(** [s.isspace()]: at least one character, and all of them whitespace. *)
Definition isspace (s : string) : bool :=
  match s with
  | EmptyString => false
  | _ => all_space s
  end.

(** ** Python values

    What a JSON payload deserialises to, and what the extractors build.  A
    float is held as its [repr], the shortest decimal string that reads back as
    the same double, so [str] of a float is that string. *)

#[local] Unset Elimination Schemes.
Inductive pyval : Type :=
| VNone
| VBool (b : bool)
| VInt (z : Z)
| VFloat (repr : string)
| VStr (s : string)
| VList (l : list pyval)
| VDict (d : list (string * pyval)).
#[local] Set Elimination Schemes.

Definition dict (V : Type) : Type := list (string * V).

(** [d.get(k)], [None] when the key is absent. *)
Fixpoint dict_get {V : Type} (d : dict V) (k : string) : option V :=
  match d with
  | [] => None
  | (k', v) :: d' => if String.eqb k' k then Some v else dict_get d' k
  end.

(** [d[k] = v]: the value of an existing key is replaced where it stands, a
    new key goes last. *)
Fixpoint dict_set {V : Type} (d : dict V) (k : string) (v : V) : dict V :=
  match d with
  | [] => [(k, v)]
  | (k', v') :: d' =>
      if String.eqb k' k then (k', v) :: d' else (k', v') :: dict_set d' k v
  end.

Definition keys {V : Type} (d : dict V) : list string := map fst d.

(** Equality of values, structural.  Python's [==] is this equality on
    strings, on [None] and on two numbers of one type.  It is coarser on
    mappings, whose key order it ignores, and on numbers, which it equates
    across [int], [float] and [bool]; the properties that rest on the
    equality of values are therefore stated where the two agree: for keys
    that are strings, and for entities that their text, type and span tell
    apart. *)
Fixpoint pyval_eqb (x y : pyval) {struct x} : bool :=
  match x, y with
  | VNone, VNone => true
  | VBool a, VBool b => Bool.eqb a b
  | VInt a, VInt b => Z.eqb a b
  | VFloat a, VFloat b => String.eqb a b
  | VStr a, VStr b => String.eqb a b
  | VList l, VList m =>
      (fix go (l : list pyval) (m : list pyval) {struct l} : bool :=
         match l, m with
         | [], [] => true
         | a :: l', b :: m' => pyval_eqb a b && go l' m'
         | _, _ => false
         end) l m
  | VDict d, VDict e =>
      (fix go (d : list (string * pyval)) (e : list (string * pyval)) {struct d}
         : bool :=
         match d, e with
         | [], [] => true
         | (k, a) :: d', (k', b) :: e' =>
             String.eqb k k' && pyval_eqb a b && go d' e'
         | _, _ => false
         end) d e
  | _, _ => false
  end.

Definition option_eqb {A : Type} (eqb : A -> A -> bool) (x y : option A) : bool :=
  match x, y with
  | None, None => true
  | Some a, Some b => eqb a b
  | _, _ => false
  end.

(** ** The Python runtime *)

Class PyRuntime : Type := {
  (** [int(s)] for a string: [None] when it raises [ValueError]. *)
  int_of_str : string -> option Z;
  (** [float(s)] for a string, as the [repr] of the double: [None] when it
      raises [ValueError]. *)
  float_of_str : string -> option string;
  (** [float(i)] for an integer: [None] when it raises [OverflowError]. *)
  float_of_int : Z -> option string;
  (** [str(v)] for a list or a dict. *)
  str_of_container : pyval -> string
}.

Section Runtime.
Context {rt : PyRuntime}.

(** [str(v)] *)
Definition py_str (v : pyval) : string :=
  match v with
  | VNone => "None"
  | VBool true => "True"
  | VBool false => "False"
  | VInt z => NilZero.string_of_int (Z.to_int z)
  | VFloat r => r
  | VStr s => s
  | VList _ | VDict _ => str_of_container v
  end.

(** [float(v)] *)
Definition py_float (v : pyval) : result pyval :=
  match v with
  | VFloat r => Ok (VFloat r)
  | VInt z => r <- of_option (float_of_int z) OverflowError ;; Ok (VFloat r)
  | VBool b =>
      r <- of_option (float_of_int (if b then 1 else 0)%Z) OverflowError ;;
      Ok (VFloat r)
  | VStr s => r <- of_option (float_of_str s) ValueError ;; Ok (VFloat r)
  | VNone | VList _ | VDict _ => Raise TypeError
  end.

End Runtime.

(** Truth value of [v] in a condition. *)
Definition truthy (v : pyval) : bool :=
  match v with
  | VNone => false
  | VBool b => b
  | VInt z => negb (Z.eqb z 0)
  | VFloat r => negb (String.eqb r "0.0" || String.eqb r "-0.0")
  | VStr s => negb (String.eqb s "")
  | VList l => match l with [] => false | _ => true end
  | VDict d => match d with [] => false | _ => true end
  end.

(** [v[k]] for a string key. *)
Definition getitem (v : pyval) (k : string) : result pyval :=
  match v with
  | VDict d => of_option (dict_get d k) KeyError
  | _ => Raise TypeError
  end.

(** Length in bytes of the UTF-8 character that starts with byte [c]. *)
Definition utf8_width (c : ascii) : nat :=
  let n := byte c in
  if n <? 192 then 1 else if n <? 224 then 2 else if n <? 240 then 3 else 4.

Fixpoint take (n : nat) (s : string) : string :=
  match n, s with
  | O, _ => EmptyString
  | S _, EmptyString => EmptyString
  | S n', String c s' => String c (take n' s')
  end.

(** The characters of a text; [fuel] bounds the number of characters. *)
Fixpoint chars (fuel : nat) (s : string) : list string :=
  match fuel, s with
  | O, _ => []
  | _, EmptyString => []
  | S fuel', String c _ =>
      take (utf8_width c) s :: chars fuel' (drop (utf8_width c) s)
  end.

(** [v[0]] *)
Definition getitem0 (v : pyval) : result pyval :=
  match v with
  | VList (x :: _) => Ok x
  | VList [] => Raise IndexError
  | VStr EmptyString => Raise IndexError
  | VStr (String c s) => Ok (VStr (take (utf8_width c) (String c s)))
  | VDict _ => Raise KeyError
  | _ => Raise TypeError
  end.

(** The items [for x in v] visits. *)
Definition iterate (v : pyval) : result (list pyval) :=
  match v with
  | VList l => Ok l
  | VStr s => Ok (map VStr (chars (String.length s) s))
  | VDict d => Ok (map VStr (keys d))
  | _ => Raise TypeError
  end.

(** [v.get(k)]: only a dict has the method. *)
Definition get (v : pyval) (k : string) : result pyval :=
  match v with
  | VDict d => Ok (match dict_get d k with Some x => x | None => VNone end)
  | _ => Raise AttributeError
  end.

(** [v.unit]: the payload is made of [NoneType], [bool], [int], [float],
    [str], [list] and [dict] objects, and none of these classes has an
    attribute [unit] (a dict's keys are not attributes). *)
Definition getattr_unit (v : pyval) : result pyval :=
  match v with
  | VNone | VBool _ | VInt _ | VFloat _ | VStr _ | VList _ | VDict _ =>
      Raise AttributeError
  end.

Definition hashable (v : pyval) : bool :=
  match v with
  | VList _ | VDict _ => false
  | _ => true
  end.

Definition mem_val (v : pyval) (l : list pyval) : bool := existsb (pyval_eqb v) l.

(** [list(OrderedDict.fromkeys(l))]: the first occurrence of every key, in
    order; an unhashable key raises.  Keys are compared with [pyval_eqb],
    which is Python's key equality on the strings this is applied to (the
    [timex] entries); numeric keys that Python equates across types are kept
    apart. *)
Fixpoint fromkeys (l : list pyval) (seen : list pyval) : result (list pyval) :=
  match l with
  | [] => Ok seen
  | x :: l' =>
      if hashable x
      then fromkeys l' (if mem_val x seen then seen else seen ++ [x])
      else Raise TypeError
  end.

(** ** The LUIS SDK's models

    [EntityModel.additional_properties] holds the keys of an entity's JSON
    object that the SDK does not know; the code reads three of them.  A
    [role] is a string on the wire; an absent [role] and a JSON [null] are
    both [None], and the code treats them alike.  A [resolution] or a [score]
    that is present and [null] is [Some VNone]. *)

Record AdditionalProperties : Type := {
  ap_role : option string;
  ap_resolution : option pyval;
  ap_score : option pyval
}.

(** A detected entity: its text, its type, and the inclusive offsets of its
    first and last character. *)
Record EntityModel : Type := {
  entity : string;
  type : string;
  start_index : Z;
  end_index : Z;
  additional_properties : option AdditionalProperties
}.

Module Child.
(** A child entry of a composite descriptor. *)
Record t : Type := { type : string }.
End Child.

(** A composite descriptor: the parent type, the text of the composite, and
    the child entries in order. *)
Record CompositeEntityModel : Type := {
  parent_type : string;
  value : string;
  children : list Child.t
}.

Module IntentModel.
(** An intent of the provider's response: its name and, when given, its score. *)
Record t : Type := { intent : string; score : option Q }.
End IntentModel.

(** The part of [LuisResult] that [get_intents] reads. *)
Record LuisResult : Type := {
  intents : option (list IntentModel.t);
  top_scoring_intent : option IntentModel.t
}.

Module IntentScore.
(** Modelled from the spec: the class [IntentScore] of this package
    ([intent_score.py], which is not among the sources), "a confidence ...
    attached to an intent name", built from a score and read through
    [score].  Scores are finite doubles, held as the rationals they denote:
    [>] on them is the order of the rationals. *)
Record t : Type := { score : Q }.
End IntentScore.

Module TopIntent.
(** The named tuple [TopIntent(intent, score)]. *)
Record t : Type := { intent : string; score : Q }.
End TopIntent.

Module RecognizerResult.
(** The attributes of a [RecognizerResult]; all but [properties] are [None]
    until they are set. *)
Record t : Type := {
  text : option string;
  altered_text : option string;
  intents : option (dict IntentScore.t);
  entities : option (dict pyval);
  properties : dict pyval
}.
End RecognizerResult.

(** [==] on entity models: the SDK's [Model.__eq__] compares the attributes.
    Text, type and span are strings and integers and are compared exactly,
    the additional properties with [pyval_eqb]: two entities that differ in
    text, type or span are unequal here as they are for Python. *)
Definition additional_properties_eqb (a b : AdditionalProperties) : bool :=
  option_eqb String.eqb (ap_role a) (ap_role b)
  && option_eqb pyval_eqb (ap_resolution a) (ap_resolution b)
  && option_eqb pyval_eqb (ap_score a) (ap_score b).

Definition entity_eqb (a b : EntityModel) : bool :=
  String.eqb (entity a) (entity b)
  && String.eqb (type a) (type b)
  && Z.eqb (start_index a) (start_index b)
  && Z.eqb (end_index a) (end_index b)
  && option_eqb additional_properties_eqb
       (additional_properties a) (additional_properties b).

(** [e in l] *)
Definition mem_entity (e : EntityModel) (l : list EntityModel) : bool :=
  existsb (entity_eqb e) l.

Definition mem_string (s : string) (l : list string) : bool :=
  existsb (String.eqb s) l.

(** ** LuisUtil *)

Definition _metadata_key : string := "$instance".

Definition normalized_intent (intent : string) : string :=
  replace " " "_" (replace "." "_" intent).

(** [i.score or 0] *)
Definition score_or_0 (s : option Q) : Q :=
  match s with
  | Some q => if Qeq_bool q 0 then 0%Q else q
  | None => 0%Q
  end.

Definition get_intents (luis_result : LuisResult) : result (dict IntentScore.t) :=
  match intents luis_result with
  | Some (i :: l) =>
      Ok (fold_left
            (fun d i => dict_set d (normalized_intent (IntentModel.intent i))
                          (IntentScore.Build_t (score_or_0 (IntentModel.score i))))
            (i :: l) [])
  | _ =>
      match top_scoring_intent luis_result with
      | Some t =>
          Ok [(normalized_intent (IntentModel.intent t),
               IntentScore.Build_t (score_or_0 (IntentModel.score t)))]
      | None => Raise AttributeError
      end
  end.

Definition extract_normalized_entity_name (e : EntityModel) : string :=
  let ty := last (split ":" (type e)) EmptyString in
  let ty := if startswith ty "builtin.datetimeV2." then "datetime" else ty in
  let ty := if startswith ty "builtin.currency" then "money" else ty in
  let ty := if startswith ty "builtin." then drop 8 ty else ty in
  let role :=
    match additional_properties e with
    | Some ap => match ap_role ap with Some r => r | None => EmptyString end
    | None => EmptyString
    end in
  let ty :=
    if negb (String.eqb role EmptyString) && negb (isspace role) then role
    else ty in
  replace " " "_" (replace "." "_" ty).

Definition composite_contains_entity (composite_entity_metadata e : EntityModel)
  : bool :=
  (start_index composite_entity_metadata <=? start_index e)%Z
  && (end_index e <=? end_index composite_entity_metadata)%Z.

(** [add_property(obj, key, value)] on a dict: a value that is there and is no
    list has no [append]. *)
Definition add_property (obj : dict pyval) (key : string) (val : pyval)
  : result (dict pyval) :=
  match dict_get obj key with
  | Some (VList l) => Ok (dict_set obj key (VList (l ++ [val])))
  | Some _ => Raise AttributeError
  | None => Ok (dict_set obj key (VList [val]))
  end.

(** [add_property(obj[at], key, value)] where the arguments are computed in
    order: [obj[at]] first, then [value] (which may raise), then the call.
    The inner dict is updated in place; anything but a dict there fails in
    [key in obj] or in the subscript with a string. *)
Definition add_property_at (obj : dict pyval) (at_key key : string)
  (val : result pyval) : result (dict pyval) :=
  inner <- of_option (dict_get obj at_key) KeyError ;;
  v <- val ;;
  match inner with
  | VDict m => m' <- add_property m key v ;; Ok (dict_set obj at_key (VDict m'))
  | _ => Raise TypeError
  end.

Fixpoint map_result {A B : Type} (f : A -> result B) (l : list A)
  : result (list B) :=
  match l with
  | [] => Ok []
  | a :: l' => b <- f a ;; bs <- map_result f l' ;; Ok (b :: bs)
  end.

Section LuisUtil.
Context {rt : PyRuntime}.

Definition number (value : pyval) : result pyval :=
  match value with
  | VNone => Ok VNone
  | _ =>
      let s := py_str value in
      try_except
        (i <- of_option (int_of_str s) ValueError ;; Ok (VInt i))
        ValueError
        (f <- of_option (float_of_str s) ValueError ;; Ok (VFloat f))
  end.

Definition unit_types : list string :=
  ["builtin.age"; "builtin.dimension"; "builtin.currency"; "builtin.temperature"].

Definition extract_entity_value (e : EntityModel) : result pyval :=
  match additional_properties e with
  | None => Ok (VStr (entity e))
  | Some ap =>
      match ap_resolution ap with
      | None => Ok (VStr (entity e))
      | Some resolution =>
          if startswith (type e) "builtin.datetime." then Ok resolution
          else if startswith (type e) "builtin.datetimeV2." then
            values <- getitem resolution "values" ;;
            if negb (truthy values) then Ok resolution
            else
              resolution_values <- getitem resolution "values" ;;
              values <- getitem resolution "values" ;;
              first <- getitem0 values ;;
              val_type <- getitem first "type" ;;
              vals <- iterate resolution_values ;;
              timexes <- map_result (fun val => getitem val "timex") vals ;;
              distinct_timexes <- fromkeys timexes [] ;;
              Ok (VDict [("type", val_type); ("timex", VList distinct_timexes)])
          else if mem_string (type e) ["builtin.number"; "builtin.ordinal"] then
            v <- getitem resolution "value" ;;
            number v
          else if String.eqb (type e) "builtin.percentage" then
            v <- getitem resolution "value" ;;
            let svalue := py_str v in
            let svalue := if endswith svalue "%" then drop_last svalue else svalue in
            number (VStr svalue)
          else if mem_string (type e) unit_types then
            u <- getattr_unit resolution ;;
            let units := py_str u in
            v <- getitem resolution "value" ;;
            val <- number v ;;
            let obj : dict pyval := [] in
            let obj := match val with
                       | VNone => obj
                       | _ => dict_set obj "number" val
                       end in
            let obj := dict_set obj "units" (VStr units) in
            Ok (VDict obj)
          else
            a <- get resolution "value" ;;
            if truthy a then Ok a else get resolution "values"
      end
  end.

Definition extract_entity_metadata (e : EntityModel) : result pyval :=
  let obj : dict pyval :=
    [("startIndex", VInt (start_index e));
     ("endIndex", VInt (end_index e + 1));
     ("text", VStr (entity e));
     ("type", VStr (type e))] in
  match additional_properties e with
  | None => Ok (VDict obj)
  | Some ap =>
      obj <- match ap_score ap with
             | Some s => f <- py_float s ;; Ok (dict_set obj "score" f)
             | None => Ok obj
             end ;;
      match ap_resolution ap with
      | None | Some VNone => Ok (VDict obj)
      | Some resolution =>
          st <- get resolution "subtype" ;;
          match st with
          | VNone => Ok (VDict obj)
          | _ =>
              st <- getitem resolution "subtype" ;;
              Ok (VDict (dict_set obj "subtype" st))
          end
      end
  end.

(** The body of the two loops over [composite_entity.children] and
    [entities]; the state is [covered_set] and [children_entities]. *)
Definition child_step (composite_entity_metadata : EntityModel) (verbose : bool)
  (child : Child.t) (st : list EntityModel * dict pyval) (e : EntityModel)
  : result (list EntityModel * dict pyval) :=
  let '(covered_set, children_entities) := st in
  if mem_entity e covered_set then Ok st
  else if negb (String.eqb (Child.type child) (type e))
          || negb (composite_contains_entity composite_entity_metadata e)
  then Ok st
  else
    let covered_set := covered_set ++ [e] in
    v <- extract_entity_value e ;;
    children_entities <-
      add_property children_entities (extract_normalized_entity_name e) v ;;
    children_entities <-
      (if verbose
       then add_property_at children_entities _metadata_key
              (extract_normalized_entity_name e) (extract_entity_metadata e)
       else Ok children_entities) ;;
    Ok (covered_set, children_entities).

Definition populate_composite_entity_model (composite_entity : CompositeEntityModel)
  (entities : list EntityModel) (entities_and_metadata : dict pyval)
  (verbose : bool) : result (list EntityModel * dict pyval) :=
  let children_entities : dict pyval := [] in
  let children_entities :=
    if verbose then dict_set children_entities _metadata_key (VDict [])
    else children_entities in
  match find (fun e => String.eqb (type e) (parent_type composite_entity)
                       && String.eqb (entity e) (value composite_entity))
             entities with
  | None => Ok (entities, entities_and_metadata)
  | Some composite_entity_metadata =>
      children_entities_metadata <-
        (if verbose then extract_entity_metadata composite_entity_metadata
         else Ok (VDict [])) ;;
      let children_entities :=
        if verbose then dict_set children_entities _metadata_key (VDict [])
        else children_entities in
      '(covered_set, children_entities) <-
        for_each
          (fun st child =>
             for_each (child_step composite_entity_metadata verbose child)
               entities st)
          (children composite_entity) ([], children_entities) ;;
      entities_and_metadata <-
        add_property entities_and_metadata
          (extract_normalized_entity_name composite_entity_metadata)
          (VDict children_entities) ;;
      entities_and_metadata <-
        (if verbose
         then add_property_at entities_and_metadata _metadata_key
                (extract_normalized_entity_name composite_entity_metadata)
                (Ok children_entities_metadata)
         else Ok entities_and_metadata) ;;
      Ok (filter (fun e => negb (mem_entity e covered_set)) entities,
          entities_and_metadata)
  end.

(** The body of the final loop over the remaining entities. *)
Definition flat_step (composite_entity_types : list string) (verbose : bool)
  (entities_and_metadata : dict pyval) (e : EntityModel) : result (dict pyval) :=
  if mem_string (type e) composite_entity_types then Ok entities_and_metadata
  else
    v <- extract_entity_value e ;;
    entities_and_metadata <-
      add_property entities_and_metadata (extract_normalized_entity_name e) v ;;
    if verbose
    then add_property_at entities_and_metadata _metadata_key
           (extract_normalized_entity_name e) (extract_entity_metadata e)
    else Ok entities_and_metadata.

Definition extract_entities_and_metadata (entities : list EntityModel)
  (composite_entities : option (list CompositeEntityModel)) (verbose : bool)
  : result (dict pyval) :=
  let entities_and_metadata : dict pyval := [] in
  let entities_and_metadata :=
    if verbose then dict_set entities_and_metadata _metadata_key (VDict [])
    else entities_and_metadata in
  '(composite_entity_types, entities, entities_and_metadata) <-
    match composite_entities with
    | Some (c :: cs) =>
        let composite_entity_types := map parent_type (c :: cs) in
        '(current, entities_and_metadata) <-
          for_each
            (fun '(current, entities_and_metadata) compositeEntity =>
               populate_composite_entity_model compositeEntity current
                 entities_and_metadata verbose)
            (c :: cs) (entities, entities_and_metadata) ;;
        Ok (composite_entity_types, current, entities_and_metadata)
    | _ => Ok ([], entities, entities_and_metadata)
    end ;;
  for_each (flat_step composite_entity_types verbose) entities
    entities_and_metadata.

End LuisUtil.

(** ** RecognizerResult *)

(** [a > b] on scores. *)
Definition score_gt (a b : Q) : bool := negb (Qle_bool a b).

Definition get_top_scoring_intent (self : RecognizerResult.t)
  : result TopIntent.t :=
  match RecognizerResult.intents self with
  | None => Raise TypeError
  | Some items =>
      Ok (fold_left
            (fun top_intent '(intent_name, intent_score) =>
               let score := IntentScore.score intent_score in
               if score_gt score (TopIntent.score top_intent)
               then TopIntent.Build_t intent_name score
               else top_intent)
            items (TopIntent.Build_t EmptyString 0%Q))
  end.

(** ** A runtime to run the examples with

    [sample_runtime] reads plain ASCII decimal literals the way CPython does:
    surrounding blanks, a sign, digits, single underscores between the digits
    of an integer, and for a float an optional fraction.  A float literal of
    at most 15 significant digits, and at least [1e-4] in magnitude when not
    zero, denotes a double whose [repr] is the literal without redundant
    zeros.  On those inputs, and on strings that are no number at all, it
    answers as CPython does; it reads no other float (no exponent, [inf] or
    [nan]), and it is used on no other input.  The theorems are proved for
    every runtime and rest on none of this. *)

Definition is_digit (c : ascii) : bool := (48 <=? byte c) && (byte c <=? 57).

Fixpoint lstrip (s : string) : string :=
  match s with
  | EmptyString => EmptyString
  | String c s' => if space1 c then lstrip s' else s
  end.

Fixpoint rstrip (s : string) : string :=
  match s with
  | EmptyString => EmptyString
  | String c s' =>
      match rstrip s' with
      | EmptyString => if space1 c then EmptyString else String c EmptyString
      | r => String c r
      end
  end.

Definition strip (s : string) : string := rstrip (lstrip s).

(** The sign of a literal and what follows it. *)
Definition split_sign (s : string) : bool * string :=
  match s with
  | String "-" s' => (true, s')
  | String "+" s' => (false, s')
  | _ => (false, s)
  end.

Fixpoint digits_value (s : string) (acc : Z) (after_digit : bool) : option Z :=
  match s with
  | EmptyString => if after_digit then Some acc else None
  | String c s' =>
      if is_digit c
      then digits_value s' (10 * acc + Z.of_nat (byte c - 48))%Z true
      else if Ascii.eqb c "_" && after_digit then digits_value s' acc false
      else None
  end.

Definition sample_int_of_str (s : string) : option Z :=
  let '(neg, body) := split_sign (strip s) in
  match digits_value body 0%Z false with
  | Some n => Some (if neg then (- n)%Z else n)
  | None => None
  end.

Fixpoint all_digits (s : string) : bool :=
  match s with
  | EmptyString => true
  | String c s' => is_digit c && all_digits s'
  end.

Fixpoint before_dot (s : string) : string :=
  match s with
  | EmptyString => EmptyString
  | String c s' => if Ascii.eqb c "." then EmptyString else String c (before_dot s')
  end.

Fixpoint after_dot (s : string) : option string :=
  match s with
  | EmptyString => None
  | String c s' => if Ascii.eqb c "." then Some s' else after_dot s'
  end.

Fixpoint drop_zeros (s : string) : string :=
  match s with
  | String "0" s' => drop_zeros s'
  | _ => s
  end.

Definition rev_string (s : string) : string :=
  string_of_list_ascii (rev (list_ascii_of_string s)).

Definition sample_float_of_str (s : string) : option string :=
  let '(neg, body) := split_sign (strip s) in
  let ipart := before_dot body in
  let fpart := match after_dot body with Some f => f | None => EmptyString end in
  if all_digits ipart && all_digits fpart
     && negb (String.eqb (ipart ++ fpart)%string EmptyString)
  then
    let i := drop_zeros ipart in
    let f := rev_string (drop_zeros (rev_string fpart)) in
    let significant := String.length (drop_zeros (i ++ f)%string) in
    let small := String.eqb i EmptyString && negb (String.eqb f EmptyString)
                 && (3 <? String.length f - String.length (drop_zeros f)) in
    if (significant <=? 15) && negb small
    then Some ((if neg then "-" else "")
               ++ (if String.eqb i EmptyString then "0" else i)
               ++ "." ++ (if String.eqb f EmptyString then "0" else f))%string
    else None
  else None.

Definition sample_float_of_int (z : Z) : option string :=
  if (Z.abs z <? 10 ^ 15)%Z
  then Some (NilZero.string_of_int (Z.to_int z) ++ ".0")%string
  else None.

(** [repr] of a value whose strings need no escape. *)
Fixpoint sample_repr (v : pyval) : string :=
  (match v with
  | VNone => "None"
  | VBool true => "True"
  | VBool false => "False"
  | VInt z => NilZero.string_of_int (Z.to_int z)
  | VFloat r => r
  | VStr s => "'" ++ s ++ "'"
  | VList l =>
      "[" ++ (fix go (l : list pyval) : string :=
                match l with
                | [] => EmptyString
                | [x] => sample_repr x
                | x :: l' => sample_repr x ++ ", " ++ go l'
                end) l ++ "]"
  | VDict d =>
      "{" ++ (fix go (d : list (string * pyval)) : string :=
                match d with
                | [] => EmptyString
                | [(k, x)] => "'" ++ k ++ "': " ++ sample_repr x
                | (k, x) :: d' => "'" ++ k ++ "': " ++ sample_repr x ++ ", " ++ go d'
                end) d ++ "}"
  end)%string.

Definition sample_runtime : PyRuntime := {|
  int_of_str := sample_int_of_str;
  float_of_str := sample_float_of_str;
  float_of_int := sample_float_of_int;
  str_of_container := sample_repr
|}.

(** ** The name normaliser, step by step

    The six steps of the specification's NormalizedEntityName, each as a
    function of its own, and the two orders in which they are composed below. *)

Definition role_of (e : EntityModel) : option string :=
  match additional_properties e with
  | Some ap => ap_role ap
  | None => None
  end.

(** The role, when it is present, non-empty and not all whitespace. *)
Definition effective_role (e : EntityModel) : option string :=
  match role_of e with
  | Some r => if negb (String.eqb r EmptyString) && negb (isspace r) then Some r else None
  | None => None
  end.

(** (1) keep the component after the last [:] *)
Definition strip_qualifier (ty : string) : string := last (split ":" ty) EmptyString.
(** (2) an effective role replaces the type *)
Definition role_replaces (e : EntityModel) (ty : string) : string :=
  match effective_role e with
  | Some r => r
  | None => ty
  end.
(** (3) [builtin.datetimeV2.*] collapses to [datetime] *)
Definition collapse_datetime (ty : string) : string :=
  if startswith ty "builtin.datetimeV2." then "datetime" else ty.
(** (4) [builtin.currency*] collapses to [money] *)
Definition collapse_currency (ty : string) : string :=
  if startswith ty "builtin.currency" then "money" else ty.
(** (5) a remaining [builtin.] prefix is stripped *)
Definition strip_builtin (ty : string) : string :=
  if startswith ty "builtin." then drop 8 ty else ty.
(** (6) every [.] and every blank becomes [_] *)
Definition underscores (ty : string) : string := replace " " "_" (replace "." "_" ty).

(** The steps in the order the specification lists them: (1) (2) (3) (4) (5) (6). *)
Definition name_in_stated_order (e : EntityModel) : string :=
  underscores
    (strip_builtin
       (collapse_currency
          (collapse_datetime (role_replaces e (strip_qualifier (type e)))))).

(** The steps with the role last but one: (1) (3) (4) (5) (2) (6). *)
Definition name_role_after_collapse (e : EntityModel) : string :=
  underscores
    (role_replaces e
       (strip_builtin
          (collapse_currency (collapse_datetime (strip_qualifier (type e)))))).

(** [c in s] for a character. *)
Fixpoint has (c : ascii) (s : string) : bool :=
  match s with
  | EmptyString => false
  | String d s' => Ascii.eqb d c || has c s'
  end.

(** An entity that has the type [ty] and nothing else, and [e] retyped. *)
Definition of_type (ty : string) : EntityModel :=
  {| entity := EmptyString; type := ty; start_index := 0; end_index := 0;
     additional_properties := None |}.

Definition with_type (e : EntityModel) (ty : string) : EntityModel :=
  {| entity := entity e; type := ty; start_index := start_index e;
     end_index := end_index e; additional_properties := additional_properties e |}.

Definition with_role (ty role : string) : EntityModel :=
  {| entity := EmptyString; type := ty; start_index := 0; end_index := 0;
     additional_properties :=
       Some {| ap_role := Some role; ap_resolution := None; ap_score := None |} |}.

(** ** The candidates of the top-intent scan *)

(** What the scan starts from. *)
Definition sentinel : TopIntent.t := TopIntent.Build_t EmptyString 0%Q.

(** An item of the intent mapping as a candidate for the top intent. *)
Definition candidate (item : string * IntentScore.t) : TopIntent.t :=
  TopIntent.Build_t (fst item) (IntentScore.score (snd item)).

(** A result with [intents] as its intent mapping and nothing else set. *)
Definition result_with_intents (m : option (dict IntentScore.t)) : RecognizerResult.t :=
  RecognizerResult.Build_t None None m None [].

(** ** The items of the intent mapping *)

(** The key and the value one provider intent contributes. *)
Definition intent_item (i : IntentModel.t) : string * IntentScore.t :=
  (normalized_intent (IntentModel.intent i),
   IntentScore.Build_t (score_or_0 (IntentModel.score i))).

(** [{k: v for (k, v) in items}] continued from [d]: a later item overwrites. *)
Definition dict_of_items {V : Type} (items : list (string * V)) (d : dict V) : dict V :=
  fold_left (fun d kv => dict_set d (fst kv) (snd kv)) items d.

(** ** Induction on values *)

Section PyvalInduction.
Variable P : pyval -> Prop.
Hypothesis case_none : P VNone.
Hypothesis case_bool : forall b, P (VBool b).
Hypothesis case_int : forall z, P (VInt z).
Hypothesis case_float : forall r, P (VFloat r).
Hypothesis case_str : forall s, P (VStr s).
Hypothesis case_list : forall l, Forall P l -> P (VList l).
Hypothesis case_dict : forall d, Forall (fun kv => P (snd kv)) d -> P (VDict d).

Fixpoint pyval_induction (v : pyval) : P v :=
  match v with
  | VNone => case_none
  | VBool b => case_bool b
  | VInt z => case_int z
  | VFloat r => case_float r
  | VStr s => case_str s
  | VList l =>
      case_list l
        ((fix go (l : list pyval) : Forall P l :=
            match l with
            | [] => Forall_nil P
            | x :: l' => Forall_cons x (pyval_induction x) (go l')
            end) l)
  | VDict d =>
      case_dict d
        ((fix go (d : list (string * pyval)) : Forall (fun kv => P (snd kv)) d :=
            match d with
            | [] => Forall_nil _
            | kv :: d' =>
                Forall_cons (P := fun kv => P (snd kv)) kv
                  (pyval_induction (snd kv)) (go d')
            end) d)
  end.

End PyvalInduction.

(** ** Accumulated values *)

(** The values [items] holds under the key [k], in order. *)
Definition values_under (k : string) (items : list (string * pyval)) : list pyval :=
  map snd (filter (fun kv => String.eqb (fst kv) k) items).

(** What a key maps to once the values [l] have been accumulated onto what it
    mapped to before ([o]): nothing new leaves it as it was, and values
    accumulate onto nothing or onto a list. *)
Definition accumulated (o : option pyval) (l : list pyval) : option pyval :=
  match l with
  | [] => o
  | _ => match o with
         | None => Some (VList l)
         | Some (VList l0) => Some (VList (l0 ++ l))
         | Some x => Some x
         end
  end.

(** The key is absent or maps to a list: [add_property] can take it. *)
Definition appendable (d : dict pyval) (k : string) : Prop :=
  match dict_get d k with
  | Some (VList _) | None => True
  | Some _ => False
  end.

(** [add_property] once per item. *)
Definition add_all (items : list (string * pyval)) (d : dict pyval)
  : result (dict pyval) :=
  for_each (fun d kv => add_property d (fst kv) (snd kv)) items d.

Definition names (es : list EntityModel) : list string :=
  map extract_normalized_entity_name es.

(** The entities of [l] that are not in [seen], each at its first occurrence. *)
Fixpoint distinct_from (seen l : list EntityModel) : list EntityModel :=
  match l with
  | [] => []
  | e :: l' =>
      if mem_entity e seen then distinct_from seen l'
      else e :: distinct_from (seen ++ [e]) l'
  end.

(** The test that locates the composite's own entity. *)
Definition is_parent (ce : CompositeEntityModel) (e : EntityModel) : bool :=
  String.eqb (type e) (parent_type ce) && String.eqb (entity e) (value ce).

(** The type is the one [child] names and the span lies within the parent's. *)
Definition expected_child (parent : EntityModel) (child : Child.t) (e : EntityModel)
  : bool :=
  String.eqb (Child.type child) (type e) && composite_contains_entity parent e.

(** The entities the loops over the children and the entities come to accept,
    in the order they come to them. *)
Definition child_candidates (parent : EntityModel) (cs : list Child.t)
  (es : list EntityModel) : list EntityModel :=
  flat_map (fun child => filter (expected_child parent child) es) cs.

(** The entity is of a type some child names, within the parent's span. *)
Definition is_child (parent : EntityModel) (cs : list Child.t) (e : EntityModel)
  : bool :=
  existsb (fun child => String.eqb (Child.type child) (type e)) cs
  && composite_contains_entity parent e.

(** ** The two passes of [extract_entities_and_metadata] *)

(** What [entities_and_metadata] holds before the passes. *)
Definition initial_mapping (verbose : bool) : dict pyval :=
  if verbose then [(_metadata_key, VDict [])] else [].

(** The loop over the composite descriptors: [current] and
    [entities_and_metadata] after it. *)
Definition resolve_composites {rt : PyRuntime} (cs : list CompositeEntityModel)
  (es : list EntityModel) (entities_and_metadata : dict pyval) (verbose : bool)
  : result (list EntityModel * dict pyval) :=
  for_each
    (fun '(current, entities_and_metadata) compositeEntity =>
       populate_composite_entity_model compositeEntity current
         entities_and_metadata verbose)
    cs (es, entities_and_metadata).

(** The type is none of [types]. *)
Definition not_of_types (types : list string) (e : EntityModel) : bool :=
  negb (mem_string (type e) types).

(** An entity with a text and a span and no additional properties. *)
Definition plain_entity (ty text : string) (first last : Z) : EntityModel :=
  {| entity := text; type := ty; start_index := first; end_index := last;
     additional_properties := None |}.

(** ** Distinct values *)

(** The elements of [l], each at its first occurrence. *)
Fixpoint first_occurrences (l : list pyval) : list pyval :=
  match l with
  | [] => []
  | x :: l' => x :: filter (fun y => negb (pyval_eqb x y)) (first_occurrences l')
  end.

(** An entity with a type, a text and a resolution, and nothing else. *)
Definition resolved_entity (ty text : string) (resolution : pyval) : EntityModel :=
  {| entity := text; type := ty; start_index := 0; end_index := 0;
     additional_properties :=
       Some {| ap_role := None; ap_resolution := Some resolution; ap_score := None |} |}.

(** The four entries every metadata record starts with. *)
Definition metadata_base (e : EntityModel) : dict pyval :=
  [("startIndex", VInt (start_index e));
   ("endIndex", VInt (end_index e + 1));
   ("text", VStr (entity e));
   ("type", VStr (type e))].

(** ** The shape of a result mapping *)

(** The key is one of [allowed] and the value a non-empty list. *)
Definition entry_ok (allowed : list string) (k : string) (v : pyval) : Prop :=
  In k allowed /\ exists l, v = VList l /\ l <> [].

Definition list_valued (allowed : list string) (d : dict pyval) : Prop :=
  forall k v, dict_get d k = Some v -> entry_ok allowed k v.

(** A mapping of non-empty lists under keys of [allowed]; in verbose mode
    [$instance] is there as well and maps to such a mapping. *)
Definition shaped (allowed : list string) (verbose : bool) (d : dict pyval) : Prop :=
  if verbose
  then exists m, dict_get d _metadata_key = Some (VDict m)
                 /\ list_valued allowed m
                 /\ forall k v, k <> _metadata_key -> dict_get d k = Some v ->
                                entry_ok allowed k v
  else list_valued allowed d.

(** The value of the entity can be extracted and, in verbose mode, its
    metadata as well, its normalized name not being [$instance]. *)
Definition extractable {rt : PyRuntime} (verbose : bool) (e : EntityModel) : Prop :=
  (exists v, extract_entity_value e = Ok v)
  /\ (verbose = true ->
      (exists x, extract_entity_metadata e = Ok x)
      /\ extract_normalized_entity_name e <> _metadata_key).

(** [m] has the keys of [d], in the same order, and under each key both hold
    a list, of the same length. *)
Definition mirrors (m d : dict pyval) : Prop :=
  Forall2 (fun a b => fst a = fst b
                      /\ exists la lb, snd a = VList la /\ snd b = VList lb
                                       /\ length la = length lb) m d.

(** ** Sentiment *)

(** [luis.sentiment_analysis]: the SDK's [Sentiment] model, its two attributes
    as deserialised. *)
Module Sentiment.
Record t : Type := { label : pyval; score : pyval }.
End Sentiment.

(** [LuisUtil.add_properties(luis, result)].  Of [luis] the function reads the
    attribute [sentiment_analysis] alone, which stands for it here; the
    mutated [result] is returned. *)
Definition add_properties (sentiment_analysis : option Sentiment.t)
  (result : RecognizerResult.t) : RecognizerResult.t :=
  match sentiment_analysis with
  | Some s =>
      {| RecognizerResult.text := RecognizerResult.text result;
         RecognizerResult.altered_text := RecognizerResult.altered_text result;
         RecognizerResult.intents := RecognizerResult.intents result;
         RecognizerResult.entities := RecognizerResult.entities result;
         RecognizerResult.properties :=
           dict_set (RecognizerResult.properties result) "sentiment"
             (VDict [("label", Sentiment.label s); ("score", Sentiment.score s)]) |}
  | None => result
  end.

(** * WaterfallStepContext (botbuilder-dialogs)

    The class of [waterfall_step_context.py].  The parent dialog, the reasons
    and the turn results belong to modules outside these sources: they are
    the variables of the section, the parent being known by its [id] and by
    its [resume_dialog], which is handed the step context and may change it
    and may raise. *)

Section WaterfallStepContext.
Variables Parent DialogReason DialogTurnResult Failure : Type.
Variable id : Parent -> string.
Variable NextCalled : DialogReason.

Record WaterfallStepContext : Type := {
  _parent : Parent;
  _next_called : bool;
  _index : Z;
  _options : pyval;
  _reason : DialogReason;
  _result : pyval;
  _values : dict pyval
}.

Variable resume_dialog :
  Parent -> WaterfallStepContext -> DialogReason -> pyval ->
  WaterfallStepContext * (DialogTurnResult + Failure).

(** How a call of [next] ends: with the parent's turn result, with the
    [Exception] of [next] itself, or with what the parent raised. *)
Inductive outcome : Type :=
| Returned (r : DialogTurnResult)
| Raised (message : string)
| Propagated (f : Failure).

(** The fields this class sets in [__init__]. *)
Definition __init__ (parent : Parent) (options : pyval) (values : dict pyval)
  (index : Z) (reason : DialogReason) (result : pyval) : WaterfallStepContext :=
  {| _parent := parent; _next_called := false; _index := index;
     _options := options; _reason := reason; _result := result;
     _values := values |}.

Definition already_called (self : WaterfallStepContext) : string :=
  ("WaterfallStepContext.next(): method already called for dialog and step '"
   ++ id (_parent self) ++ "'[" ++ NilZero.string_of_int (Z.to_int (_index self))
   ++ "].")%string.

(** [next(result)]: the step context after the call and how the call ended. *)
Definition next (self : WaterfallStepContext) (result : pyval)
  : WaterfallStepContext * outcome :=
  if _next_called self then (self, Raised (already_called self))
  else
    let self :=
      {| _parent := _parent self; _next_called := true; _index := _index self;
         _options := _options self; _reason := _reason self;
         _result := _result self; _values := _values self |} in
    let '(self, r) := resume_dialog (_parent self) self NextCalled result in
    (self, match r with inl r => Returned r | inr f => Propagated f end).

(** One call of [next] after the other, on the same step context. *)
Fixpoint next_each (self : WaterfallStepContext) (results : list pyval)
  : WaterfallStepContext * list outcome :=
  match results with
  | [] => (self, [])
  | r :: results' =>
      let '(self, o) := next self r in
      let '(self, os) := next_each self results' in
      (self, o :: os)
  end.

End WaterfallStepContext.

Arguments _parent {Parent DialogReason} w.
Arguments _next_called {Parent DialogReason} w.
Arguments _index {Parent DialogReason} w.
Arguments _options {Parent DialogReason} w.
Arguments _reason {Parent DialogReason} w.
Arguments _result {Parent DialogReason} w.
Arguments _values {Parent DialogReason} w.
Arguments Returned {DialogTurnResult Failure} r.
Arguments Raised {DialogTurnResult Failure} message.
Arguments Propagated {DialogTurnResult Failure} f.
Arguments __init__ {Parent DialogReason} parent options values index reason result.
Arguments already_called {Parent DialogReason} id self.
Arguments next {Parent DialogReason DialogTurnResult Failure} id NextCalled
  resume_dialog self result.
Arguments next_each {Parent DialogReason DialogTurnResult Failure} id NextCalled
  resume_dialog self results.

(** ** A sample utterance

    [book a room in rome], then [oslo]: a booking over the span of the first
    and two cities, one inside the span and one after it. *)

Definition room_booking : EntityModel :=
  plain_entity "roomBooking" "book a room in rome" 0 19.
Definition rome : EntityModel := plain_entity "city" "rome" 15 18.
Definition oslo : EntityModel := plain_entity "city" "oslo" 30 33.

Definition booking_of_cities : CompositeEntityModel :=
  {| parent_type := "roomBooking"; value := "book a room in rome";
     children := [Child.Build_t "city"] |}.

(** The same composite with a child entry that names the parent type. *)
Definition booking_of_itself : CompositeEntityModel :=
  {| parent_type := "roomBooking"; value := "book a room in rome";
     children := [Child.Build_t "roomBooking"; Child.Build_t "city"] |}.

(** A parent dialog that answers every [resume_dialog] with the result it is
    given and leaves the step context as it is. *)
Definition echo_parent (p : string) (c : WaterfallStepContext string string)
  (why : string) (x : pyval)
  : WaterfallStepContext string string * (pyval + exn) :=
  (c, inl x).

(** ** Occurrences

    What tells one occurrence of an entity from another in an utterance: its
    text, its type and its span.  These attributes are strings and integers,
    which [==] compares exactly, so two entity models that differ in one of
    them are unequal whatever their additional properties hold. *)

Definition occurrence (e : EntityModel) : string * string * Z * Z :=
  (entity e, type e, start_index e, end_index e).

Definition occurrence_eqb (a b : EntityModel) : bool :=
  String.eqb (entity a) (entity b)
  && String.eqb (type a) (type b)
  && Z.eqb (start_index a) (start_index b)
  && Z.eqb (end_index a) (end_index b).

(** One of [covered] has the text, type and span of [e]. *)
Definition covers (covered : list EntityModel) (e : EntityModel) : bool :=
  existsb (occurrence_eqb e) covered.

(** The grouping as the specification words it: a child entry takes every
    entity of its type within the parent's span that no earlier child entry
    of the composite has taken. *)
Fixpoint grouped_as_stated (parent : EntityModel) (cs : list Child.t)
  (es consumed : list EntityModel) : list EntityModel :=
  match cs with
  | [] => []
  | child :: cs' =>
      let taken :=
        filter (fun e => negb (mem_entity e consumed) && expected_child parent child e)
          es in
      taken ++ grouped_as_stated parent cs' es (consumed ++ taken)
  end.

(** A second booking, after the span of the first. *)
Definition other_booking : EntityModel :=
  plain_entity "roomBooking" "book a table" 30 41.

(** * Properties *)

(** ** The sample runtime *)

Example sample_int_examples :
  map sample_int_of_str ["72"; " -1_000 "; "+07"; "7.5"; "1__0"; ""; "_1"; "abc"]
  = [Some 72%Z; Some (-1000)%Z; Some 7%Z; None; None; None; None; None].
Proof. reflexivity. Qed.

Example sample_float_examples :
  map sample_float_of_str ["7.5"; "-0.50"; "12"; ".5"; "1."; "1,5"; "x"; "."]
  = [Some "7.5"; Some "-0.5"; Some "12.0"; Some "0.5"; Some "1.0"; None; None; None].
Proof. reflexivity. Qed.

(** ** Strings *)

Lemma has_replace_other (c a b : ascii) (s : string) :
  c <> a -> c <> b -> has c (replace a b s) = has c s.
Proof.
  intros Ha Hb. induction s as [|d s IH]; simpl; [reflexivity|].
  rewrite IH. destruct (Ascii.eqb_spec d a) as [->|Hd].
  - destruct (Ascii.eqb_spec b c) as [E|_]; [congruence|].
    destruct (Ascii.eqb_spec a c) as [E|_]; [congruence|]. reflexivity.
  - reflexivity.
Qed.

Lemma has_replace_same (a b : ascii) (s : string) :
  a <> b -> has a (replace a b s) = false.
Proof.
  intros Hab. induction s as [|d s IH]; simpl; [reflexivity|].
  rewrite IH, orb_false_r. destruct (Ascii.eqb_spec d a) as [->|Hd].
  - apply Ascii.eqb_neq. congruence.
  - apply Ascii.eqb_neq. exact Hd.
Qed.

Lemma replace_absent (a b : ascii) (s : string) :
  has a s = false -> replace a b s = s.
Proof.
  induction s as [|d s IH]; simpl; [reflexivity|].
  intros H. apply orb_false_iff in H as [Hd Hs].
  rewrite Hd, IH by exact Hs. reflexivity.
Qed.

Lemma replace_idempotent (a b : ascii) (s : string) :
  a <> b -> replace a b (replace a b s) = replace a b s.
Proof. intros H. apply replace_absent, has_replace_same, H. Qed.

Lemma split_nonempty (sep : ascii) (s : string) : split sep s <> [].
Proof.
  destruct s as [|c s]; simpl; [discriminate|].
  destruct (Ascii.eqb c sep); [discriminate|].
  destruct (split sep s); discriminate.
Qed.

Lemma has_last_split (sep : ascii) (s : string) :
  has sep (last (split sep s) EmptyString) = false.
Proof.
  induction s as [|c s IH]; [reflexivity|].
  cbn [split]. destruct (Ascii.eqb_spec c sep) as [->|Hc].
  - pose proof (split_nonempty sep s) as Hne.
    destruct (split sep s) as [|w ws]; [congruence|]. exact IH.
  - pose proof (split_nonempty sep s) as Hne.
    destruct (split sep s) as [|w ws]; [congruence|].
    destruct ws as [|w' ws].
    + cbn in *. rewrite IH, orb_false_r. apply Ascii.eqb_neq, Hc.
    + exact IH.
Qed.

Lemma split_absent (sep : ascii) (s : string) :
  has sep s = false -> split sep s = [s].
Proof.
  induction s as [|c s IH]; [reflexivity|].
  cbn [has split]. intros H. apply orb_false_iff in H as [Hc Hs].
  rewrite Hc, IH by exact Hs. reflexivity.
Qed.

Lemma has_drop (c : ascii) (n : nat) (s : string) :
  has c s = false -> has c (drop n s) = false.
Proof.
  revert s. induction n as [|n IH]; intros [|d s] H; cbn; try exact H; try reflexivity.
  apply IH. cbn in H. apply orb_false_iff in H as [_ H]. exact H.
Qed.

Lemma startswith_has (c : ascii) (p s : string) :
  startswith s p = true -> has c p = true -> has c s = true.
Proof.
  unfold startswith. revert s.
  induction p as [|a p IH]; intros s Hp Hc; [discriminate|].
  destruct s as [|b s]; [discriminate|]. cbn in *.
  destruct (ascii_dec a b) as [->|]; [|discriminate].
  destruct (Ascii.eqb b c); [reflexivity|]. cbn in *. eauto.
Qed.

Lemma startswith_absent (c : ascii) (p s : string) :
  has c s = false -> has c p = true -> startswith s p = false.
Proof.
  intros Hs Hp. destruct (startswith s p) eqn:E; [|reflexivity].
  rewrite (startswith_has c p s E Hp) in Hs. discriminate.
Qed.

Lemma startswith_app (s p q : string) :
  startswith s (p ++ q)%string = true -> startswith s p = true.
Proof.
  unfold startswith. revert s.
  induction p as [|a p IH]; intros s H.
  - destruct s; reflexivity.
  - destruct s as [|b s]; [discriminate|]. cbn in *.
    destruct (ascii_dec a b); [eauto|discriminate].
Qed.

(** ** The normalised entity name *)

Lemma role_replaces_effective (e : EntityModel) (r ty : string) :
  effective_role e = Some r -> role_replaces e ty = r.
Proof. unfold role_replaces. intros ->. reflexivity. Qed.

Lemma role_replaces_none (e : EntityModel) (ty : string) :
  effective_role e = None -> role_replaces e ty = ty.
Proof. unfold role_replaces. intros ->. reflexivity. Qed.

Lemma extract_normalized_entity_name_steps (e : EntityModel) :
  extract_normalized_entity_name e = name_role_after_collapse e.
Proof.
  unfold extract_normalized_entity_name, name_role_after_collapse, underscores.
  f_equal. f_equal.
  unfold role_replaces, effective_role, role_of.
  fold (strip_qualifier (type e)).
  fold (collapse_datetime (strip_qualifier (type e))).
  fold (collapse_currency (collapse_datetime (strip_qualifier (type e)))).
  fold (strip_builtin (collapse_currency (collapse_datetime (strip_qualifier (type e))))).
  destruct (additional_properties e) as [ap|]; [destruct (ap_role ap) as [r|]|].
  - destruct (negb (String.eqb r EmptyString) && negb (isspace r)); reflexivity.
  - reflexivity.
  - reflexivity.
Qed.

Lemma collapse_steps_identity (r : string) :
  startswith r "builtin." = false ->
  strip_builtin (collapse_currency (collapse_datetime r)) = r.
Proof.
  intros H.
  assert (H3 : startswith r "builtin.datetimeV2." = false).
  { destruct (startswith r "builtin.datetimeV2.") eqn:E; [|reflexivity].
    rewrite (startswith_app r "builtin." "datetimeV2." E) in H. discriminate. }
  assert (H4 : startswith r "builtin.currency" = false).
  { destruct (startswith r "builtin.currency") eqn:E; [|reflexivity].
    rewrite (startswith_app r "builtin." "currency" E) in H. discriminate. }
  unfold collapse_datetime. rewrite H3.
  unfold collapse_currency. rewrite H4.
  unfold strip_builtin. rewrite H. reflexivity.
Qed.

(** C2, as amended.  [extract_normalized_entity_name] composes the six steps
    in the order (1) (3) (4) (5) (2) (6): the type loses its qualifier and is
    collapsed first, then an effective role replaces the result, and of the
    steps only the replacement of dots and blanks is applied to the role.
    The order listed in the specification gives the same name whenever the
    effective role, if there is one, does not start with [builtin.]; and with
    no effective role the three collapsing tests act as one cascade. *)
Theorem normalized_name_step_order (e : EntityModel) :
  extract_normalized_entity_name e = name_role_after_collapse e
  /\ ((forall r, effective_role e = Some r -> startswith r "builtin." = false) ->
      extract_normalized_entity_name e = name_in_stated_order e)
  /\ (effective_role e = None ->
      extract_normalized_entity_name e =
      underscores
        (let ty := strip_qualifier (type e) in
         if startswith ty "builtin.datetimeV2." then "datetime"
         else if startswith ty "builtin.currency" then "money"
         else if startswith ty "builtin." then drop 8 ty
         else ty)).
Proof.
  split; [apply extract_normalized_entity_name_steps|]. split.
  - intros H. rewrite extract_normalized_entity_name_steps.
    unfold name_role_after_collapse, name_in_stated_order.
    destruct (effective_role e) as [r|] eqn:E.
    + rewrite !(role_replaces_effective e r) by exact E.
      rewrite collapse_steps_identity by (apply H; reflexivity). reflexivity.
    + rewrite !role_replaces_none by exact E. reflexivity.
  - intros E. rewrite extract_normalized_entity_name_steps.
    unfold name_role_after_collapse. rewrite role_replaces_none by exact E.
    f_equal. cbv zeta.
    unfold strip_builtin, collapse_currency, collapse_datetime.
    destruct (startswith (strip_qualifier (type e)) "builtin.datetimeV2."); [reflexivity|].
    destruct (startswith (strip_qualifier (type e)) "builtin.currency"); reflexivity.
Qed.

(** The step order at work: a role that itself starts with [builtin.]. *)
Lemma normalized_name_step_order_witness :
  extract_normalized_entity_name (with_role "x:builtin.currencyName" "trip fare")
  = "trip_fare"
  /\ extract_normalized_entity_name (with_role "x:builtin.currencyName" "trip fare")
     = name_in_stated_order (with_role "x:builtin.currencyName" "trip fare")
  /\ extract_normalized_entity_name (of_type "x:builtin.currencyName") = "money".
Proof.
  pose proof (normalized_name_step_order (with_role "x:builtin.currencyName" "trip fare"))
    as [H1 [H2 _]].
  pose proof (normalized_name_step_order (of_type "x:builtin.currencyName"))
    as [_ [_ H3]].
  split; [rewrite H1; reflexivity|]. split.
  - apply H2. intros r Hr. vm_compute in Hr. injection Hr as <-. reflexivity.
  - rewrite H3; reflexivity.
Defined.

(** C2 as stated fails: with the role [builtin.age] the code answers
    [builtin_age], the stated order answers [age]. *)
Lemma normalized_name_stated_order_fails :
  ~ (forall e : EntityModel,
       extract_normalized_entity_name e = name_in_stated_order e).
Proof.
  intros H. specialize (H (with_role "city" "builtin.age")).
  vm_compute in H. discriminate H.
Qed.

Lemma underscores_clean (s : string) :
  has "." (underscores s) = false /\ has " " (underscores s) = false.
Proof.
  unfold underscores. split.
  - rewrite has_replace_other by discriminate. apply has_replace_same. discriminate.
  - apply has_replace_same. discriminate.
Qed.

Lemma underscores_colon (s : string) : has ":" (underscores s) = has ":" s.
Proof.
  unfold underscores. rewrite !has_replace_other by discriminate. reflexivity.
Qed.

Lemma underscores_fixed (s : string) :
  has "." s = false -> has " " s = false -> underscores s = s.
Proof.
  intros Hd Hb. unfold underscores.
  rewrite (replace_absent "." "_" s Hd). apply replace_absent, Hb.
Qed.

Lemma collapsed_colon_free (ty : string) :
  has ":" ty = false ->
  has ":" (strip_builtin (collapse_currency (collapse_datetime ty))) = false.
Proof.
  intros H. unfold collapse_datetime.
  destruct (startswith ty "builtin.datetimeV2."); [reflexivity|].
  unfold collapse_currency.
  destruct (startswith ty "builtin.currency"); [reflexivity|].
  unfold strip_builtin.
  destruct (startswith ty "builtin."); [apply has_drop, H | exact H].
Qed.

Lemma name_without_role_colon_free (e : EntityModel) :
  effective_role e = None -> has ":" (extract_normalized_entity_name e) = false.
Proof.
  intros E. rewrite extract_normalized_entity_name_steps.
  unfold name_role_after_collapse.
  rewrite role_replaces_none by exact E.
  rewrite underscores_colon. apply collapsed_colon_free.
  unfold strip_qualifier. apply has_last_split.
Qed.

Lemma clean_name_fixed (n : string) :
  has ":" n = false -> has "." n = false -> has " " n = false ->
  extract_normalized_entity_name (of_type n) = n.
Proof.
  intros Hc Hd Hb. rewrite extract_normalized_entity_name_steps.
  unfold name_role_after_collapse.
  rewrite role_replaces_none by reflexivity.
  change (type (of_type n)) with n.
  unfold strip_qualifier. rewrite (split_absent ":" n Hc). cbn [last].
  unfold collapse_datetime.
  rewrite (startswith_absent "." "builtin.datetimeV2." n Hd) by reflexivity.
  unfold collapse_currency.
  rewrite (startswith_absent "." "builtin.currency" n Hd) by reflexivity.
  unfold strip_builtin.
  rewrite (startswith_absent "." "builtin." n Hd) by reflexivity.
  apply underscores_fixed; assumption.
Qed.

Lemma name_clean (e : EntityModel) :
  has "." (extract_normalized_entity_name e) = false
  /\ has " " (extract_normalized_entity_name e) = false.
Proof.
  rewrite extract_normalized_entity_name_steps. apply underscores_clean.
Qed.

(** C9, as amended.  Normalising a normalised name again, as the type of an
    occurrence without a role, returns it unchanged whenever the name holds no
    [:]; every name computed from a type alone (no effective role) is such a
    name, so the normaliser is idempotent on types.  With the role kept on the
    occurrence, every name is returned unchanged. *)
Theorem normalized_name_idempotent :
  (forall ty : string,
      extract_normalized_entity_name
        (of_type (extract_normalized_entity_name (of_type ty)))
      = extract_normalized_entity_name (of_type ty))
  /\ (forall e : EntityModel,
         has ":" (extract_normalized_entity_name e) = false ->
         extract_normalized_entity_name (of_type (extract_normalized_entity_name e))
         = extract_normalized_entity_name e)
  /\ (forall e : EntityModel,
         effective_role e = None ->
         has ":" (extract_normalized_entity_name e) = false)
  /\ (forall e : EntityModel,
         extract_normalized_entity_name
           (with_type e (extract_normalized_entity_name e))
         = extract_normalized_entity_name e).
Proof.
  assert (fixed : forall e : EntityModel,
             has ":" (extract_normalized_entity_name e) = false ->
             extract_normalized_entity_name
               (of_type (extract_normalized_entity_name e))
             = extract_normalized_entity_name e).
  { intros e Hc. destruct (name_clean e) as [Hd Hb].
    apply clean_name_fixed; assumption. }
  split; [|split; [exact fixed|split; [exact name_without_role_colon_free|]]].
  - intros ty. apply fixed, name_without_role_colon_free. reflexivity.
  - intros e.
    rewrite (extract_normalized_entity_name_steps (with_type e _)).
    unfold name_role_after_collapse.
    destruct (effective_role e) as [r|] eqn:E.
    + rewrite (role_replaces_effective (with_type e _) r) by exact E.
      rewrite extract_normalized_entity_name_steps.
      unfold name_role_after_collapse.
      rewrite (role_replaces_effective e r) by exact E. reflexivity.
    + rewrite (role_replaces_none (with_type e _)) by exact E.
      change (type (with_type e ?n)) with n.
      pose proof (fixed e (name_without_role_colon_free e E)) as F.
      rewrite extract_normalized_entity_name_steps in F at 1.
      unfold name_role_after_collapse in F.
      rewrite role_replaces_none in F by reflexivity.
      exact F.
Qed.

Lemma normalized_name_idempotent_witness :
  extract_normalized_entity_name (of_type "x:builtin.geographyV2.city") = "geographyV2_city"
  /\ extract_normalized_entity_name (of_type "geographyV2_city") = "geographyV2_city"
  /\ extract_normalized_entity_name (with_role "city" "from city") = "from_city"
  /\ extract_normalized_entity_name (of_type "from_city") = "from_city".
Proof.
  destruct normalized_name_idempotent as [H1 [H2 _]].
  split; [reflexivity|]. split; [exact (H1 "x:builtin.geographyV2.city")|].
  split; [reflexivity|].
  exact (H2 (with_role "city" "from city") eq_refl).
Defined.

(** C9 as stated fails: the role [a:b] is normalised to [a:b], and [a:b] as a
    type is normalised to [b]. *)
Lemma normalized_name_not_idempotent :
  ~ (forall e : EntityModel,
       extract_normalized_entity_name (of_type (extract_normalized_entity_name e))
       = extract_normalized_entity_name e).
Proof.
  intros H. specialize (H (with_role "city" "a:b")).
  vm_compute in H. discriminate H.
Qed.

(** ** The top scoring intent *)

Lemma score_gt_lt (a b : Q) : score_gt a b = true <-> (b < a)%Q.
Proof.
  unfold score_gt. rewrite negb_true_iff. split.
  - intros H. apply Qnot_le_lt. intros L. apply Qle_bool_iff in L. congruence.
  - intros H. destruct (Qle_bool a b) eqn:E; [|reflexivity].
    apply Qle_bool_iff in E. exfalso. exact (Qlt_not_le _ _ H E).
Qed.

Lemma score_gt_le (a b : Q) : score_gt a b = false <-> (a <= b)%Q.
Proof.
  unfold score_gt. rewrite negb_false_iff. apply Qle_bool_iff.
Qed.

(** One step of the scan. *)
Lemma scan_step (top : TopIntent.t) (item : string * IntentScore.t) :
  (let '(intent_name, intent_score) := item in
   let score := IntentScore.score intent_score in
   if score_gt score (TopIntent.score top)
   then TopIntent.Build_t intent_name score
   else top)
  = if score_gt (TopIntent.score (candidate item)) (TopIntent.score top)
    then candidate item else top.
Proof. destruct item as [n s]. reflexivity. Qed.

(** The scan returns the first of the candidates that no later one beats and
    that beats every earlier one. *)
Lemma scan_first_maximum (items : dict IntentScore.t) (init : TopIntent.t) :
  let top :=
    fold_left
      (fun top_intent '(intent_name, intent_score) =>
         let score := IntentScore.score intent_score in
         if score_gt score (TopIntent.score top_intent)
         then TopIntent.Build_t intent_name score
         else top_intent)
      items init in
  exists before after : list TopIntent.t,
    init :: map candidate items = before ++ top :: after
    /\ Forall (fun c => (TopIntent.score c < TopIntent.score top)%Q) before
    /\ Forall (fun c => (TopIntent.score c <= TopIntent.score top)%Q) after.
Proof.
  revert init. induction items as [|item items IH]; intros init; cbn zeta.
  - exists [], []. cbn. repeat split; constructor.
  - cbn [fold_left map]. rewrite scan_step.
    destruct (score_gt (TopIntent.score (candidate item)) (TopIntent.score init)) eqn:G.
    + apply score_gt_lt in G.
      destruct (IH (candidate item)) as (before & after & E & B & A).
      cbn zeta in E, B, A.
      exists (init :: before), after. rewrite E. split; [reflexivity|]. split; [|exact A].
      constructor; [|exact B].
      destruct before as [|c before].
      * injection E as E _. rewrite <- E. exact G.
      * injection E as E _. inversion B as [|? ? Hc _]; subst.
        exact (Qlt_trans _ _ _ G Hc).
    + apply score_gt_le in G.
      destruct (IH init) as (before & after & E & B & A).
      cbn zeta in E, B, A.
      destruct before as [|c before].
      * injection E as E1 E2. exists [], (candidate item :: after).
        cbn. rewrite <- E1 at 1. rewrite E2. split; [reflexivity|].
        split; [constructor|]. constructor; [|exact A].
        rewrite <- E1. exact G.
      * injection E as E1 E2. subst c.
        exists (init :: candidate item :: before), after.
        cbn. rewrite E2. split; [reflexivity|]. split; [|exact A].
        inversion B as [|? ? Hc Hb]; subst.
        constructor; [exact Hc|]. constructor; [|exact Hb].
        exact (Qle_lt_trans _ _ _ G Hc).
Qed.

(** C6.  [get_top_scoring_intent] raises, and then a [TypeError], exactly
    when the intent mapping is [None].  On a mapping that is set it returns a
    candidate out of the sentinel [("", 0.0)] followed by the items in the
    mapping's order: the first one whose score no later candidate exceeds and
    every earlier candidate is strictly below.  So an empty mapping yields the
    sentinel, and of tied best scores the first encountered wins. *)
Theorem get_top_scoring_intent_first_maximum (self : RecognizerResult.t) :
  (get_top_scoring_intent self = Raise TypeError
   <-> RecognizerResult.intents self = None)
  /\ (forall e : exn,
         get_top_scoring_intent self = Raise e ->
         e = TypeError /\ RecognizerResult.intents self = None)
  /\ (RecognizerResult.intents self = Some [] ->
      get_top_scoring_intent self = Ok sentinel)
  /\ (forall items : dict IntentScore.t,
         RecognizerResult.intents self = Some items ->
         exists (top : TopIntent.t) (before after : list TopIntent.t),
           get_top_scoring_intent self = Ok top
           /\ sentinel :: map candidate items = before ++ top :: after
           /\ Forall (fun c => (TopIntent.score c < TopIntent.score top)%Q) before
           /\ Forall (fun c => (TopIntent.score c <= TopIntent.score top)%Q) after).
Proof.
  unfold get_top_scoring_intent.
  destruct (RecognizerResult.intents self) as [items|].
  - split; [split; discriminate|]. split; [discriminate|]. split.
    + intros E. injection E as ->. reflexivity.
    + intros items' E. injection E as <-.
      destruct (scan_first_maximum items sentinel) as (before & after & H).
      eexists _, before, after. split; [reflexivity|exact H].
  - split; [split; reflexivity|]. split.
    + intros e E. injection E as <-. split; reflexivity.
    + split; discriminate.
Qed.

(** The tie of the specification, and a mapping that is not set. *)
Lemma get_top_scoring_intent_first_maximum_witness :
  get_top_scoring_intent
    (result_with_intents
       (Some [("a", IntentScore.Build_t (1 # 2)); ("b", IntentScore.Build_t (1 # 2))]))
  = Ok (TopIntent.Build_t "a" (1 # 2))
  /\ get_top_scoring_intent (result_with_intents (Some [])) = Ok sentinel
  /\ get_top_scoring_intent (result_with_intents None) = Raise TypeError.
Proof.
  split; [reflexivity|]. split.
  - apply (get_top_scoring_intent_first_maximum (result_with_intents (Some []))).
    reflexivity.
  - apply (get_top_scoring_intent_first_maximum (result_with_intents None)).
    reflexivity.
Defined.

(** ** Dictionaries *)

Section Dict.
Context {V : Type}.
Implicit Types (d : dict V) (k : string) (v : V).

Lemma dict_get_set_same d k v : dict_get (dict_set d k v) k = Some v.
Proof.
  induction d as [|[k' v'] d IH]; cbn.
  - rewrite String.eqb_refl. reflexivity.
  - destruct (String.eqb k' k) eqn:E; cbn; rewrite E; [reflexivity|exact IH].
Qed.

Lemma dict_get_set_other d k k' v :
  k <> k' -> dict_get (dict_set d k v) k' = dict_get d k'.
Proof.
  intros N. apply String.eqb_neq in N.
  induction d as [|[k0 v0] d IH]; cbn.
  - rewrite N. reflexivity.
  - destruct (String.eqb k0 k) eqn:E; cbn.
    + apply String.eqb_eq in E. subst k0. rewrite N. reflexivity.
    + rewrite IH. reflexivity.
Qed.

Lemma dict_get_in_keys d k : dict_get d k <> None <-> In k (keys d).
Proof.
  induction d as [|[k0 v0] d IH]; cbn.
  - split; [congruence|tauto].
  - destruct (String.eqb_spec k0 k) as [->|N].
    + split; [auto|discriminate].
    + rewrite IH. split; [auto|]. intros [E|I]; [congruence|exact I].
Qed.

Lemma dict_get_none_keys d k : dict_get d k = None <-> ~ In k (keys d).
Proof.
  rewrite <- dict_get_in_keys. destruct (dict_get d k).
  - split; [discriminate|]. intros H. exfalso. apply H. discriminate.
  - split; [|reflexivity]. intros _ H. apply H. reflexivity.
Qed.

Lemma dict_set_absent d k v : dict_get d k = None -> dict_set d k v = d ++ [(k, v)].
Proof.
  induction d as [|[k0 v0] d IH]; cbn; [reflexivity|].
  destruct (String.eqb k0 k); [discriminate|]. intros H. rewrite IH by exact H.
  reflexivity.
Qed.

Lemma dict_set_present_keys d k v :
  dict_get d k <> None -> keys (dict_set d k v) = keys d.
Proof.
  unfold keys. induction d as [|[k0 v0] d IH]; cbn; [congruence|].
  destruct (String.eqb k0 k); cbn; [reflexivity|].
  intros H. rewrite IH by exact H. reflexivity.
Qed.

Lemma dict_set_keys d k v :
  keys (dict_set d k v)
  = match dict_get d k with Some _ => keys d | None => keys d ++ [k] end.
Proof.
  destruct (dict_get d k) eqn:E.
  - apply dict_set_present_keys. congruence.
  - rewrite dict_set_absent by exact E. unfold keys. rewrite map_app. reflexivity.
Qed.

Lemma dict_set_nodup d k v : NoDup (keys d) -> NoDup (keys (dict_set d k v)).
Proof.
  intros H. rewrite dict_set_keys. destruct (dict_get d k) eqn:E; [exact H|].
  apply dict_get_none_keys in E.
  apply NoDup_app; [exact H|repeat constructor; cbn; tauto|].
  intros x Hx [<-|[]]. exact (E Hx).
Qed.

Lemma dict_set_length d k v :
  length (dict_set d k v)
  = match dict_get d k with Some _ => length d | None => S (length d) end.
Proof.
  induction d as [|[k0 v0] d IH]; cbn; [reflexivity|].
  destruct (String.eqb k0 k); cbn; [reflexivity|].
  rewrite IH. destruct (dict_get d k); reflexivity.
Qed.

Lemma dict_of_items_cons (l : list (string * V)) d k v :
  dict_of_items ((k, v) :: l) d = dict_of_items l (dict_set d k v).
Proof. reflexivity. Qed.

Lemma dict_of_items_app (l1 l2 : list (string * V)) d :
  dict_of_items (l1 ++ l2) d = dict_of_items l2 (dict_of_items l1 d).
Proof. apply fold_left_app. Qed.

Lemma dict_of_items_nodup (l : list (string * V)) d :
  NoDup (keys d) -> NoDup (keys (dict_of_items l d)).
Proof.
  revert d. induction l as [|[k v] l IH]; intros d H; [exact H|].
  rewrite dict_of_items_cons. apply IH, dict_set_nodup, H.
Qed.

Lemma dict_of_items_get_later (l : list (string * V)) d k :
  ~ In k (map fst l) -> dict_get (dict_of_items l d) k = dict_get d k.
Proof.
  revert d. induction l as [|[k0 v0] l IH]; intros d H; [reflexivity|].
  rewrite dict_of_items_cons. cbn in H.
  rewrite IH by tauto. apply dict_get_set_other. tauto.
Qed.

(** The value under a key is the one of the last item with that key. *)
Lemma dict_of_items_last (pre post : list (string * V)) d k v :
  ~ In k (map fst post) ->
  dict_get (dict_of_items (pre ++ (k, v) :: post) d) k = Some v.
Proof.
  intros H. rewrite dict_of_items_app, dict_of_items_cons.
  rewrite dict_of_items_get_later by exact H. apply dict_get_set_same.
Qed.

Lemma dict_of_items_keeps (l : list (string * V)) d k :
  dict_get d k <> None -> dict_get (dict_of_items l d) k <> None.
Proof.
  revert d. induction l as [|[k0 v0] l IH]; intros d H; [exact H|].
  rewrite dict_of_items_cons.
  apply IH. destruct (String.eqb_spec k0 k) as [->|N].
  - rewrite dict_get_set_same. discriminate.
  - rewrite dict_get_set_other by exact N. exact H.
Qed.

Lemma dict_of_items_keys (l : list (string * V)) d k :
  dict_get (dict_of_items l d) k <> None
  <-> dict_get d k <> None \/ In k (map fst l).
Proof.
  revert d. induction l as [|[k0 v0] l IH]; intros d; [cbn; tauto|].
  rewrite dict_of_items_cons, IH. cbn [map fst In].
  destruct (String.eqb_spec k0 k) as [->|N].
  - rewrite dict_get_set_same. split; [auto|]. intros _. left. discriminate.
  - rewrite dict_get_set_other by exact N. tauto.
Qed.

Lemma dict_of_items_length (l : list (string * V)) d :
  length (dict_of_items l d) <= length d + length l.
Proof.
  revert d. induction l as [|[k v] l IH]; intros d; [cbn; lia|].
  rewrite dict_of_items_cons.
  specialize (IH (dict_set d k v)). rewrite dict_set_length in IH.
  cbn [length]. destruct (dict_get d k); lia.
Qed.

(** Two items under one key leave the mapping shorter than the item list. *)
Lemma dict_of_items_collision (pre mid post : list (string * V)) d k v1 v2 :
  length (dict_of_items (pre ++ (k, v1) :: mid ++ (k, v2) :: post) d)
  < length d + length (pre ++ (k, v1) :: mid ++ (k, v2) :: post).
Proof.
  rewrite dict_of_items_app, dict_of_items_cons, dict_of_items_app,
    dict_of_items_cons.
  set (d1 := dict_of_items pre d).
  set (d2 := dict_of_items mid (dict_set d1 k v1)).
  pose proof (dict_of_items_length pre d) as L1. fold d1 in L1.
  pose proof (dict_set_length d1 k v1) as L2.
  pose proof (dict_of_items_length mid (dict_set d1 k v1)) as L3. fold d2 in L3.
  pose proof (dict_set_length d2 k v2) as L4.
  pose proof (dict_of_items_length post (dict_set d2 k v2)) as L5.
  assert (P : dict_get d2 k <> None).
  { apply dict_of_items_keeps. rewrite dict_get_set_same. discriminate. }
  destruct (dict_get d2 k); [|congruence].
  rewrite !length_app. cbn [length]. rewrite length_app. cbn [length].
  destruct (dict_get d1 k); lia.
Qed.

End Dict.

(** ** The intent mapping *)

Lemma get_intents_items (r : LuisResult) (l : list IntentModel.t) :
  intents r = Some l -> l <> [] ->
  get_intents r = Ok (dict_of_items (map intent_item l) []).
Proof.
  intros E N. unfold get_intents. rewrite E.
  destruct l as [|i l]; [congruence|]. f_equal.
  unfold dict_of_items. generalize (@nil (string * IntentScore.t)).
  generalize (i :: l). clear. intros l.
  induction l as [|x l IH]; intros d; [reflexivity|]. cbn. apply IH.
Qed.

(** C10.  On a non-empty intent list [get_intents] returns a mapping whose
    keys are the normalised names, each once; the score under a name is the
    one of the last intent of the list with that normalised name, so the
    scores of earlier intents with the same normalised name are gone; and
    when two intents of the list share a normalised name the mapping has
    fewer entries than the list. *)
Theorem get_intents_last_wins (r : LuisResult) (l : list IntentModel.t) :
  intents r = Some l -> l <> [] ->
  exists d : dict IntentScore.t,
    get_intents r = Ok d
    /\ NoDup (keys d)
    /\ (forall n : string,
           In n (keys d)
           <-> exists x, In x l /\ normalized_intent (IntentModel.intent x) = n)
    /\ (forall (pre : list IntentModel.t) (x : IntentModel.t) (post : list IntentModel.t),
           l = pre ++ x :: post ->
           (forall y, In y post ->
                      normalized_intent (IntentModel.intent y)
                      <> normalized_intent (IntentModel.intent x)) ->
           dict_get d (normalized_intent (IntentModel.intent x))
           = Some (IntentScore.Build_t (score_or_0 (IntentModel.score x))))
    /\ length d <= length l
    /\ (forall (pre : list IntentModel.t) (x : IntentModel.t) (mid : list IntentModel.t)
               (y : IntentModel.t) (post : list IntentModel.t),
           l = pre ++ x :: mid ++ y :: post ->
           normalized_intent (IntentModel.intent x)
           = normalized_intent (IntentModel.intent y) ->
           length d < length l).
Proof.
  intros E N. exists (dict_of_items (map intent_item l) []).
  split; [apply get_intents_items; assumption|].
  split; [apply dict_of_items_nodup; constructor|].
  split; [|split; [|split]].
  - intros n. rewrite <- dict_get_in_keys, dict_of_items_keys.
    rewrite map_map. cbn [dict_get]. rewrite in_map_iff.
    split.
    + intros [H|(x & Hx & I)]; [congruence|]. exists x. split; assumption.
    + intros (x & I & Hx). right. exists x. split; assumption.
  - intros pre x post -> H.
    rewrite map_app. cbn [map]. unfold intent_item at 2.
    apply dict_of_items_last.
    rewrite map_map. intros I. apply in_map_iff in I as (y & Hy & I).
    exact (H y I Hy).
  - pose proof (dict_of_items_length (map intent_item l) []) as L.
    rewrite length_map in L. exact L.
  - intros pre x mid y post -> H.
    pose proof (dict_of_items_collision (map intent_item pre) (map intent_item mid)
                  (map intent_item post) []
                  (normalized_intent (IntentModel.intent x))
                  (IntentScore.Build_t (score_or_0 (IntentModel.score x)))
                  (IntentScore.Build_t (score_or_0 (IntentModel.score y)))) as L.
    rewrite !map_app. cbn [map]. rewrite map_app. cbn [map].
    unfold intent_item at 2 4. rewrite <- H.
    rewrite !length_app in *. cbn [length] in *. rewrite !length_app in *.
    cbn [length] in *. rewrite !length_map in L. exact L.
Qed.

(** The intents [a.b] and [a b] both become [a_b]: the score of the second is
    the one that is kept. *)
Lemma get_intents_last_wins_witness :
  exists d : dict IntentScore.t,
    get_intents
      {| intents := Some [IntentModel.Build_t "a.b" (Some (1 # 2)%Q);
                          IntentModel.Build_t "c" None;
                          IntentModel.Build_t "a b" (Some (1 # 4)%Q)];
         top_scoring_intent := None |} = Ok d
    /\ dict_get d "a_b" = Some (IntentScore.Build_t (1 # 4))
    /\ length d < 3.
Proof.
  edestruct (get_intents_last_wins
               {| intents := Some [IntentModel.Build_t "a.b" (Some (1 # 2)%Q);
                                   IntentModel.Build_t "c" None;
                                   IntentModel.Build_t "a b" (Some (1 # 4)%Q)];
                  top_scoring_intent := None |} _ eq_refl)
    as (d & E & _ & _ & Last & _ & Fewer).
  { discriminate. }
  exists d. split; [exact E|]. split.
  - apply (Last [IntentModel.Build_t "a.b" (Some (1 # 2)%Q); IntentModel.Build_t "c" None]
             (IntentModel.Build_t "a b" (Some (1 # 4)%Q)) []); [reflexivity|].
    intros y [].
  - apply (Fewer [] (IntentModel.Build_t "a.b" (Some (1 # 2)%Q))
             [IntentModel.Build_t "c" None]
             (IntentModel.Build_t "a b" (Some (1 # 4)%Q)) []); reflexivity.
Defined.

(** ** Coercion and the value of an entity *)

Section Values.
Context {rt : PyRuntime}.

(** C8.  [number] answers [None] to [None].  Any other value is turned into
    its string; when [int] reads the string the integer is the answer; when
    it does not and [float] reads it the float is the answer; and when
    neither reads it the [ValueError] of [float] reaches the caller. *)
Theorem number_coercion :
  number VNone = Ok VNone
  /\ (forall (v : pyval) (i : Z),
         v <> VNone -> int_of_str (py_str v) = Some i -> number v = Ok (VInt i))
  /\ (forall (v : pyval) (f : string),
         v <> VNone -> int_of_str (py_str v) = None ->
         float_of_str (py_str v) = Some f -> number v = Ok (VFloat f))
  /\ (forall v : pyval,
         v <> VNone -> int_of_str (py_str v) = None ->
         float_of_str (py_str v) = None -> number v = Raise ValueError).
Proof.
  assert (U : forall v, v <> VNone ->
                number v
                = try_except
                    (i <- of_option (int_of_str (py_str v)) ValueError ;; Ok (VInt i))
                    ValueError
                    (f <- of_option (float_of_str (py_str v)) ValueError ;;
                     Ok (VFloat f))).
  { intros v N. destruct v; try reflexivity. congruence. }
  split; [reflexivity|]. split; [|split].
  - intros v i N I. rewrite U, I by exact N. reflexivity.
  - intros v f N I F. rewrite U, I, F by exact N. reflexivity.
  - intros v N I F. rewrite U, I, F by exact N. reflexivity.
Qed.

Lemma getattr_unit_raises (v : pyval) : getattr_unit v = Raise AttributeError.
Proof. destruct v; reflexivity. Qed.

(** C1: what the code does.  For an entity of one of the four unit-bearing
    types that carries a resolution, [extract_entity_value] raises
    [AttributeError]: [resolution.unit] is an attribute lookup on the
    deserialised payload, and it is evaluated first. *)
Theorem extract_entity_value_units_raise
  (e : EntityModel) (ap : AdditionalProperties) (resolution : pyval) :
  additional_properties e = Some ap ->
  ap_resolution ap = Some resolution ->
  mem_string (type e) unit_types = true ->
  extract_entity_value e = Raise AttributeError.
Proof.
  intros A R T. unfold extract_entity_value. rewrite A, R.
  unfold mem_string, unit_types in T. cbn [existsb] in T.
  repeat (apply orb_true_iff in T as [T|T]); try discriminate;
    apply String.eqb_eq in T; rewrite T; cbn;
    rewrite getattr_unit_raises; reflexivity.
Qed.

End Values.

Lemma number_coercion_witness :
  @number sample_runtime (VStr "72") = Ok (VInt 72)
  /\ @number sample_runtime (VStr "7.5") = Ok (VFloat "7.5")
  /\ @number sample_runtime (VStr "seventy") = Raise ValueError.
Proof.
  destruct (@number_coercion sample_runtime) as (_ & I & F & E).
  split; [apply I; [discriminate|reflexivity]|].
  split; [apply F; [discriminate|reflexivity|reflexivity]|].
  apply E; [discriminate|reflexivity|reflexivity].
Defined.

(** The temperature of the specification: [{value: "72", unit: "Fahrenheit"}]. *)
Lemma extract_entity_value_units_raise_witness :
  @extract_entity_value sample_runtime
    {| entity := "72 degrees"; type := "builtin.temperature";
       start_index := 0; end_index := 9;
       additional_properties :=
         Some {| ap_role := None;
                 ap_resolution :=
                   Some (VDict [("value", VStr "72"); ("unit", VStr "Fahrenheit")]);
                 ap_score := None |} |}
  = Raise AttributeError.
Proof.
  eapply (@extract_entity_value_units_raise sample_runtime); reflexivity.
Defined.

(** ** Equality of values and of entities *)

Lemma pyval_eqb_eq (x y : pyval) : pyval_eqb x y = true <-> x = y.
Proof.
  revert y. induction x as [| b | z | r | s | l IH | d IH] using pyval_induction;
    intros y; destruct y; cbn [pyval_eqb]; try (split; [discriminate|congruence]).
  - split; reflexivity.
  - rewrite Bool.eqb_true_iff. split; congruence.
  - rewrite Z.eqb_eq. split; congruence.
  - rewrite String.eqb_eq. split; congruence.
  - rewrite String.eqb_eq. split; congruence.
  - revert l0. induction IH as [|a l Ha _ IHl]; intros [|b m]; cbn;
      try (split; [discriminate|congruence]).
    + split; reflexivity.
    + rewrite andb_true_iff, Ha.
      specialize (IHl m). rewrite IHl. split.
      * intros [-> E]. injection E as ->. reflexivity.
      * intros E. injection E as -> ->. split; reflexivity.
  - revert d0. induction IH as [|[k a] d Ha _ IHd]; intros [|[k' b] e]; cbn;
      try (split; [discriminate|congruence]).
    + split; reflexivity.
    + rewrite !andb_true_iff, String.eqb_eq. cbn in Ha. rewrite Ha.
      specialize (IHd e). rewrite IHd. split.
      * intros [[-> ->] E]. injection E as ->. reflexivity.
      * intros E. injection E as -> -> ->. repeat split; reflexivity.
Qed.

Lemma option_eqb_eq {A : Type} (eqb : A -> A -> bool) :
  (forall a b, eqb a b = true <-> a = b) ->
  forall x y, option_eqb eqb x y = true <-> x = y.
Proof.
  intros H [a|] [b|]; cbn; try (split; [discriminate|congruence]).
  - rewrite H. split; congruence.
  - split; reflexivity.
Qed.

Lemma additional_properties_eqb_eq (a b : AdditionalProperties) :
  additional_properties_eqb a b = true <-> a = b.
Proof.
  unfold additional_properties_eqb. rewrite !andb_true_iff.
  rewrite (option_eqb_eq String.eqb String.eqb_eq).
  rewrite !(option_eqb_eq pyval_eqb pyval_eqb_eq).
  destruct a, b; cbn. split.
  - intros [[-> ->] ->]. reflexivity.
  - intros E. injection E as -> -> ->. repeat split; reflexivity.
Qed.

Lemma entity_eqb_eq (a b : EntityModel) : entity_eqb a b = true <-> a = b.
Proof.
  unfold entity_eqb. rewrite !andb_true_iff, !String.eqb_eq, !Z.eqb_eq.
  rewrite (option_eqb_eq _ additional_properties_eqb_eq).
  destruct a, b; cbn. split.
  - intros [[[[-> ->] ->] ->] ->]. reflexivity.
  - intros E. injection E as -> -> -> -> ->. repeat split; reflexivity.
Qed.

Lemma mem_entity_in (e : EntityModel) (l : list EntityModel) :
  mem_entity e l = true <-> In e l.
Proof.
  unfold mem_entity. rewrite existsb_exists. split.
  - intros (x & I & E). apply entity_eqb_eq in E. subst x. exact I.
  - intros I. exists e. split; [exact I|]. apply entity_eqb_eq. reflexivity.
Qed.

Lemma mem_entity_not_in (e : EntityModel) (l : list EntityModel) :
  mem_entity e l = false <-> ~ In e l.
Proof.
  rewrite <- mem_entity_in. destruct (mem_entity e l); split; congruence.
Qed.

Lemma mem_string_in (s : string) (l : list string) :
  mem_string s l = true <-> In s l.
Proof.
  unfold mem_string. rewrite existsb_exists. split.
  - intros (x & I & E). apply String.eqb_eq in E. subst x. exact I.
  - intros I. exists s. split; [exact I|]. apply String.eqb_refl.
Qed.

(** ** Loops and accumulation *)

Lemma bind_ok {A B : Type} (c : result A) (k : A -> result B) (b : B) :
  bind c k = Ok b -> exists a, c = Ok a /\ k a = Ok b.
Proof. destruct c as [a|e]; cbn; [eauto|discriminate]. Qed.

Lemma for_each_app {S X : Type} (body : S -> X -> result S) (l1 l2 : list X) (st : S) :
  for_each body (l1 ++ l2) st = bind (for_each body l1 st) (for_each body l2).
Proof.
  revert st. induction l1 as [|x l1 IH]; intros st; cbn; [reflexivity|].
  destruct (body st x) as [st'|e]; cbn; [apply IH|reflexivity].
Qed.

Lemma values_under_cons (k k0 : string) (v0 : pyval) (items : list (string * pyval)) :
  values_under k ((k0, v0) :: items)
  = if String.eqb k0 k then v0 :: values_under k items else values_under k items.
Proof. unfold values_under. cbn. destruct (String.eqb k0 k); reflexivity. Qed.

Lemma add_property_ok (d d1 : dict pyval) (k : string) (v : pyval) :
  add_property d k v = Ok d1 ->
  (dict_get d k = None /\ d1 = dict_set d k (VList [v]))
  \/ (exists l, dict_get d k = Some (VList l) /\ d1 = dict_set d k (VList (l ++ [v]))).
Proof.
  unfold add_property. destruct (dict_get d k) as [[]|]; try discriminate.
  - intros E. injection E as <-. right. eauto.
  - intros E. injection E as <-. left. auto.
Qed.

Lemma add_property_appendable (d : dict pyval) (k : string) (v : pyval) :
  appendable d k <-> exists d1, add_property d k v = Ok d1.
Proof.
  unfold appendable, add_property.
  destruct (dict_get d k) as [[]|]; split; eauto; try tauto;
    intros [d1 E]; discriminate.
Qed.

Lemma add_property_other (d d1 : dict pyval) (k k' : string) (v : pyval) :
  add_property d k v = Ok d1 -> k <> k' -> dict_get d1 k' = dict_get d k'.
Proof.
  intros E N. apply add_property_ok in E as [[_ ->]|(l & _ & ->)];
    apply dict_get_set_other, N.
Qed.

Lemma add_property_is_list (d d1 : dict pyval) (k : string) (v : pyval) :
  add_property d k v = Ok d1 -> exists l, dict_get d1 k = Some (VList (l ++ [v])).
Proof.
  intros E. apply add_property_ok in E as [[_ ->]|(l & _ & ->)].
  - exists []. apply dict_get_set_same.
  - exists l. apply dict_get_set_same.
Qed.

Lemma add_property_keeps_appendable (d d1 : dict pyval) (k k' : string) (v : pyval) :
  add_property d k v = Ok d1 -> appendable d k' -> appendable d1 k'.
Proof.
  intros E A. unfold appendable. destruct (String.eqb_spec k k') as [<-|N].
  - destruct (add_property_is_list d d1 k v E) as [l ->]. exact I.
  - rewrite (add_property_other d d1 k k' v E N). exact A.
Qed.

Lemma add_property_accumulated (d d1 : dict pyval) (k k' : string) (v : pyval)
  (l : list pyval) :
  add_property d k v = Ok d1 ->
  accumulated (dict_get d1 k') l
  = accumulated (dict_get d k') (if String.eqb k k' then v :: l else l).
Proof.
  intros E. destruct (String.eqb_spec k k') as [<-|N].
  - apply add_property_ok in E as [[G ->]|(l0 & G & ->)];
      rewrite dict_get_set_same, G; cbn.
    + destruct l; reflexivity.
    + destruct l; [reflexivity|]. cbn [accumulated].
      rewrite <- app_assoc. reflexivity.
  - rewrite (add_property_other d d1 k k' v E N). reflexivity.
Qed.

Lemma add_all_cons (k : string) (v : pyval) (items : list (string * pyval))
  (d : dict pyval) :
  add_all ((k, v) :: items) d = bind (add_property d k v) (add_all items).
Proof. reflexivity. Qed.

(** What the mapping holds under every key after the items went in. *)
Lemma add_all_get (items : list (string * pyval)) (d d' : dict pyval) :
  add_all items d = Ok d' ->
  forall k, dict_get d' k = accumulated (dict_get d k) (values_under k items).
Proof.
  revert d. induction items as [|[k0 v0] items IH]; intros d E k.
  - cbn in E. injection E as <-. reflexivity.
  - rewrite add_all_cons in E. apply bind_ok in E as (d1 & E1 & E2).
    rewrite (IH d1 E2 k), values_under_cons.
    apply add_property_accumulated, E1.
Qed.

Lemma add_all_appendable (items : list (string * pyval)) (d d' : dict pyval) :
  add_all items d = Ok d' ->
  forall k, values_under k items <> [] -> appendable d k.
Proof.
  revert d. induction items as [|[k0 v0] items IH]; intros d E k N.
  - cbn in N. congruence.
  - rewrite add_all_cons in E. apply bind_ok in E as (d1 & E1 & E2).
    rewrite values_under_cons in N.
    destruct (String.eqb_spec k0 k) as [EQ|D].
    + subst k0. apply (add_property_appendable d k v0). eauto.
    + specialize (IH d1 E2 k N). unfold appendable in *.
      rewrite (add_property_other d d1 k0 k v0 E1 D) in IH. exact IH.
Qed.

Lemma add_all_total (items : list (string * pyval)) (d : dict pyval) :
  (forall k, In k (map fst items) -> appendable d k) ->
  exists d', add_all items d = Ok d'.
Proof.
  revert d. induction items as [|[k0 v0] items IH]; intros d A.
  - exists d. reflexivity.
  - rewrite add_all_cons.
    destruct (proj1 (add_property_appendable d k0 v0)) as [d1 E1].
    { apply A. left. reflexivity. }
    rewrite E1. cbn [bind]. apply IH. intros k I.
    apply (add_property_keeps_appendable d d1 k0 k v0 E1).
    apply A. right. exact I.
Qed.

Lemma values_under_in (k : string) (v : pyval) (items : list (string * pyval)) :
  In v (values_under k items) <-> In (k, v) items.
Proof.
  unfold values_under. rewrite in_map_iff. split.
  - intros ([k0 v0] & <- & I). apply filter_In in I as [I E]. cbn in *.
    apply String.eqb_eq in E. subst k0. exact I.
  - intros I. exists (k, v). split; [reflexivity|]. apply filter_In.
    split; [exact I|]. apply String.eqb_refl.
Qed.

Lemma accumulated_nonempty (o : option pyval) (l : list pyval) (d : dict pyval)
  (k : string) :
  l <> [] -> o = dict_get d k -> appendable d k ->
  exists l0, accumulated o l = Some (VList (l0 ++ l)).
Proof.
  intros N -> A. unfold appendable in A. unfold accumulated.
  destruct l as [|x l]; [congruence|].
  destruct (dict_get d k) as [[]|]; try contradiction.
  - eexists. reflexivity.
  - exists []. reflexivity.
Qed.

(** ** The flat pass *)

Section FlatPass.
Context {rt : PyRuntime}.

Lemma flat_step_plain (d : dict pyval) (e : EntityModel) :
  flat_step [] false d e
  = (v <- extract_entity_value e ;;
     add_property d (extract_normalized_entity_name e) v).
Proof.
  unfold flat_step. cbn [mem_string existsb].
  destruct (extract_entity_value e) as [v|x]; cbn [bind]; [|reflexivity].
  destruct (add_property d (extract_normalized_entity_name e) v); reflexivity.
Qed.

Lemma flat_step_verbose (d : dict pyval) (e : EntityModel) :
  flat_step [] true d e
  = (v <- extract_entity_value e ;;
     d1 <- add_property d (extract_normalized_entity_name e) v ;;
     add_property_at d1 _metadata_key (extract_normalized_entity_name e)
       (extract_entity_metadata e)).
Proof. reflexivity. Qed.

Lemma flat_plain_total (es : list EntityModel) (vs : list pyval) (d : dict pyval) :
  Forall2 (fun e v => extract_entity_value e = Ok v) es vs ->
  for_each (flat_step [] false) es d = add_all (combine (names es) vs) d.
Proof.
  intros H. revert d. induction H as [|e v es vs E _ IH]; intros d; [reflexivity|].
  cbn [for_each names map combine]. rewrite add_all_cons, flat_step_plain, E.
  cbn [bind].
  destruct (add_property d (extract_normalized_entity_name e) v); cbn [bind];
    [apply IH|reflexivity].
Qed.

Lemma flat_plain_inv (es : list EntityModel) (d d' : dict pyval) :
  for_each (flat_step [] false) es d = Ok d' ->
  exists vs, Forall2 (fun e v => extract_entity_value e = Ok v) es vs
             /\ add_all (combine (names es) vs) d = Ok d'.
Proof.
  revert d. induction es as [|e es IH]; intros d E.
  - exists []. split; [constructor|exact E].
  - cbn [for_each] in E. apply bind_ok in E as (d1 & E1 & E2).
    rewrite flat_step_plain in E1. apply bind_ok in E1 as (v & V & A).
    destruct (IH d1 E2) as (vs & F & G).
    exists (v :: vs). split; [constructor; assumption|].
    cbn [names map combine]. rewrite add_all_cons, A. exact G.
Qed.

Lemma add_property_at_ok (d d2 : dict pyval) (at_key k : string) (val : result pyval) :
  add_property_at d at_key k val = Ok d2 ->
  exists inner v inner',
    dict_get d at_key = Some (VDict inner) /\ val = Ok v
    /\ add_property inner k v = Ok inner'
    /\ d2 = dict_set d at_key (VDict inner').
Proof.
  unfold add_property_at. intros E.
  apply bind_ok in E as (x & G & E). apply bind_ok in E as (v & V & E).
  destruct (dict_get d at_key) as [y|]; [|discriminate].
  injection G as ->.
  destruct x; try discriminate.
  apply bind_ok in E as (inner' & A & E). injection E as <-.
  eauto 8.
Qed.

Lemma add_property_metadata_key (d : dict pyval) (m : dict pyval) (v : pyval)
  (d1 : dict pyval) (k : string) :
  dict_get d _metadata_key = Some (VDict m) ->
  add_property d k v = Ok d1 -> k <> _metadata_key.
Proof.
  intros G E ->. unfold add_property in E. rewrite G in E. discriminate.
Qed.

Lemma flat_verbose_inv (es : list EntityModel) (d m d' : dict pyval) :
  dict_get d _metadata_key = Some (VDict m) ->
  for_each (flat_step [] true) es d = Ok d' ->
  exists (vs ms : list pyval) (m' : dict pyval),
    Forall2 (fun e v => extract_entity_value e = Ok v) es vs
    /\ Forall2 (fun e x => extract_entity_metadata e = Ok x) es ms
    /\ Forall (fun e => extract_normalized_entity_name e <> _metadata_key) es
    /\ dict_get d' _metadata_key = Some (VDict m')
    /\ add_all (combine (names es) ms) m = Ok m'
    /\ (forall k, k <> _metadata_key ->
                  dict_get d' k
                  = accumulated (dict_get d k) (values_under k (combine (names es) vs)))
    /\ (forall k, k <> _metadata_key ->
                  values_under k (combine (names es) vs) <> [] -> appendable d k).
Proof.
  revert d m. induction es as [|e es IH]; intros d m G E.
  - cbn in E. injection E as <-. exists [], [], m.
    repeat split; try constructor; try assumption.
    cbn. congruence.
  - cbn [for_each] in E. apply bind_ok in E as (d2 & E1 & E2).
    rewrite flat_step_verbose in E1.
    apply bind_ok in E1 as (v & V & E1). apply bind_ok in E1 as (d1 & A & E1).
    pose proof (add_property_metadata_key d m v d1 _ G A) as N.
    assert (G1 : dict_get d1 _metadata_key = Some (VDict m)).
    { rewrite (add_property_other d d1 _ _ v A N). exact G. }
    apply add_property_at_ok in E1 as (inner & x & m1 & G1' & X & A1 & ->).
    rewrite G1 in G1'. injection G1' as <-.
    destruct (IH (dict_set d1 _metadata_key (VDict m1)) m1) as
      (vs & ms & m' & FV & FM & FN & G' & AM & L & AP).
    { apply dict_get_set_same. }
    { exact E2. }
    exists (v :: vs), (x :: ms), m'.
    split; [constructor; assumption|]. split; [constructor; assumption|].
    split; [constructor; assumption|]. split; [exact G'|].
    split; [cbn [names map combine]; rewrite add_all_cons, A1; exact AM|].
    split.
    + intros k K. rewrite (L k K).
      rewrite dict_get_set_other by congruence.
      cbn [names map combine]. rewrite values_under_cons.
      apply add_property_accumulated, A.
    + intros k K. cbn [names map combine]. rewrite values_under_cons.
      destruct (String.eqb_spec (extract_normalized_entity_name e) k) as [EQ|D].
      * intros _. rewrite <- EQ. apply (add_property_appendable d _ v). eauto.
      * intros NE. specialize (AP k K NE). unfold appendable in *.
        rewrite dict_get_set_other in AP by congruence.
        rewrite (add_property_other d d1 _ k v A D) in AP. exact AP.
Qed.

Lemma flat_verbose_total (es : list EntityModel) (vs ms : list pyval)
  (d m : dict pyval) :
  Forall2 (fun e v => extract_entity_value e = Ok v) es vs ->
  Forall2 (fun e x => extract_entity_metadata e = Ok x) es ms ->
  Forall (fun e => extract_normalized_entity_name e <> _metadata_key) es ->
  dict_get d _metadata_key = Some (VDict m) ->
  (forall k, In k (names es) -> appendable d k) ->
  (forall k, In k (names es) -> appendable m k) ->
  exists d', for_each (flat_step [] true) es d = Ok d'.
Proof.
  intros FV. revert ms d m.
  induction FV as [|e v es vs V _ IH]; intros ms d m FM FN G AD AM.
  - exists d. reflexivity.
  - inversion FM as [|? x ? ms' X FM']; subst.
    inversion FN as [|? ? N FN']; subst.
    cbn [for_each]. rewrite flat_step_verbose, V. cbn [bind].
    destruct (proj1 (add_property_appendable d (extract_normalized_entity_name e) v))
      as [d1 A]; [apply AD; left; reflexivity|].
    rewrite A. cbn [bind].
    assert (G1 : dict_get d1 _metadata_key = Some (VDict m)).
    { rewrite (add_property_other d d1 _ _ v A N). exact G. }
    destruct (proj1 (add_property_appendable m (extract_normalized_entity_name e) x))
      as [m1 A1]; [apply AM; left; reflexivity|].
    unfold add_property_at. rewrite G1, X. cbn [of_option bind]. rewrite A1.
    cbn [bind].
    apply (IH ms' _ m1 FM' FN').
    + apply dict_get_set_same.
    + intros k I. unfold appendable.
      assert (K : k <> _metadata_key).
      { intros ->. unfold names in I. apply in_map_iff in I as (e' & Q & I).
        rewrite Forall_forall in FN'. exact (FN' e' I Q). }
      rewrite dict_get_set_other by congruence.
      apply (add_property_keeps_appendable d d1 _ k v A).
      apply AD. right. exact I.
    + intros k I. apply (add_property_keeps_appendable m m1 _ k x A1).
      apply AM. right. exact I.
Qed.

End FlatPass.

(** ** Entities without composites *)

Section NoComposites.
Context {rt : PyRuntime}.

Lemma extract_without_composites (es : list EntityModel)
  (cs : option (list CompositeEntityModel)) (verbose : bool) :
  cs = None \/ cs = Some [] ->
  extract_entities_and_metadata es cs verbose
  = for_each (flat_step [] verbose) es
      (if verbose then [(_metadata_key, VDict [])] else []).
Proof. intros [->| ->]; destruct verbose; reflexivity. Qed.

Lemma add_property_absent (d : dict pyval) (k : string) (v : pyval) :
  dict_get d k = None -> add_property d k v = Ok (d ++ [(k, VList [v])]).
Proof.
  intros G. unfold add_property. rewrite G, dict_set_absent by exact G. reflexivity.
Qed.

Lemma add_property_present (d : dict pyval) (k : string) (l : list pyval) (v : pyval) :
  dict_get d k = Some (VList l) ->
  add_property d k v = Ok (dict_set d k (VList (l ++ [v]))).
Proof. intros G. unfold add_property. rewrite G. reflexivity. Qed.

(** What the flat pass leaves in a mapping that held nothing before. *)
Lemma flat_pass_initial (es : list EntityModel) (verbose : bool) (d : dict pyval) :
  for_each (flat_step [] verbose) es (initial_mapping verbose) = Ok d ->
  exists vs : list pyval,
    Forall2 (fun e v => extract_entity_value e = Ok v) es vs
    /\ (forall k, verbose = false \/ k <> _metadata_key ->
                  dict_get d k
                  = match values_under k (combine (names es) vs) with
                    | [] => None
                    | l => Some (VList l)
                    end)
    /\ (verbose = true ->
        exists (ms : list pyval) (m : dict pyval),
          Forall2 (fun e x => extract_entity_metadata e = Ok x) es ms
          /\ Forall (fun e => extract_normalized_entity_name e <> _metadata_key) es
          /\ dict_get d _metadata_key = Some (VDict m)
          /\ forall k, dict_get m k
                       = match values_under k (combine (names es) ms) with
                         | [] => None
                         | l => Some (VList l)
                         end).
Proof.
  intros E. destruct verbose.
  - destruct (flat_verbose_inv es [(_metadata_key, VDict [])] [] d eq_refl E)
      as (vs & ms & m & FV & FM & FN & G & AM & L & _).
    exists vs. split; [exact FV|]. split.
    + intros k [K|K]; [discriminate|]. rewrite (L k K).
      assert (Z : dict_get [(_metadata_key, VDict [])] k = None).
      { cbn [dict_get]. destruct (String.eqb_spec _metadata_key k); congruence. }
      rewrite Z. destruct (values_under k (combine (names es) vs)); reflexivity.
    + intros _. exists ms, m. split; [exact FM|]. split; [exact FN|].
      split; [exact G|].
      intros k. rewrite (add_all_get _ _ _ AM k). cbn [dict_get].
      destruct (values_under k (combine (names es) ms)); reflexivity.
  - destruct (flat_plain_inv es [] d E) as (vs & FV & A).
    exists vs. split; [exact FV|]. split; [|discriminate].
    intros k _. rewrite (add_all_get _ _ _ A k). cbn [dict_get].
    destruct (values_under k (combine (names es) vs)); reflexivity.
Qed.

(** C5, as amended.  [add_property] puts a singleton list under an absent key
    and appends to the list under a present one.  Without composites, when
    [extract_entities_and_metadata] returns a mapping, every entity has a
    value, and every key other than the metadata key [$instance] maps to the
    list of the values of the entities with that normalised name, one value
    per entity, in the order of the input list; no such key maps to an empty
    list or to a bare value.  In verbose mode [$instance] maps to a mapping,
    built the same way from the metadata records.  The function does return a
    mapping when every entity has a value and, in verbose mode, a metadata
    record and a name other than [$instance]. *)
Theorem flat_entities_accumulate :
  (forall (d : dict pyval) (k : string) (v : pyval),
      dict_get d k = None -> add_property d k v = Ok (d ++ [(k, VList [v])]))
  /\ (forall (d : dict pyval) (k : string) (l : list pyval) (v : pyval),
         dict_get d k = Some (VList l) ->
         add_property d k v = Ok (dict_set d k (VList (l ++ [v]))))
  /\ (forall (es : list EntityModel) (cs : option (list CompositeEntityModel))
             (verbose : bool) (d : dict pyval),
         cs = None \/ cs = Some [] ->
         extract_entities_and_metadata es cs verbose = Ok d ->
         exists vs : list pyval,
           Forall2 (fun e v => extract_entity_value e = Ok v) es vs
           /\ (forall k, verbose = false \/ k <> _metadata_key ->
                         dict_get d k
                         = match values_under k (combine (names es) vs) with
                           | [] => None
                           | l => Some (VList l)
                           end)
           /\ (verbose = true ->
               exists (ms : list pyval) (m : dict pyval),
                 Forall2 (fun e x => extract_entity_metadata e = Ok x) es ms
                 /\ dict_get d _metadata_key = Some (VDict m)
                 /\ forall k, dict_get m k
                              = match values_under k (combine (names es) ms) with
                                | [] => None
                                | l => Some (VList l)
                                end))
  /\ (forall (es : list EntityModel) (cs : option (list CompositeEntityModel))
             (vs : list pyval),
         cs = None \/ cs = Some [] ->
         Forall2 (fun e v => extract_entity_value e = Ok v) es vs ->
         exists d, extract_entities_and_metadata es cs false = Ok d)
  /\ (forall (es : list EntityModel) (cs : option (list CompositeEntityModel))
             (vs ms : list pyval),
         cs = None \/ cs = Some [] ->
         Forall2 (fun e v => extract_entity_value e = Ok v) es vs ->
         Forall2 (fun e x => extract_entity_metadata e = Ok x) es ms ->
         Forall (fun e => extract_normalized_entity_name e <> _metadata_key) es ->
         exists d, extract_entities_and_metadata es cs true = Ok d).
Proof.
  split; [exact add_property_absent|]. split; [exact add_property_present|].
  split; [|split].
  - intros es cs verbose d C E.
    rewrite (extract_without_composites es cs verbose C) in E.
    destruct (flat_pass_initial es verbose d E) as (vs & FV & L & M).
    exists vs. split; [exact FV|]. split; [exact L|].
    intros V. destruct (M V) as (ms & m & FM & _ & G & LM). eauto.
  - intros es cs vs C FV.
    rewrite (extract_without_composites es cs false C).
    rewrite (flat_plain_total es vs [] FV).
    apply add_all_total. intros k _. exact I.
  - intros es cs vs ms C FV FM FN.
    rewrite (extract_without_composites es cs true C).
    apply (flat_verbose_total es vs ms [(_metadata_key, VDict [])] [] FV FM FN
             eq_refl).
    + intros k I. unfold appendable.
      assert (K : k <> _metadata_key).
      { intros ->. unfold names in I. apply in_map_iff in I as (e' & Q & I).
        rewrite Forall_forall in FN. exact (FN e' I Q). }
      cbn [dict_get]. destruct (String.eqb_spec _metadata_key k); [congruence|].
      exact Logic.I.
    + intros k _. exact I.
Qed.

End NoComposites.

(** Two cities with an airline between them, plain and verbose. *)
Lemma flat_entities_accumulate_witness :
  (exists d : dict pyval,
      @extract_entities_and_metadata sample_runtime
        [plain_entity "city" "rome" 8 11; plain_entity "airline" "klm" 16 18;
         plain_entity "city" "oslo" 23 26] None false
      = Ok d
      /\ dict_get d "city" = Some (VList [VStr "rome"; VStr "oslo"])
      /\ dict_get d "airline" = Some (VList [VStr "klm"])
      /\ dict_get d "seats" = None)
  /\ (exists d : dict pyval,
         @extract_entities_and_metadata sample_runtime
           [plain_entity "city" "rome" 8 11; plain_entity "airline" "klm" 16 18;
            plain_entity "city" "oslo" 23 26] (Some []) true
         = Ok d).
Proof.
  destruct (@flat_entities_accumulate sample_runtime) as (_ & _ & Inv & Tot & TotV).
  split.
  - destruct (Tot [plain_entity "city" "rome" 8 11; plain_entity "airline" "klm" 16 18;
                   plain_entity "city" "oslo" 23 26]
                None [VStr "rome"; VStr "klm"; VStr "oslo"]) as [d E].
    { left. reflexivity. }
    { repeat constructor. }
    exists d. split; [exact E|].
    destruct (Inv _ None false d (or_introl eq_refl) E) as (vs & FV & L & _).
    assert (vs = [VStr "rome"; VStr "klm"; VStr "oslo"]) as ->.
    { inversion FV as [|? ? ? ? E1 FV1]; subst.
      inversion FV1 as [|? ? ? ? E2 FV2]; subst.
      inversion FV2 as [|? ? ? ? E3 FV3]; subst.
      inversion FV3; subst.
      cbn in E1, E2, E3. congruence. }
    repeat split; rewrite L by (left; reflexivity); reflexivity.
  - apply (TotV [plain_entity "city" "rome" 8 11; plain_entity "airline" "klm" 16 18;
                 plain_entity "city" "oslo" 23 26]
             (Some []) [VStr "rome"; VStr "klm"; VStr "oslo"]
             [VDict [("startIndex", VInt 8); ("endIndex", VInt 12);
                     ("text", VStr "rome"); ("type", VStr "city")];
              VDict [("startIndex", VInt 16); ("endIndex", VInt 19);
                     ("text", VStr "klm"); ("type", VStr "airline")];
              VDict [("startIndex", VInt 23); ("endIndex", VInt 27);
                     ("text", VStr "oslo"); ("type", VStr "city")]]).
    + right. reflexivity.
    + repeat constructor.
    + repeat constructor.
    + repeat constructor; discriminate.
Defined.

(** C5 as stated fails in verbose mode: with no entity at all the mapping
    returned is [{"$instance": {}}], whose only key maps to an empty dict. *)
Lemma flat_entities_metadata_key_is_no_list :
  ~ (forall (es : list EntityModel) (verbose : bool) (d : dict pyval),
       @extract_entities_and_metadata sample_runtime es None verbose = Ok d ->
       forall (k : string) (v : pyval),
         dict_get d k = Some v -> exists x l, v = VList (x :: l)).
Proof.
  intros H.
  destruct (H [] true [(_metadata_key, VDict [])] eq_refl _metadata_key (VDict [])
              eq_refl) as (x & l & E).
  discriminate E.
Qed.

(** ** Composite descriptors *)

Section Composites.
Context {rt : PyRuntime}.

Lemma find_parent_none (ce : CompositeEntityModel) (es : list EntityModel) :
  (forall e, In e es -> ~ (type e = parent_type ce /\ entity e = value ce)) ->
  find (is_parent ce) es = None.
Proof.
  intros H. destruct (find (is_parent ce) es) as [p|] eqn:F; [|reflexivity].
  apply find_some in F as [I T]. unfold is_parent in T.
  apply andb_true_iff in T as [T1 T2].
  apply String.eqb_eq in T1, T2. exfalso. exact (H p I (conj T1 T2)).
Qed.

Lemma populate_unresolved (ce : CompositeEntityModel) (es : list EntityModel)
  (d : dict pyval) (verbose : bool) :
  find (is_parent ce) es = None ->
  populate_composite_entity_model ce es d verbose = Ok (es, d).
Proof.
  intros F. unfold populate_composite_entity_model.
  change (fun e : EntityModel =>
            String.eqb (type e) (parent_type ce) && String.eqb (entity e) (value ce))
    with (is_parent ce).
  rewrite F. reflexivity.
Qed.

(** C7.  When no entity of the working list has the descriptor's parent type
    and the descriptor's value as its text, [populate_composite_entity_model]
    raises nothing and returns the working list and the mapping as they
    were. *)
Theorem populate_without_parent (ce : CompositeEntityModel) (es : list EntityModel)
  (entities_and_metadata : dict pyval) (verbose : bool) :
  (forall e, In e es -> ~ (type e = parent_type ce /\ entity e = value ce)) ->
  populate_composite_entity_model ce es entities_and_metadata verbose
  = Ok (es, entities_and_metadata).
Proof.
  intros H. apply populate_unresolved, find_parent_none, H.
Qed.

Lemma flat_skip (types : list string) (verbose : bool) (es : list EntityModel)
  (d : dict pyval) :
  for_each (flat_step types verbose) es d
  = for_each (flat_step [] verbose) (filter (not_of_types types) es) d.
Proof.
  revert d. induction es as [|e es IH]; intros d; [reflexivity|].
  cbn [for_each filter]. unfold not_of_types at 1.
  destruct (mem_string (type e) types) eqn:M; cbn [negb].
  - unfold flat_step at 1. rewrite M. cbn [bind]. apply IH.
  - cbn [for_each].
    assert (S : flat_step types verbose d e = flat_step [] verbose d e).
    { unfold flat_step. rewrite M. reflexivity. }
    rewrite S. destruct (flat_step [] verbose d e); cbn [bind]; [apply IH|reflexivity].
Qed.

Lemma filter_all {A : Type} (f : A -> bool) (l : list A) :
  (forall a, In a l -> f a = true) -> filter f l = l.
Proof.
  induction l as [|a l IH]; intros H; [reflexivity|]. cbn.
  rewrite (H a (or_introl eq_refl)), IH; [reflexivity|].
  intros b I. apply H. right. exact I.
Qed.

Lemma extract_two_passes (es : list EntityModel) (cs : list CompositeEntityModel)
  (verbose : bool) :
  extract_entities_and_metadata es (Some cs) verbose
  = ('(current, entities_and_metadata) <-
       resolve_composites cs es (initial_mapping verbose) verbose ;;
     for_each (flat_step (map parent_type cs) verbose) current
       entities_and_metadata).
Proof.
  unfold extract_entities_and_metadata, resolve_composites.
  destruct cs as [|c cs].
  - destruct verbose; reflexivity.
  - replace (if verbose then dict_set [] _metadata_key (VDict []) else [])
      with (initial_mapping verbose) by (destruct verbose; reflexivity).
    destruct (for_each _ (c :: cs) (es, initial_mapping verbose)) as [[cur d]|x];
      reflexivity.
Qed.

Lemma resolve_composites_unresolved (cs : list CompositeEntityModel)
  (es : list EntityModel) (d : dict pyval) (verbose : bool) :
  (forall ce e, In ce cs -> In e es ->
                ~ (type e = parent_type ce /\ entity e = value ce)) ->
  resolve_composites cs es d verbose = Ok (es, d).
Proof.
  unfold resolve_composites. induction cs as [|c cs IH]; intros H; [reflexivity|].
  cbn [for_each]. rewrite populate_unresolved.
  - cbn [bind]. apply IH. intros ce e I. apply H. right. exact I.
  - apply find_parent_none. intros e. apply H. left. reflexivity.
Qed.

(** C4.  The flat pass runs over the entities the composite pass left, with
    the entities whose type is the parent type of any descriptor of the whole
    list taken out.  So when no descriptor finds its parent entity, and no
    entity is consumed, the result is the one for the entities that are of no
    parent type, with no composites at all. *)
Theorem parent_types_excluded (es : list EntityModel) (cs : list CompositeEntityModel)
  (verbose : bool) :
  extract_entities_and_metadata es (Some cs) verbose
  = ('(current, entities_and_metadata) <-
       resolve_composites cs es (initial_mapping verbose) verbose ;;
     for_each (flat_step [] verbose)
       (filter (not_of_types (map parent_type cs)) current)
       entities_and_metadata)
  /\ ((forall ce e, In ce cs -> In e es ->
                    ~ (type e = parent_type ce /\ entity e = value ce)) ->
      extract_entities_and_metadata es (Some cs) verbose
      = extract_entities_and_metadata
          (filter (not_of_types (map parent_type cs)) es) None verbose).
Proof.
  split.
  - rewrite extract_two_passes.
    destruct (resolve_composites cs es (initial_mapping verbose) verbose)
      as [[cur d]|x]; cbn [bind]; [apply flat_skip|reflexivity].
  - intros H. rewrite extract_two_passes.
    rewrite (resolve_composites_unresolved cs es _ verbose H). cbn [bind].
    rewrite flat_skip.
    rewrite (extract_without_composites _ None verbose (or_introl eq_refl)).
    reflexivity.
Qed.

End Composites.

(** A [roomBooking] entity whose text no descriptor has: it is in no
    composite, and it is not in the flat output either. *)
Lemma parent_types_excluded_witness :
  @extract_entities_and_metadata sample_runtime
    [plain_entity "roomBooking" "a suite in rome" 0 14; plain_entity "city" "rome" 11 14]
    (Some [{| parent_type := "roomBooking"; value := "a room in oslo";
              children := [Child.Build_t "city"] |}])
    false
  = Ok [("city", VList [VStr "rome"])].
Proof.
  destruct (@parent_types_excluded sample_runtime
              [plain_entity "roomBooking" "a suite in rome" 0 14;
               plain_entity "city" "rome" 11 14]
              [{| parent_type := "roomBooking"; value := "a room in oslo";
                  children := [Child.Build_t "city"] |}]
              false) as [_ H].
  rewrite H; [reflexivity|].
  intros ce e [<-|[]] [<-|[<-|[]]]; cbn; intros [A B]; discriminate.
Defined.

Lemma populate_without_parent_witness :
  @populate_composite_entity_model sample_runtime
    {| parent_type := "roomBooking"; value := "a room in oslo";
       children := [Child.Build_t "city"] |}
    [plain_entity "roomBooking" "a suite in rome" 0 14; plain_entity "city" "rome" 11 14]
    [("seats", VList [VInt 2])] true
  = Ok ([plain_entity "roomBooking" "a suite in rome" 0 14;
         plain_entity "city" "rome" 11 14],
        [("seats", VList [VInt 2])]).
Proof.
  apply (@populate_without_parent sample_runtime).
  intros e [<-|[<-|[]]]; cbn; intros [A B]; discriminate.
Defined.

(** ** The children of a composite *)

Lemma distinct_from_in (seen l : list EntityModel) (e : EntityModel) :
  In e (distinct_from seen l) <-> In e l /\ ~ In e seen.
Proof.
  revert seen. induction l as [|a l IH]; intros seen; cbn [distinct_from In].
  - tauto.
  - destruct (mem_entity a seen) eqn:M.
    + apply mem_entity_in in M. rewrite IH. split.
      * tauto.
      * intros [[<-|I] N]; [contradiction|tauto].
    + apply mem_entity_not_in in M. cbn [In]. rewrite IH, in_app_iff. cbn [In].
      split.
      * intros [<-|[I N]]; [tauto|]. tauto.
      * intros [[<-|I] N]; [tauto|].
        destruct (entity_eqb a e) eqn:Q.
        -- apply entity_eqb_eq in Q. tauto.
        -- right. split; [exact I|]. intros [S|[<-|[]]]; [tauto|].
           assert (entity_eqb a a = true) by (apply entity_eqb_eq; reflexivity).
           congruence.
Qed.

Lemma distinct_from_nodup (seen l : list EntityModel) : NoDup (distinct_from seen l).
Proof.
  revert seen. induction l as [|a l IH]; intros seen; cbn [distinct_from].
  - constructor.
  - destruct (mem_entity a seen); [apply IH|].
    constructor; [|apply IH].
    rewrite distinct_from_in, in_app_iff. cbn. tauto.
Qed.

Lemma distinct_from_app (seen l1 l2 : list EntityModel) :
  distinct_from seen (l1 ++ l2)
  = distinct_from seen l1 ++ distinct_from (seen ++ distinct_from seen l1) l2.
Proof.
  revert seen. induction l1 as [|a l1 IH]; intros seen; cbn [distinct_from app].
  - rewrite app_nil_r. reflexivity.
  - destruct (mem_entity a seen); [apply IH|].
    cbn [app]. rewrite IH, <- app_assoc. reflexivity.
Qed.

Lemma child_candidates_in (parent : EntityModel) (cs : list Child.t)
  (es : list EntityModel) (e : EntityModel) :
  In e (child_candidates parent cs es) <-> In e es /\ is_child parent cs e = true.
Proof.
  unfold child_candidates, is_child. rewrite in_flat_map, andb_true_iff, existsb_exists.
  split.
  - intros (c & I & F). apply filter_In in F as [F E].
    unfold expected_child in E. apply andb_true_iff in E as [E1 E2]. eauto.
  - intros (I & (c & Ic & E1) & E2). exists c. split; [exact Ic|].
    apply filter_In. split; [exact I|]. unfold expected_child.
    rewrite E1, E2. reflexivity.
Qed.

Lemma is_child_spec (parent : EntityModel) (cs : list Child.t) (e : EntityModel) :
  is_child parent cs e = true
  <-> (exists child, In child cs /\ Child.type child = type e)
      /\ (start_index parent <= start_index e)%Z
      /\ (end_index e <= end_index parent)%Z.
Proof.
  unfold is_child, composite_contains_entity.
  rewrite !andb_true_iff, existsb_exists, !Z.leb_le.
  split.
  - intros [(c & I & E) H]. apply String.eqb_eq in E. eauto.
  - intros [(c & I & E) H]. split; [|exact H]. exists c. split; [exact I|].
    apply String.eqb_eq, E.
Qed.

Section Children.
Context {rt : PyRuntime}.

Lemma child_step_eq (parent : EntityModel) (verbose : bool) (child : Child.t)
  (covered : list EntityModel) (ch : dict pyval) (e : EntityModel) :
  child_step parent verbose child (covered, ch) e
  = if mem_entity e covered then Ok (covered, ch)
    else if expected_child parent child e
         then ch' <- flat_step [] verbose ch e ;; Ok (covered ++ [e], ch')
         else Ok (covered, ch).
Proof.
  unfold child_step, expected_child, flat_step. cbn [mem_string existsb].
  destruct (mem_entity e covered); [reflexivity|].
  destruct (String.eqb (Child.type child) (type e)); [|reflexivity].
  destruct (composite_contains_entity parent e); [|reflexivity]. cbn [negb orb andb].
  destruct (extract_entity_value e) as [v|x]; cbn [bind]; [|reflexivity].
  destruct (add_property ch (extract_normalized_entity_name e) v) as [ch1|x];
    cbn [bind]; [|reflexivity].
  destruct verbose; reflexivity.
Qed.

(** The loop over the entities for one child: the flat pass over the
    entities it accepts. *)
Lemma child_loop (parent : EntityModel) (verbose : bool) (child : Child.t)
  (es covered : list EntityModel) (ch : dict pyval) :
  for_each (child_step parent verbose child) es (covered, ch)
  = (ch' <- for_each (flat_step [] verbose)
              (distinct_from covered (filter (expected_child parent child) es)) ch ;;
     Ok (covered ++ distinct_from covered (filter (expected_child parent child) es),
         ch')).
Proof.
  revert covered ch. induction es as [|e es IH]; intros covered ch.
  - cbn. rewrite app_nil_r. reflexivity.
  - cbn [for_each filter]. rewrite child_step_eq.
    destruct (expected_child parent child e) eqn:X.
    + cbn [distinct_from]. destruct (mem_entity e covered) eqn:M.
      * cbn [bind]. apply IH.
      * cbn [for_each].
        destruct (flat_step [] verbose ch e) as [ch1|x]; cbn [bind]; [|reflexivity].
        rewrite IH, <- app_assoc. reflexivity.
    + destruct (mem_entity e covered); cbn [bind]; apply IH.
Qed.

(** The two loops: the flat pass over the accepted entities, each once. *)
Lemma children_loops (parent : EntityModel) (verbose : bool) (cs : list Child.t)
  (es covered : list EntityModel) (ch : dict pyval) :
  for_each (fun st child => for_each (child_step parent verbose child) es st)
    cs (covered, ch)
  = (ch' <- for_each (flat_step [] verbose)
              (distinct_from covered (child_candidates parent cs es)) ch ;;
     Ok (covered ++ distinct_from covered (child_candidates parent cs es), ch')).
Proof.
  revert covered ch. induction cs as [|c cs IH]; intros covered ch.
  - cbn. rewrite app_nil_r. reflexivity.
  - cbn [for_each]. rewrite child_loop.
    unfold child_candidates. cbn [flat_map]. rewrite distinct_from_app, for_each_app.
    destruct (for_each (flat_step [] verbose)
                (distinct_from covered (filter (expected_child parent c) es)) ch)
      as [ch1|x]; cbn [bind]; [|reflexivity].
    fold (child_candidates parent cs es). rewrite IH, <- app_assoc. reflexivity.
Qed.

End Children.

Section Grouping.
Context {rt : PyRuntime}.

(** What [populate_composite_entity_model] did when it returns, the parent
    entity having been found. *)
Lemma populate_ok (ce : CompositeEntityModel) (es : list EntityModel)
  (d : dict pyval) (verbose : bool) (parent : EntityModel)
  (rest : list EntityModel) (d' : dict pyval) :
  find (is_parent ce) es = Some parent ->
  populate_composite_entity_model ce es d verbose = Ok (rest, d') ->
  let grouped := distinct_from [] (child_candidates parent (children ce) es) in
  rest = filter (fun e => negb (mem_entity e grouped)) es
  /\ exists (ch d1 : dict pyval),
       for_each (flat_step [] verbose) grouped (initial_mapping verbose) = Ok ch
       /\ add_property d (extract_normalized_entity_name parent) (VDict ch) = Ok d1
       /\ if verbose
          then exists (inner inner' : dict pyval) (meta : pyval),
                 extract_entity_metadata parent = Ok meta
                 /\ dict_get d1 _metadata_key = Some (VDict inner)
                 /\ add_property inner (extract_normalized_entity_name parent) meta
                    = Ok inner'
                 /\ d' = dict_set d1 _metadata_key (VDict inner')
          else d' = d1.
Proof.
  intros F E grouped. unfold populate_composite_entity_model in E.
  change (fun e : EntityModel =>
            String.eqb (type e) (parent_type ce) && String.eqb (entity e) (value ce))
    with (is_parent ce) in E.
  rewrite F in E.
  apply bind_ok in E as (meta & M & E).
  replace (if verbose
           then dict_set (if verbose then dict_set [] _metadata_key (VDict []) else [])
                  _metadata_key (VDict [])
           else if verbose then dict_set [] _metadata_key (VDict []) else [])
    with (initial_mapping verbose) in E by (destruct verbose; reflexivity).
  rewrite children_loops in E. cbn [app] in E. fold grouped in E.
  apply bind_ok in E as ([covered ch] & L & E).
  apply bind_ok in L as (ch' & L & Q). injection Q as <- <-.
  apply bind_ok in E as (d1 & A & E). apply bind_ok in E as (d2 & A2 & E).
  injection E as <- <-. split; [reflexivity|].
  exists ch', d1. split; [exact L|]. split; [exact A|].
  destruct verbose.
  - apply add_property_at_ok in A2 as (inner & v & inner' & G & V & A3 & ->).
    injection V as <-. exists inner, inner', meta. auto.
  - injection A2 as <-. reflexivity.
Qed.

Lemma grouped_in (parent : EntityModel) (cs : list Child.t) (es : list EntityModel)
  (e : EntityModel) :
  In e (distinct_from [] (child_candidates parent cs es))
  <-> In e es /\ is_child parent cs e = true.
Proof. rewrite distinct_from_in, child_candidates_in. cbn [In]. tauto. Qed.

Lemma rest_filter (parent : EntityModel) (cs : list Child.t) (es : list EntityModel) :
  filter (fun e => negb (mem_entity e (distinct_from [] (child_candidates parent cs es))))
    es
  = filter (fun e => negb (is_child parent cs e)) es.
Proof.
  apply filter_ext_in. intros e I. f_equal.
  destruct (is_child parent cs e) eqn:C.
  - apply mem_entity_in, grouped_in. auto.
  - apply mem_entity_not_in. rewrite grouped_in. intros [_ T]. congruence.
Qed.

Lemma Forall2_combine_in {A B : Type} (P : A -> B -> Prop) (f : A -> string)
  (l : list A) (vs : list B) (a : A) :
  Forall2 P l vs -> In a l -> exists b, P a b /\ In (f a, b) (combine (map f l) vs).
Proof.
  intros H. induction H as [|x y l vs p _ IH]; intros I; [contradiction|].
  destruct I as [<-|I].
  - exists y. split; [exact p|]. left. reflexivity.
  - destruct (IH I) as (b & Pb & Ib). exists b. split; [exact Pb|]. right. exact Ib.
Qed.

(** An entity the flat pass visits is in the mapping it returns, under its
    normalised name. *)
Lemma flat_pass_holds (verbose : bool) (es : list EntityModel) (d out : dict pyval)
  (e : EntityModel) :
  (verbose = true -> exists m, dict_get d _metadata_key = Some (VDict m)) ->
  for_each (flat_step [] verbose) es d = Ok out ->
  In e es ->
  exists x l, extract_entity_value e = Ok x
              /\ dict_get out (extract_normalized_entity_name e) = Some (VList l)
              /\ In x l.
Proof.
  intros M E I. destruct verbose.
  - destruct (M eq_refl) as [m G].
    destruct (flat_verbose_inv es d m out G E)
      as (vs & ms & m' & FV & _ & FN & _ & _ & L & AP).
    destruct (Forall2_combine_in _ extract_normalized_entity_name es vs e FV I)
      as (x & X & Ix).
    rewrite Forall_forall in FN. specialize (FN e I).
    apply values_under_in in Ix. fold (names es) in Ix.
    assert (NE : values_under (extract_normalized_entity_name e)
                   (combine (names es) vs) <> []).
    { intros Z. rewrite Z in Ix. contradiction. }
    destruct (accumulated_nonempty _ _ d _ NE eq_refl (AP _ FN NE)) as [l0 Q].
    exists x, (l0 ++ values_under (extract_normalized_entity_name e)
                       (combine (names es) vs)).
    split; [exact X|]. split; [rewrite (L _ FN); exact Q|].
    apply in_app_iff. right. exact Ix.
  - destruct (flat_plain_inv es d out E) as (vs & FV & A).
    destruct (Forall2_combine_in _ extract_normalized_entity_name es vs e FV I)
      as (x & X & Ix).
    apply values_under_in in Ix. fold (names es) in Ix.
    assert (NE : values_under (extract_normalized_entity_name e)
                   (combine (names es) vs) <> []).
    { intros Z. rewrite Z in Ix. contradiction. }
    destruct (accumulated_nonempty _ _ d _ NE eq_refl
                (add_all_appendable _ _ _ A _ NE)) as [l0 Q].
    exists x, (l0 ++ values_under (extract_normalized_entity_name e)
                       (combine (names es) vs)).
    split; [exact X|]. split; [rewrite (add_all_get _ _ _ A); exact Q|].
    apply in_app_iff. right. exact Ix.
Qed.

(** Entities that differ in text, type or span are not equal; in a list where
    these tell the entities apart, an entity is covered exactly when its
    occurrence is. *)
Lemma occurrence_eqb_eq (a b : EntityModel) :
  occurrence_eqb a b = true <-> occurrence a = occurrence b.
Proof.
  unfold occurrence_eqb, occurrence.
  rewrite !andb_true_iff, !String.eqb_eq, !Z.eqb_eq. split.
  - intros [[[-> ->] ->] ->]. reflexivity.
  - intros E. injection E as -> -> -> ->. auto.
Qed.

Lemma occurrence_inj (es : list EntityModel) (a b : EntityModel) :
  NoDup (map occurrence es) -> In a es -> In b es ->
  occurrence a = occurrence b -> a = b.
Proof.
  induction es as [|x es IH]; intros N Ia Ib E; [contradiction|].
  cbn [map] in N. apply NoDup_cons_iff in N as [X N].
  destruct Ia as [->|Ia], Ib as [->|Ib].
  - reflexivity.
  - exfalso. apply X. rewrite E. apply in_map, Ib.
  - exfalso. apply X. rewrite <- E. apply in_map, Ia.
  - exact (IH N Ia Ib E).
Qed.

Lemma covers_mem (es covered : list EntityModel) (e : EntityModel) :
  NoDup (map occurrence es) -> In e es -> incl covered es ->
  covers covered e = mem_entity e covered.
Proof.
  intros N I C. apply eq_true_iff_eq. unfold covers.
  rewrite existsb_exists, mem_entity_in. split.
  - intros (c & Ic & Q). apply occurrence_eqb_eq in Q.
    rewrite (occurrence_inj es e c N I (C c Ic) Q). exact Ic.
  - intros Ie. exists e. split; [exact Ie|]. apply occurrence_eqb_eq. reflexivity.
Qed.

(** C3.  With the parent entity found, over a list in which no two entities
    have the same text, type and span: the body of the loops groups the
    entity at hand exactly when none of the covered ones is this entity, its
    type is the child entry's and its span lies within the parent's.  So the
    entities grouped as children are those of the list whose type some child
    entry names and whose span lies within the parent's span, each of them
    once.  When the function returns, the list it returns is the given list
    without exactly those (an entity whose span is not within the parent's is
    in it), their values are in the child mapping under their normalised
    names, and the child mapping is the last value under the parent's
    normalised name.  An entity of a child type whose span is not within the
    parent's is then in the mapping [extract_entities_and_metadata] returns
    when this descriptor is the only one, under its own normalised name,
    provided its type is not the parent type, which the flat pass skips. *)
Theorem composite_children_grouped (ce : CompositeEntityModel)
  (es : list EntityModel) (verbose : bool) (parent : EntityModel) :
  find (is_parent ce) es = Some parent ->
  NoDup (map occurrence es) ->
  let grouped := distinct_from [] (child_candidates parent (children ce) es) in
  (forall (child : Child.t) (covered : list EntityModel) (ch : dict pyval)
          (e : EntityModel),
      In e es -> incl covered es ->
      child_step parent verbose child (covered, ch) e
      = if negb (covers covered e)
           && String.eqb (Child.type child) (type e)
           && composite_contains_entity parent e
        then ch' <- flat_step [] verbose ch e ;; Ok (covered ++ [e], ch')
        else Ok (covered, ch))
  /\ (NoDup grouped
      /\ Permutation grouped (filter (is_child parent (children ce)) es)
      /\ forall e, In e grouped
                   <-> In e es
                       /\ (exists child, In child (children ce)
                                         /\ Child.type child = type e)
                       /\ (start_index parent <= start_index e)%Z
                       /\ (end_index e <= end_index parent)%Z)
  /\ (forall (d : dict pyval) (rest : list EntityModel) (d' : dict pyval),
         populate_composite_entity_model ce es d verbose = Ok (rest, d') ->
         rest = filter (fun e => negb (is_child parent (children ce) e)) es
         /\ (forall e, In e rest <-> In e es /\ ~ In e grouped)
         /\ (forall e, In e es -> composite_contains_entity parent e = false ->
                       In e rest)
         /\ exists (vs : list pyval) (ch : dict pyval),
              Forall2 (fun e v => extract_entity_value e = Ok v) grouped vs
              /\ (forall k, verbose = false \/ k <> _metadata_key ->
                            dict_get ch k
                            = match values_under k (combine (names grouped) vs) with
                              | [] => None
                              | l => Some (VList l)
                              end)
              /\ exists l, dict_get d' (extract_normalized_entity_name parent)
                           = Some (VList (l ++ [VDict ch])))
  /\ (forall (out : dict pyval) (e : EntityModel),
         In e es ->
         (exists child, In child (children ce) /\ Child.type child = type e) ->
         composite_contains_entity parent e = false ->
         type e <> parent_type ce ->
         extract_entities_and_metadata es (Some [ce]) verbose = Ok out ->
         exists x l, extract_entity_value e = Ok x
                     /\ dict_get out (extract_normalized_entity_name e)
                        = Some (VList l)
                     /\ In x l).
Proof.
  intros F N grouped. split; [|split; [|split]].
  - intros child covered ch e I C. rewrite child_step_eq. unfold expected_child.
    rewrite (covers_mem es covered e N I C).
    destruct (mem_entity e covered); [reflexivity|].
    destruct (String.eqb (Child.type child) (type e)); [|reflexivity].
    destruct (composite_contains_entity parent e); reflexivity.
  - split; [apply distinct_from_nodup|]. split.
    + apply NoDup_Permutation.
      * apply distinct_from_nodup.
      * apply NoDup_filter. exact (NoDup_map_inv occurrence es N).
      * intros e. unfold grouped. rewrite grouped_in, filter_In. tauto.
    + intros e. unfold grouped. rewrite grouped_in, is_child_spec. tauto.
  - intros d rest d' E.
    destruct (populate_ok ce es d verbose parent rest d' F E)
      as (R & ch & d1 & L & A & V).
    fold grouped in R, L. split; [|split; [|split]].
    + rewrite R. apply rest_filter.
    + intros e. rewrite R, filter_In, negb_true_iff, mem_entity_not_in. tauto.
    + intros e I O. rewrite R. unfold grouped. rewrite rest_filter.
      apply filter_In. split; [exact I|].
      unfold is_child. rewrite O, andb_false_r. reflexivity.
    + destruct (flat_pass_initial grouped verbose ch L) as (vs & FV & K & _).
      exists vs, ch. split; [exact FV|]. split; [exact K|].
      destruct (add_property_is_list d d1 _ _ A) as [l G]. exists l.
      destruct verbose; [|subst d'; exact G].
      destruct V as (inner & inner' & meta & _ & G1 & _ & ->).
      rewrite dict_get_set_other; [exact G|].
      intros Q. rewrite Q, G in G1. discriminate.
  - intros out e I C O T E.
    rewrite extract_two_passes in E. apply bind_ok in E as ([cur d1] & R & E).
    unfold resolve_composites in R. cbn [for_each] in R.
    apply bind_ok in R as ([rest d'] & P & R). injection R as <- <-.
    rewrite flat_skip in E.
    destruct (populate_ok ce es _ verbose parent rest d' F P) as (R & ch & d1 & _ & _ & V).
    apply (flat_pass_holds verbose
             (filter (not_of_types (map parent_type [ce])) rest) d' out e).
    + intros ->. destruct V as (inner & inner' & meta & _ & _ & _ & ->).
      eexists. apply dict_get_set_same.
    + exact E.
    + apply filter_In. split.
      * rewrite R, rest_filter. apply filter_In. split; [exact I|].
        unfold is_child. rewrite O, andb_false_r. reflexivity.
      * unfold not_of_types, mem_string. cbn [map existsb].
        rewrite orb_false_r. apply negb_true_iff, String.eqb_neq, T.
Qed.

End Grouping.

(** The composite of the specification: [roomBooking] over [0, 19], a city
    inside it and a city after it. *)
Lemma composite_children_grouped_witness :
  @extract_entities_and_metadata sample_runtime [room_booking; rome; oslo]
    (Some [booking_of_cities]) false
  = Ok [("roomBooking", VList [VDict [("city", VList [VStr "rome"])]]);
        ("city", VList [VStr "oslo"])]
  /\ Permutation
       (distinct_from []
          (child_candidates room_booking (children booking_of_cities)
             [room_booking; rome; oslo]))
       [rome]
  /\ exists x l,
       @extract_entity_value sample_runtime oslo = Ok x
       /\ dict_get [("roomBooking", VList [VDict [("city", VList [VStr "rome"])]]);
                    ("city", VList [VStr "oslo"])] "city" = Some (VList l)
       /\ In x l.
Proof.
  split; [reflexivity|].
  destruct (@composite_children_grouped sample_runtime booking_of_cities
              [room_booking; rome; oslo] false room_booking eq_refl)
    as (_ & (_ & P & _) & _ & S).
  { repeat (constructor; [cbn; intuition discriminate|]). constructor. }
  split; [exact P|].
  apply (S _ oslo).
  - right. right. left. reflexivity.
  - exists (Child.Build_t "city"). split; [left|]; reflexivity.
  - reflexivity.
  - discriminate.
  - reflexivity.
Defined.

(** What the statement of the specification misses.  Of two equal cities
    within the span the second is not grouped, where the stated conditions
    group both, and it is not in the returned list either: one value is
    recorded and no city is left.  And a second booking after the span, of a
    type that a child entry names, is not consumed and yet is under no key of
    the result: its type is the parent type, which the flat pass skips. *)
Lemma stated_grouping_loses_entities :
  grouped_as_stated room_booking (children booking_of_cities)
    [room_booking; rome; rome] []
  = [rome; rome]
  /\ @populate_composite_entity_model sample_runtime booking_of_cities
       [room_booking; rome; rome] [] false
     = Ok ([room_booking],
           [("roomBooking", VList [VDict [("city", VList [VStr "rome"])]])])
  /\ String.eqb (Child.type (Child.Build_t "roomBooking")) (type other_booking) = true
  /\ composite_contains_entity room_booking other_booking = false
  /\ @extract_entities_and_metadata sample_runtime
       [room_booking; rome; other_booking] (Some [booking_of_itself]) false
     = Ok [("roomBooking",
            VList [VDict [("roomBooking", VList [VStr "book a room in rome"]);
                          ("city", VList [VStr "rome"])]])].
Proof. repeat (split; [reflexivity|]). reflexivity. Qed.

(** ** Worked examples, with the sample runtime *)

Example percentage_is_coerced :
  @extract_entity_value sample_runtime
    {| entity := "50%"; type := "builtin.percentage"; start_index := 0; end_index := 2;
       additional_properties :=
         Some {| ap_role := None; ap_resolution := Some (VDict [("value", VStr "50%")]);
                 ap_score := None |} |}
  = Ok (VInt 50).
Proof. reflexivity. Qed.

Example datetimeV2_timexes_are_distinct :
  @extract_entity_value sample_runtime
    {| entity := "new year"; type := "builtin.datetimeV2.date";
       start_index := 0; end_index := 7;
       additional_properties :=
         Some {| ap_role := None;
                 ap_resolution :=
                   Some (VDict
                           [("values",
                             VList
                               [VDict [("type", VStr "date"); ("timex", VStr "2024-01-01")];
                                VDict [("type", VStr "date"); ("timex", VStr "2024-01-01")];
                                VDict [("type", VStr "date"); ("timex", VStr "2024-01-02")]])]);
                 ap_score := None |} |}
  = Ok (VDict [("type", VStr "date");
               ("timex", VList [VStr "2024-01-01"; VStr "2024-01-02"])]).
Proof. reflexivity. Qed.

Example metadata_end_is_exclusive :
  @extract_entity_metadata sample_runtime
    {| entity := "two"; type := "builtin.number"; start_index := 4; end_index := 6;
       additional_properties :=
         Some {| ap_role := None;
                 ap_resolution := Some (VDict [("subtype", VStr "integer");
                                               ("value", VStr "2")]);
                 ap_score := Some (VStr "0.75") |} |}
  = Ok (VDict [("startIndex", VInt 4); ("endIndex", VInt 7); ("text", VStr "two");
               ("type", VStr "builtin.number"); ("score", VFloat "0.75");
               ("subtype", VStr "integer")]).
Proof. reflexivity. Qed.

Example composite_in_verbose_mode :
  @extract_entities_and_metadata sample_runtime
    [plain_entity "roomBooking" "book a room in rome" 0 19;
     plain_entity "city" "rome" 15 18]
    (Some [{| parent_type := "roomBooking"; value := "book a room in rome";
              children := [Child.Build_t "city"] |}])
    true
  = Ok [("$instance",
         VDict [("roomBooking",
                 VList [VDict [("startIndex", VInt 0); ("endIndex", VInt 20);
                               ("text", VStr "book a room in rome");
                               ("type", VStr "roomBooking")]])]);
        ("roomBooking",
         VList [VDict [("$instance",
                        VDict [("city",
                                VList [VDict [("startIndex", VInt 15);
                                              ("endIndex", VInt 19);
                                              ("text", VStr "rome");
                                              ("type", VStr "city")]])]);
                       ("city", VList [VStr "rome"])]])].
Proof. reflexivity. Qed.

Example fallback_to_the_top_scoring_intent :
  get_intents {| intents := None;
                 top_scoring_intent := Some (IntentModel.Build_t "Book.Flight" None) |}
  = Ok [("Book_Flight", IntentScore.Build_t 0)].
Proof. reflexivity. Qed.

(** * Further properties of the code *)

(** ** Intent names and the intent mapping *)

Lemma replace_length (a b : ascii) (s : string) :
  String.length (replace a b s) = String.length s.
Proof. induction s as [|c s IH]; cbn; [reflexivity|]. rewrite IH. reflexivity. Qed.

(** X1.  [normalized_intent] keeps the length of a name, leaves neither a dot
    nor a blank in it, returns a name without dots and blanks as it is, and
    so changes nothing when it is applied a second time. *)
Theorem normalized_intent_canonical (s : string) :
  normalized_intent (normalized_intent s) = normalized_intent s
  /\ has "." (normalized_intent s) = false
  /\ has " " (normalized_intent s) = false
  /\ String.length (normalized_intent s) = String.length s
  /\ (has "." s = false -> has " " s = false -> normalized_intent s = s).
Proof.
  change (normalized_intent (normalized_intent s)) with (underscores (underscores s)).
  change (normalized_intent s) with (underscores s).
  destruct (underscores_clean s) as [D B].
  split; [apply underscores_fixed; assumption|].
  split; [exact D|]. split; [exact B|]. split.
  - unfold underscores. rewrite !replace_length. reflexivity.
  - apply underscores_fixed.
Qed.

Lemma normalized_intent_canonical_witness :
  normalized_intent "Book.a flight" = "Book_a_flight"
  /\ normalized_intent "Book_a_flight" = "Book_a_flight".
Proof.
  split; [reflexivity|].
  apply (normalized_intent_canonical "Book_a_flight"); reflexivity.
Defined.

Lemma intent_item_key_clean (i : IntentModel.t) :
  has "." (fst (intent_item i)) = false /\ has " " (fst (intent_item i)) = false.
Proof. unfold intent_item. cbn [fst]. apply underscores_clean. Qed.

(** X2.  [get_intents] raises, and then an [AttributeError], exactly when the
    intent list is missing or empty and there is no top scoring intent
    either.  A non-empty list is used whatever the top scoring intent is.
    The mapping returned is never empty, and none of its keys holds a dot or
    a blank. *)
Theorem get_intents_outcome (r : LuisResult) :
  (get_intents r = Raise AttributeError
   <-> (intents r = None \/ intents r = Some []) /\ top_scoring_intent r = None)
  /\ (forall e : exn, get_intents r = Raise e -> e = AttributeError)
  /\ (forall t : option IntentModel.t,
         (exists i l, intents r = Some (i :: l)) ->
         get_intents {| intents := intents r; top_scoring_intent := t |}
         = get_intents r)
  /\ (forall d : dict IntentScore.t,
         get_intents r = Ok d ->
         d <> []
         /\ forall k, In k (keys d) -> has "." k = false /\ has " " k = false).
Proof.
  split; [|split; [|split]].
  - unfold get_intents.
    destruct (intents r) as [[|i l]|]; destruct (top_scoring_intent r) as [t|].
    all: split; intros H.
    all: try discriminate H.
    all: try reflexivity.
    all: try (split; [auto|reflexivity]).
    all: destruct H as [H1 H2]; try discriminate H2.
    all: destruct H1 as [H1|H1]; discriminate H1.
  - intros e. unfold get_intents. destruct (intents r) as [[|i l]|];
      destruct (top_scoring_intent r); intros H; try discriminate;
      injection H as <-; reflexivity.
  - intros t (i & l & E). unfold get_intents. cbn [intents]. rewrite E. reflexivity.
  - intros d E. destruct (intents r) as [[|i l]|] eqn:I.
    + unfold get_intents in E. rewrite I in E.
      destruct (top_scoring_intent r) as [t|]; [|discriminate].
      injection E as <-. split; [discriminate|].
      intros k [<-|[]]. apply (intent_item_key_clean t).
    + rewrite (get_intents_items r (i :: l) I) in E by discriminate.
      assert (E' : d = dict_of_items (map intent_item (i :: l)) []) by congruence.
      clear E. subst d. split.
      * intros Z.
        assert (K : dict_get (dict_of_items (map intent_item (i :: l)) [])
                      (fst (intent_item i)) <> None).
        { apply dict_of_items_keys. right. cbn [map]. left. reflexivity. }
        rewrite Z in K. apply K. reflexivity.
      * intros k K. apply dict_get_in_keys, dict_of_items_keys in K as [K|K].
        -- cbn in K. congruence.
        -- rewrite map_map in K. apply in_map_iff in K as (x & <- & _).
           apply intent_item_key_clean.
    + unfold get_intents in E. rewrite I in E.
      destruct (top_scoring_intent r) as [t|]; [|discriminate].
      injection E as <-. split; [discriminate|].
      intros k [<-|[]]. apply (intent_item_key_clean t).
Qed.

Lemma get_intents_outcome_witness :
  get_intents {| intents := Some []; top_scoring_intent := None |}
  = Raise AttributeError
  /\ get_intents
       {| intents := Some [IntentModel.Build_t "Book.Flight" (Some (9 # 10)%Q)];
          top_scoring_intent := None |}
     = get_intents
         {| intents := Some [IntentModel.Build_t "Book.Flight" (Some (9 # 10)%Q)];
            top_scoring_intent := Some (IntentModel.Build_t "None" None) |}.
Proof.
  split.
  - apply (proj1 (get_intents_outcome
                    {| intents := Some []; top_scoring_intent := None |})).
    split; [right|]; reflexivity.
  - destruct (get_intents_outcome
                {| intents := Some [IntentModel.Build_t "Book.Flight" (Some (9 # 10)%Q)];
                   top_scoring_intent := Some (IntentModel.Build_t "None" None) |})
      as (_ & _ & P & _).
    apply (P None). eexists _, _. reflexivity.
Defined.

(** ** The score of the top intent *)

(** X3.  When [get_top_scoring_intent] returns, the score it returns is not
    negative and is at least every score of the mapping; what it returns is
    the sentinel or an item of the mapping; and it is the sentinel [("", 0.0)]
    exactly when no intent of the mapping scores above zero, however many
    intents there are. *)
Theorem top_intent_bounds (self : RecognizerResult.t) (items : dict IntentScore.t)
  (top : TopIntent.t) :
  RecognizerResult.intents self = Some items ->
  get_top_scoring_intent self = Ok top ->
  (0 <= TopIntent.score top)%Q
  /\ (forall item, In item items ->
                   (IntentScore.score (snd item) <= TopIntent.score top)%Q)
  /\ (top = sentinel \/ exists item, In item items /\ top = candidate item)
  /\ (top = sentinel
      <-> forall item, In item items -> (IntentScore.score (snd item) <= 0)%Q).
Proof.
  intros I E. unfold get_top_scoring_intent in E. rewrite I in E.
  injection E as E.
  destruct (scan_first_maximum items sentinel) as (before & after & D & B & A).
  cbn zeta in D, B, A. fold sentinel in E. rewrite E in D, B, A. clear E.
  rewrite Forall_forall in B, A.
  assert (Z : (0 <= TopIntent.score top)%Q).
  { destruct before as [|b before]; injection D as D1 D2.
    - rewrite <- D1. apply Qle_refl.
    - apply Qlt_le_weak. apply (B sentinel). left. congruence. }
  assert (U : forall item, In item items ->
                           (IntentScore.score (snd item) <= TopIntent.score top)%Q).
  { intros item H.
    assert (M : In (candidate item) (before ++ top :: after)).
    { rewrite <- D. right. apply in_map, H. }
    apply in_app_iff in M as [M|[M|M]].
    - apply Qlt_le_weak. apply (B _ M).
    - rewrite M. apply Qle_refl.
    - apply (A _ M). }
  assert (M : top = sentinel \/ exists item, In item items /\ top = candidate item).
  { assert (H : In top (sentinel :: map candidate items)).
    { rewrite D. apply in_app_iff. right. left. reflexivity. }
    destruct H as [H|H]; [left; congruence|]. right.
    apply in_map_iff in H as (item & H1 & H2). eauto. }
  split; [exact Z|]. split; [exact U|]. split; [exact M|]. split.
  - intros -> item H. apply (U item H).
  - intros H. destruct before as [|b before]; injection D as D1 D2.
    + congruence.
    + exfalso. subst b.
      assert (P : (0 < TopIntent.score top)%Q) by (apply (B sentinel); left; reflexivity).
      assert (T : In top (map candidate items)).
      { rewrite D2. apply in_app_iff. right. left. reflexivity. }
      apply in_map_iff in T as (item & T1 & T2). subst top.
      exact (Qlt_not_le _ _ P (H item T2)).
Qed.

(** Two intents without a score above zero: neither is the top intent. *)
Lemma top_intent_bounds_witness :
  get_top_scoring_intent
    (result_with_intents
       (Some [("Book_Flight", IntentScore.Build_t 0); ("None", IntentScore.Build_t 0)]))
  = Ok sentinel
  /\ forall item,
       In item [("Book_Flight", IntentScore.Build_t 0); ("None", IntentScore.Build_t 0)] ->
       (IntentScore.score (snd item) <= 0)%Q.
Proof.
  split; [reflexivity|].
  apply (top_intent_bounds
           (result_with_intents
              (Some [("Book_Flight", IntentScore.Build_t 0);
                     ("None", IntentScore.Build_t 0)]))
           [("Book_Flight", IntentScore.Build_t 0); ("None", IntentScore.Build_t 0)]
           sentinel eq_refl eq_refl).
  reflexivity.
Defined.

(** ** The value of an entity, branch by branch *)

Lemma filter_twice {A : Type} (f g : A -> bool) (l : list A) :
  filter f (filter g l) = filter (fun a => g a && f a) l.
Proof.
  induction l as [|a l IH]; cbn; [reflexivity|].
  destruct (g a); cbn; [|exact IH]. destruct (f a); rewrite IH; reflexivity.
Qed.

Lemma pyval_eqb_refl (x : pyval) : pyval_eqb x x = true.
Proof. apply pyval_eqb_eq. reflexivity. Qed.

Lemma pyval_eqb_sym (x y : pyval) : pyval_eqb x y = pyval_eqb y x.
Proof.
  destruct (pyval_eqb x y) eqn:E.
  - apply pyval_eqb_eq in E. subst y. symmetry. apply pyval_eqb_refl.
  - destruct (pyval_eqb y x) eqn:F; [|reflexivity].
    apply pyval_eqb_eq in F. subst y. rewrite pyval_eqb_refl in E. discriminate.
Qed.

Lemma mem_val_in (x : pyval) (l : list pyval) : mem_val x l = true <-> In x l.
Proof.
  unfold mem_val. rewrite existsb_exists. split.
  - intros (y & I & E). apply pyval_eqb_eq in E. subst y. exact I.
  - intros I. exists x. split; [exact I|apply pyval_eqb_refl].
Qed.

Lemma mem_val_app (x : pyval) (l m : list pyval) :
  mem_val x (l ++ m) = mem_val x l || mem_val x m.
Proof. apply existsb_app. Qed.

Lemma first_occurrences_in (l : list pyval) (x : pyval) :
  In x (first_occurrences l) <-> In x l.
Proof.
  induction l as [|a l IH]; cbn [first_occurrences In]; [tauto|].
  rewrite filter_In, IH, negb_true_iff. split.
  - tauto.
  - intros [E|I]; [left; exact E|].
    destruct (pyval_eqb a x) eqn:Q.
    + left. apply pyval_eqb_eq, Q.
    + right. split; [exact I|reflexivity].
Qed.

Lemma first_occurrences_nodup (l : list pyval) : NoDup (first_occurrences l).
Proof.
  induction l as [|a l IH]; cbn [first_occurrences]; constructor.
  - rewrite filter_In, pyval_eqb_refl. intros [_ H]. discriminate.
  - apply NoDup_filter, IH.
Qed.

Lemma first_occurrences_fixed (l : list pyval) : NoDup l -> first_occurrences l = l.
Proof.
  induction 1 as [|a l N _ IH]; cbn [first_occurrences]; [reflexivity|].
  rewrite IH. f_equal. apply filter_all. intros y I.
  apply negb_true_iff. destruct (pyval_eqb a y) eqn:Q; [|reflexivity].
  apply pyval_eqb_eq in Q. subst y. contradiction.
Qed.

(** [fromkeys] keeps what was seen and adds the new elements at their first
    occurrences. *)
Lemma fromkeys_first_occurrences (l seen : list pyval) :
  Forall (fun x => hashable x = true) l ->
  fromkeys l seen
  = Ok (seen ++ filter (fun y => negb (mem_val y seen)) (first_occurrences l)).
Proof.
  intros H. revert seen. induction H as [|x l Hx _ IH]; intros seen.
  - cbn. rewrite app_nil_r. reflexivity.
  - cbn [fromkeys first_occurrences filter]. rewrite Hx.
    destruct (mem_val x seen) eqn:M; cbn [negb].
    + rewrite IH. f_equal. f_equal. rewrite filter_twice.
      apply filter_ext_in. intros y _.
      destruct (pyval_eqb x y) eqn:Q; [|reflexivity].
      apply pyval_eqb_eq in Q. subst y. rewrite M. reflexivity.
    + rewrite IH, <- app_assoc. cbn [app]. do 3 f_equal.
      rewrite filter_twice. apply filter_ext. intros y.
      rewrite mem_val_app. unfold mem_val at 2. cbn [existsb].
      rewrite orb_false_r, negb_orb, (pyval_eqb_sym y x), andb_comm. reflexivity.
Qed.

Lemma fromkeys_unhashable (l seen : list pyval) :
  (exists x, In x l /\ hashable x = false) -> fromkeys l seen = Raise TypeError.
Proof.
  revert seen. induction l as [|a l IH]; intros seen (x & I & U); [contradiction|].
  cbn [fromkeys]. destruct (hashable a) eqn:Ha; [|reflexivity].
  apply IH. destruct I as [->|I]; [congruence|eauto].
Qed.

Lemma map_result_forall2 {A B : Type} (f : A -> result B) (l : list A) (bs : list B) :
  Forall2 (fun a b => f a = Ok b) l bs -> map_result f l = Ok bs.
Proof.
  induction 1 as [|a b l bs E _ IH]; cbn; [reflexivity|].
  rewrite E, IH. reflexivity.
Qed.

Lemma prefix_of_longer (p q s : string) :
  String.prefix p s = true -> String.prefix q s = true ->
  String.length p <= String.length q -> String.prefix p q = true.
Proof.
  revert q s. induction p as [|a p IH]; intros q s Hp Hq L;
    [destruct q; reflexivity|].
  destruct s as [|c s]; [discriminate|].
  destruct q as [|b q]; [cbn in L; lia|].
  cbn in *.
  destruct (ascii_dec a c) as [->|]; [|discriminate].
  destruct (ascii_dec b c) as [->|]; [|discriminate].
  destruct (ascii_dec c c); [|congruence].
  apply (IH q s Hp Hq). lia.
Qed.

Lemma datetimeV2_is_not_datetime (ty : string) :
  startswith ty "builtin.datetimeV2." = true ->
  startswith ty "builtin.datetime." = false.
Proof.
  unfold startswith. intros H.
  destruct (String.prefix "builtin.datetime." ty) eqn:E; [|reflexivity].
  pose proof (prefix_of_longer "builtin.datetime." "builtin.datetimeV2." ty E H) as P.
  cbn in P. assert (17 <= 19) as L by lia. specialize (P L). discriminate P.
Qed.

Section Branches.
Context {rt : PyRuntime}.

(** X4.  For a [builtin.datetimeV2.*] entity whose resolution is a mapping:
    without the key [values] the call raises [KeyError]; with a falsy
    [values] the resolution is returned as it is; and with a list of records
    that all have a string as their [timex], the first of them a [type], the
    result holds that type and the timexes, each once, at its first
    occurrence; a timex that cannot be hashed, a list or a mapping, raises
    [TypeError]. *)
Theorem datetimeV2_value (e : EntityModel) (ap : AdditionalProperties)
  (d : dict pyval) :
  startswith (type e) "builtin.datetimeV2." = true ->
  additional_properties e = Some ap ->
  ap_resolution ap = Some (VDict d) ->
  (dict_get d "values" = None -> extract_entity_value e = Raise KeyError)
  /\ (forall v, dict_get d "values" = Some v -> truthy v = false ->
                extract_entity_value e = Ok (VDict d))
  /\ (forall (first : pyval) (rest : list pyval) (t : pyval) (timexes : list pyval),
         dict_get d "values" = Some (VList (first :: rest)) ->
         getitem first "type" = Ok t ->
         Forall2 (fun val timex => getitem val "timex" = Ok timex)
           (first :: rest) timexes ->
         (Forall (fun timex => exists s, timex = VStr s) timexes ->
          extract_entity_value e
          = Ok (VDict [("type", t); ("timex", VList (first_occurrences timexes))])
          /\ NoDup (first_occurrences timexes)
          /\ forall x, In x (first_occurrences timexes) <-> In x timexes)
         /\ ((exists x, In x timexes /\ hashable x = false) ->
             extract_entity_value e = Raise TypeError)).
Proof.
  intros S A R. unfold extract_entity_value. rewrite A, R.
  rewrite (datetimeV2_is_not_datetime _ S), S.
  split; [|split].
  - intros G. cbn [getitem]. rewrite G. reflexivity.
  - intros v G F. cbn [getitem]. rewrite G. cbn [of_option bind]. rewrite F.
    reflexivity.
  - intros first rest t timexes G T F. cbn [getitem]. rewrite G.
    cbn [of_option bind truthy negb getitem0 iterate]. rewrite T. cbn [bind].
    rewrite (map_result_forall2 _ _ _ F). cbn [bind]. split.
    + intros H.
      assert (H' : Forall (fun timex => hashable timex = true) timexes).
      { apply (Forall_impl _ (P := fun timex => exists s, timex = VStr s));
          [|exact H]. intros x [s ->]. reflexivity. }
      rewrite (fromkeys_first_occurrences timexes [] H').
      cbn [app bind]. split; [|split].
      * rewrite (filter_all (fun y => negb (mem_val y [])) (first_occurrences timexes))
          by reflexivity.
        reflexivity.
      * apply first_occurrences_nodup.
      * apply first_occurrences_in.
    + intros U. rewrite (fromkeys_unhashable timexes [] U). reflexivity.
Qed.

Lemma number_is_numeric (v r : pyval) :
  number v = Ok r ->
  (v = VNone /\ r = VNone) \/ (exists i, r = VInt i) \/ (exists f, r = VFloat f).
Proof.
  unfold number. destruct v; try (intros E; injection E as <-; auto);
    destruct (int_of_str _) as [i|]; cbn;
    try (intros E; injection E as <-; eauto);
    destruct (float_of_str _) as [f|]; cbn;
    intros E; try discriminate; injection E as <-; eauto.
Qed.

End Branches.

(** The three records of the specification's example. *)
Lemma datetimeV2_value_witness :
  @extract_entity_value sample_runtime
    (resolved_entity "builtin.datetimeV2.date" "new year"
       (VDict [("values",
                VList [VDict [("type", VStr "date"); ("timex", VStr "2024-01-01")];
                       VDict [("type", VStr "date"); ("timex", VStr "2024-01-01")];
                       VDict [("type", VStr "date"); ("timex", VStr "2024-01-02")]])]))
  = Ok (VDict [("type", VStr "date");
               ("timex", VList [VStr "2024-01-01"; VStr "2024-01-02"])]).
Proof.
  destruct (@datetimeV2_value sample_runtime
              (resolved_entity "builtin.datetimeV2.date" "new year"
                 (VDict [("values",
                          VList [VDict [("type", VStr "date"); ("timex", VStr "2024-01-01")];
                                 VDict [("type", VStr "date"); ("timex", VStr "2024-01-01")];
                                 VDict [("type", VStr "date"); ("timex", VStr "2024-01-02")]])]))
              _ _ eq_refl eq_refl eq_refl) as (_ & _ & V).
  destruct (V _ _ (VStr "date")
              [VStr "2024-01-01"; VStr "2024-01-01"; VStr "2024-01-02"]
              eq_refl eq_refl) as [D _].
  { repeat constructor. }
  apply D. repeat (constructor; [eexists; reflexivity|]). constructor.
Defined.

Lemma endswith_snoc (s : string) (c : ascii) :
  endswith (s ++ String c EmptyString)%string c = true.
Proof.
  induction s as [|a s IH]; cbn; [apply Ascii.eqb_refl|].
  destruct (s ++ String c EmptyString)%string eqn:E; [|exact IH].
  destruct s; discriminate.
Qed.

Lemma drop_last_snoc (s : string) (c : ascii) :
  drop_last (s ++ String c EmptyString)%string = s.
Proof.
  induction s as [|a s IH]; cbn; [reflexivity|].
  destruct (s ++ String c EmptyString)%string eqn:E.
  - destruct s; discriminate.
  - rewrite IH. reflexivity.
Qed.

Lemma not_builtin_branches (ty : string) :
  startswith ty "builtin." = false ->
  startswith ty "builtin.datetime." = false
  /\ startswith ty "builtin.datetimeV2." = false
  /\ mem_string ty ["builtin.number"; "builtin.ordinal"] = false
  /\ String.eqb ty "builtin.percentage" = false
  /\ mem_string ty unit_types = false.
Proof.
  intros H.
  assert (P : forall suffix, startswith ty ("builtin." ++ suffix)%string = false).
  { intros suffix. destruct (startswith ty ("builtin." ++ suffix)%string) eqn:E;
      [|reflexivity].
    rewrite (startswith_app ty "builtin." suffix E) in H. discriminate. }
  assert (Q : forall l, Forall (fun s => startswith s "builtin." = true) l ->
                        mem_string ty l = false).
  { intros l F. destruct (mem_string ty l) eqn:M; [|reflexivity].
    apply mem_string_in in M. rewrite Forall_forall in F.
    rewrite (F ty M) in H. discriminate. }
  split; [exact (P "datetime.")|]. split; [exact (P "datetimeV2.")|].
  split; [apply Q; repeat constructor|]. split; [|apply Q; repeat constructor].
  destruct (String.eqb_spec ty "builtin.percentage") as [->|]; [discriminate|reflexivity].
Qed.

Section OtherBranches.
Context {rt : PyRuntime}.

(** X5.  For a [builtin.percentage] entity whose resolution is a mapping, one
    trailing [%] of a string value is dropped before the coercion, so the
    values [s%] and [s] give the same result; the result, when there is one,
    is an integer or a float and never [None]; and without the key [value]
    the call raises [KeyError]. *)
Theorem percentage_value (e : EntityModel) (ap : AdditionalProperties)
  (d : dict pyval) :
  type e = "builtin.percentage" ->
  additional_properties e = Some ap ->
  ap_resolution ap = Some (VDict d) ->
  (forall s, dict_get d "value" = Some (VStr (s ++ "%")%string) ->
             extract_entity_value e = number (VStr s))
  /\ (forall s, dict_get d "value" = Some (VStr s) -> endswith s "%" = false ->
                extract_entity_value e = number (VStr s))
  /\ (forall r, extract_entity_value e = Ok r ->
                (exists i, r = VInt i) \/ (exists f, r = VFloat f))
  /\ (dict_get d "value" = None -> extract_entity_value e = Raise KeyError).
Proof.
  intros T A R.
  assert (U : extract_entity_value e
              = (v <- getitem (VDict d) "value" ;;
                 let svalue := py_str v in
                 let svalue := if endswith svalue "%" then drop_last svalue else svalue in
                 number (VStr svalue))).
  { unfold extract_entity_value. rewrite A, R, T. reflexivity. }
  rewrite U. cbn [getitem]. split; [|split; [|split]].
  - intros s G. rewrite G. cbn [of_option bind py_str].
    rewrite endswith_snoc, drop_last_snoc. reflexivity.
  - intros s G N. rewrite G. cbn [of_option bind py_str]. rewrite N. reflexivity.
  - intros r E. apply bind_ok in E as (v & _ & E). cbv zeta in E.
    destruct (number_is_numeric _ _ E) as [[Z _]|H]; [discriminate|exact H].
  - intros G. rewrite G. reflexivity.
Qed.

(** X6.  For an entity whose type does not start with [builtin.]: with a
    mapping as its resolution the call never raises, and answers [value]
    when that is truthy, else [values], else [None], so a value such as [0]
    or [""] gives way to [values]; with a resolution that is no mapping, a
    JSON [null] included, it raises [AttributeError]. *)
Theorem custom_type_value (e : EntityModel) (ap : AdditionalProperties)
  (resolution : pyval) :
  startswith (type e) "builtin." = false ->
  additional_properties e = Some ap ->
  ap_resolution ap = Some resolution ->
  (forall d, resolution = VDict d ->
             extract_entity_value e
             = Ok (match dict_get d "value" with
                   | Some a =>
                       if truthy a then a
                       else match dict_get d "values" with Some b => b | None => VNone end
                   | None =>
                       match dict_get d "values" with Some b => b | None => VNone end
                   end))
  /\ ((forall d, resolution <> VDict d) ->
      extract_entity_value e = Raise AttributeError).
Proof.
  intros S A R. destruct (not_builtin_branches _ S) as (B1 & B2 & B3 & B4 & B5).
  unfold extract_entity_value. rewrite A, R, B1, B2, B3, B4, B5. split.
  - intros d ->. cbn [get bind]. destruct (dict_get d "value") as [a|]; [|reflexivity].
    destruct (truthy a); reflexivity.
  - intros N. destruct resolution; try reflexivity. exfalso. exact (N d eq_refl).
Qed.

Lemma py_float_is_float (v f : pyval) : py_float v = Ok f -> exists r, f = VFloat r.
Proof.
  destruct v; cbn; try discriminate.
  - destruct (float_of_int _); cbn; [|discriminate]. intros E. injection E as <-. eauto.
  - destruct (float_of_int z); cbn; [|discriminate]. intros E. injection E as <-. eauto.
  - intros E. injection E as <-. eauto.
  - destruct (float_of_str s); cbn; [|discriminate]. intros E. injection E as <-. eauto.
Qed.

(** X7.  A metadata record starts with [startIndex], [endIndex], [text] and
    [type], in this order, the end index being one past the entity's last
    character.  After them comes [score], a float, exactly when the
    additional properties have a score, and then [subtype], not [None], at
    most once: no other key, and no key twice.  Without additional properties
    the call cannot raise. *)
Theorem metadata_record (e : EntityModel) :
  (additional_properties e = None ->
   extract_entity_metadata e = Ok (VDict (metadata_base e)))
  /\ (forall m, extract_entity_metadata e = Ok m ->
        exists score_part subtype_part : dict pyval,
          m = VDict (metadata_base e ++ score_part ++ subtype_part)
          /\ NoDup (keys (metadata_base e ++ score_part ++ subtype_part))
          /\ match additional_properties e with
             | Some {| ap_score := Some s |} =>
                 exists r, py_float s = Ok (VFloat r)
                           /\ score_part = [("score", VFloat r)]
             | _ => score_part = []
             end
          /\ (subtype_part = []
              \/ exists st, st <> VNone /\ subtype_part = [("subtype", st)])).
Proof.
  split.
  - intros A. unfold extract_entity_metadata. rewrite A. reflexivity.
  - intros m E. unfold extract_entity_metadata in E.
    fold (metadata_base e) in E.
    destruct (additional_properties e) as [[role res sc]|].
    + cbn [ap_score ap_resolution] in E. apply bind_ok in E as (obj & S & E).
      assert (O : exists score_part,
                 obj = metadata_base e ++ score_part
                 /\ NoDup (keys (metadata_base e ++ score_part))
                 /\ ~ In "subtype" (keys (metadata_base e ++ score_part))
                 /\ match sc with
                    | Some s => exists r, py_float s = Ok (VFloat r)
                                          /\ score_part = [("score", VFloat r)]
                    | None => score_part = []
                    end).
      { destruct sc as [s|].
        - apply bind_ok in S as (f & F & S). injection S as <-.
          destruct (py_float_is_float s f F) as [r ->].
          exists [("score", VFloat r)]. split; [reflexivity|].
          split; [cbn; repeat constructor; cbn; intuition discriminate|].
          split; [cbn; intuition discriminate|]. eauto.
        - injection S as <-. exists []. split; [reflexivity|].
          split; [cbn; repeat constructor; cbn; intuition discriminate|].
          split; [cbn; intuition discriminate|]. reflexivity. }
      destruct O as (score_part & -> & N & NS & SC).
      assert (Plain : forall m', Ok (VDict (metadata_base e ++ score_part)) = Ok m' ->
                exists subtype_part : dict pyval,
                  m' = VDict (metadata_base e ++ score_part ++ subtype_part)
                  /\ NoDup (keys (metadata_base e ++ score_part ++ subtype_part))
                  /\ (subtype_part = []
                      \/ exists st, st <> VNone /\ subtype_part = [("subtype", st)])).
      { intros m' Q. injection Q as <-. exists []. rewrite !app_nil_r.
        split; [reflexivity|]. split; [exact N|]. left. reflexivity. }
      assert (Fin : exists subtype_part : dict pyval,
                 m = VDict (metadata_base e ++ score_part ++ subtype_part)
                 /\ NoDup (keys (metadata_base e ++ score_part ++ subtype_part))
                 /\ (subtype_part = []
                     \/ exists st, st <> VNone /\ subtype_part = [("subtype", st)])).
      { destruct res as [resolution|]; [|apply Plain, E].
        destruct resolution; try apply Plain, E; try discriminate E.
        cbn [get bind] in E.
        destruct (dict_get d "subtype") as [st|] eqn:G; [|apply Plain, E].
        assert (Sub : forall x, x <> VNone ->
                   Ok (VDict (dict_set (metadata_base e ++ score_part) "subtype" st))
                   = Ok m ->
                   st = x ->
                   exists subtype_part : dict pyval,
                     m = VDict (metadata_base e ++ score_part ++ subtype_part)
                     /\ NoDup (keys (metadata_base e ++ score_part ++ subtype_part))
                     /\ (subtype_part = []
                         \/ exists st, st <> VNone /\ subtype_part = [("subtype", st)])).
        { intros x X Q ->.
          assert (M : m = VDict (dict_set (metadata_base e ++ score_part) "subtype" x))
            by congruence.
          rewrite M.
          rewrite (dict_set_absent (metadata_base e ++ score_part) "subtype" x)
            by (apply dict_get_none_keys, NS).
          exists [("subtype", x)]. rewrite <- app_assoc.
          split; [reflexivity|]. split; [|right; eauto].
          rewrite app_assoc. unfold keys. rewrite map_app. cbn [map fst].
          apply NoDup_app; [exact N|repeat constructor; cbn; tauto|].
          intros k K [<-|[]]. exact (NS K). }
        destruct st; try apply Plain, E;
          cbn [getitem of_option bind] in E; rewrite G in E; cbn [of_option bind] in E;
          eapply Sub; try exact E; try reflexivity; discriminate. }
      destruct Fin as (subtype_part & M & ND & ST).
      exists score_part, subtype_part. auto.
    + injection E as <-. exists [], []. rewrite !app_nil_r.
      split; [reflexivity|].
      split; [cbn; repeat constructor; cbn; intuition discriminate|].
      split; [reflexivity|]. left. reflexivity.
Qed.

End OtherBranches.

(** A percentage with its sign, under the sample runtime. *)
Lemma percentage_value_witness :
  @extract_entity_value sample_runtime
    (resolved_entity "builtin.percentage" "50%" (VDict [("value", VStr "50%")]))
  = Ok (VInt 50).
Proof.
  rewrite (proj1 (@percentage_value sample_runtime
                    (resolved_entity "builtin.percentage" "50%"
                       (VDict [("value", VStr "50%")]))
                    _ _ eq_refl eq_refl eq_refl) "50" eq_refl).
  reflexivity.
Defined.

(** An empty [value] gives way to [values]. *)
Lemma custom_type_value_witness :
  @extract_entity_value sample_runtime
    (resolved_entity "color" "red"
       (VDict [("value", VStr EmptyString); ("values", VList [VStr "red"])]))
  = Ok (VList [VStr "red"]).
Proof.
  rewrite (proj1 (@custom_type_value sample_runtime
                    (resolved_entity "color" "red"
                       (VDict [("value", VStr EmptyString);
                               ("values", VList [VStr "red"])]))
                    _ _ eq_refl eq_refl eq_refl) _ eq_refl).
  reflexivity.
Defined.

(** ** What the composite pass keeps *)

Lemma add_property_keys (d d1 : dict pyval) (k : string) (v : pyval) :
  add_property d k v = Ok d1 ->
  keys d1 = keys d ++ (if mem_string k (keys d) then [] else [k]).
Proof.
  intros A. destruct (add_property_ok d d1 k v A) as [[G ->]|(l & G & ->)];
    rewrite dict_set_keys, G.
  - destruct (mem_string k (keys d)) eqn:M; [|reflexivity].
    apply mem_string_in, dict_get_in_keys in M. contradiction.
  - destruct (mem_string k (keys d)) eqn:M; [rewrite app_nil_r; reflexivity|].
    assert (I : In k (keys d)) by (apply dict_get_in_keys; rewrite G; discriminate).
    apply mem_string_in in I. congruence.
Qed.

Lemma populate_frame {rt : PyRuntime} (ce : CompositeEntityModel)
  (es : list EntityModel) (d : dict pyval) (verbose : bool)
  (rest : list EntityModel) (d' : dict pyval) :
  populate_composite_entity_model ce es d verbose = Ok (rest, d') ->
  (exists p, rest = filter p es)
  /\ (exists added, keys d' = keys d ++ added)
  /\ (forall k, k <> _metadata_key ->
                (forall e, In e es -> extract_normalized_entity_name e <> k) ->
                dict_get d' k = dict_get d k).
Proof.
  intros E. destruct (find (is_parent ce) es) as [parent|] eqn:F.
  - destruct (populate_ok ce es d verbose parent rest d' F E)
      as (R & ch & d1 & _ & A & V).
    split; [eexists; exact R|].
    assert (K : keys d' = keys d1 /\ forall k, k <> _metadata_key ->
                                               dict_get d' k = dict_get d1 k).
    { destruct verbose; [|subst d'; split; reflexivity].
      destruct V as (inner & inner' & meta & _ & G & _ & ->). split.
      - apply dict_set_present_keys. rewrite G. discriminate.
      - intros k N. apply dict_get_set_other. congruence. }
    destruct K as [K1 K2]. split.
    + rewrite K1, (add_property_keys d d1 _ _ A). eauto.
    + intros k N O. rewrite (K2 k N). apply (add_property_other d d1 _ k _ A).
      apply O. apply (find_some _ _ F).
  - rewrite (populate_unresolved ce es d verbose F) in E. injection E as <- <-.
    split; [exists (fun _ => true); symmetry; apply filter_all; reflexivity|].
    split; [exists []; symmetry; apply app_nil_r|]. reflexivity.
Qed.

Section Consumption.
Context {rt : PyRuntime}.

(** X8.  The pass over the composite descriptors only consumes entities and
    only adds to the mapping.  When it returns, the entities left are the
    given ones filtered by some test, so none is new and their order is
    kept; the keys the mapping had are still there, in their places, new
    ones coming after them; and a key that is neither [$instance] nor the
    normalized name of a given entity maps to what it mapped to before. *)
Theorem composites_only_consume (cs : list CompositeEntityModel)
  (es : list EntityModel) (d : dict pyval) (verbose : bool)
  (rest : list EntityModel) (d' : dict pyval) :
  resolve_composites cs es d verbose = Ok (rest, d') ->
  (exists p, rest = filter p es)
  /\ (forall e, In e rest -> In e es)
  /\ length rest <= length es
  /\ (exists added, keys d' = keys d ++ added)
  /\ (forall k, k <> _metadata_key ->
                (forall e, In e es -> extract_normalized_entity_name e <> k) ->
                dict_get d' k = dict_get d k).
Proof.
  intros E.
  assert (G : (exists p, rest = filter p es)
              /\ (exists added, keys d' = keys d ++ added)
              /\ (forall k, k <> _metadata_key ->
                            (forall e, In e es -> extract_normalized_entity_name e <> k) ->
                            dict_get d' k = dict_get d k)).
  { revert es d E. unfold resolve_composites.
    induction cs as [|ce cs IH]; intros es d E; cbn [for_each] in E.
    - injection E as <- <-.
      split; [exists (fun _ => true); symmetry; apply filter_all; reflexivity|].
      split; [exists []; symmetry; apply app_nil_r|]. reflexivity.
    - apply bind_ok in E as ([es1 d1] & P & E).
      destruct (populate_frame ce es d verbose es1 d1 P) as ([p ->] & [a1 K1] & O1).
      destruct (IH _ _ E) as ([q ->] & [a2 K2] & O2).
      split; [rewrite filter_twice; eauto|].
      split; [rewrite K2, K1, <- app_assoc; eauto|].
      intros k N O. rewrite O2, O1; auto.
      intros e I. apply O. apply filter_In in I. tauto. }
  destruct G as ([p ->] & K & O).
  split; [eauto|]. split; [intros e I; apply filter_In in I; tauto|].
  split; [apply filter_length_le|]. split; assumption.
Qed.

(** X9.  A composite's own entity lies within its own span, so whether it is
    grouped among its children depends on the child entries alone.  It stays
    in the returned list exactly when no child entry names the parent type;
    when one names it, the parent's value is recorded inside the parent's own
    children mapping, under the parent's name. *)
Theorem composite_parent_in_own_span (ce : CompositeEntityModel)
  (es : list EntityModel) (d : dict pyval) (verbose : bool)
  (parent : EntityModel) (rest : list EntityModel) (d' : dict pyval) :
  find (is_parent ce) es = Some parent ->
  populate_composite_entity_model ce es d verbose = Ok (rest, d') ->
  composite_contains_entity parent parent = true
  /\ (In parent rest
      <-> forall child, In child (children ce) -> Child.type child <> parent_type ce)
  /\ ((exists child, In child (children ce) /\ Child.type child = parent_type ce) ->
      exists (ch : dict pyval) (l lx : list pyval) (x : pyval),
        dict_get d' (extract_normalized_entity_name parent)
        = Some (VList (l ++ [VDict ch]))
        /\ extract_entity_value parent = Ok x
        /\ dict_get ch (extract_normalized_entity_name parent) = Some (VList lx)
        /\ In x lx).
Proof.
  intros F E.
  assert (S : composite_contains_entity parent parent = true).
  { unfold composite_contains_entity. rewrite !Z.leb_refl. reflexivity. }
  assert (T : type parent = parent_type ce).
  { apply find_some in F as [_ F]. unfold is_parent in F.
    apply andb_true_iff in F as [F _]. apply String.eqb_eq, F. }
  assert (I : In parent es) by apply (find_some _ _ F).
  destruct (populate_ok ce es d verbose parent rest d' F E)
    as (R & ch & d1 & L & A & V).
  assert (C : is_child parent (children ce) parent = true
              <-> exists child, In child (children ce)
                                /\ Child.type child = parent_type ce).
  { rewrite is_child_spec, T. split; [tauto|]. intros H.
    split; [exact H|]. split; apply Z.le_refl. }
  split; [exact S|]. split.
  - rewrite R, filter_In, negb_true_iff, mem_entity_not_in, grouped_in, C.
    split.
    + intros [_ N] child IC Q. apply N. split; [exact I|]. eauto.
    + intros N. split; [exact I|]. intros [_ (child & IC & Q)]. exact (N child IC Q).
  - intros H. apply C in H.
    assert (G : In parent (distinct_from [] (child_candidates parent (children ce) es)))
      by (apply grouped_in; tauto).
    assert (W : verbose = true ->
                exists m, dict_get (initial_mapping verbose) _metadata_key
                          = Some (VDict m)).
    { intros ->. eexists. reflexivity. }
    destruct (flat_pass_holds verbose _ _ ch parent W L G) as (x & lx & X & GX & IX).
    destruct (add_property_is_list d d1 _ _ A) as [l GL].
    exists ch, l, lx, x. split; [|auto].
    destruct verbose; [|subst d'; exact GL].
    destruct V as (inner & inner' & meta & _ & G1 & _ & ->).
    rewrite dict_get_set_other; [exact GL|].
    intros Q. rewrite Q, GL in G1. discriminate.
Qed.

End Consumption.

(** ** The shape of the result, with composites *)

Lemma snoc_not_nil {A : Type} (l : list A) (a : A) : l ++ [a] <> [].
Proof. destruct l; discriminate. Qed.

Lemma add_property_entry (allowed : list string) (d d1 : dict pyval)
  (k : string) (v : pyval) :
  In k allowed -> add_property d k v = Ok d1 ->
  forall k' v', dict_get d1 k' = Some v' ->
                (dict_get d k' = Some v' /\ k <> k') \/ entry_ok allowed k' v'.
Proof.
  intros I A k' v' G. destruct (String.eqb_spec k k') as [<-|N].
  - right. destruct (add_property_is_list d d1 k v A) as [l L].
    rewrite L in G. injection G as <-.
    split; [exact I|]. eexists. split; [reflexivity|apply snoc_not_nil].
  - left. rewrite (add_property_other d d1 k k' v A N) in G. auto.
Qed.

Lemma add_property_list_valued (allowed : list string) (d d1 : dict pyval)
  (k : string) (v : pyval) :
  list_valued allowed d -> In k allowed -> add_property d k v = Ok d1 ->
  list_valued allowed d1.
Proof.
  intros S I A k' v' G.
  destruct (add_property_entry allowed d d1 k v I A k' v' G) as [[G' _]|H];
    [exact (S k' v' G')|exact H].
Qed.

Lemma list_valued_appendable (allowed : list string) (d : dict pyval) (k : string) :
  list_valued allowed d -> appendable d k.
Proof.
  intros S. unfold appendable. destruct (dict_get d k) as [v|] eqn:G; [|exact I].
  destruct (S k v G) as (_ & l & -> & _). exact I.
Qed.

Lemma shaped_appendable (allowed : list string) (verbose : bool) (d : dict pyval)
  (k : string) :
  shaped allowed verbose d -> verbose = false \/ k <> _metadata_key ->
  appendable d k.
Proof.
  intros S H. destruct verbose.
  - destruct H as [H|H]; [discriminate|]. destruct S as (m & _ & _ & S).
    unfold appendable. destruct (dict_get d k) as [v|] eqn:G; [|exact I].
    destruct (S k v H G) as (_ & l & -> & _). exact I.
  - apply (list_valued_appendable allowed), S.
Qed.

Lemma initial_mapping_shaped (allowed : list string) (verbose : bool) :
  shaped allowed verbose (initial_mapping verbose).
Proof.
  destruct verbose; unfold shaped.
  - exists []. split; [reflexivity|]. split; [intros k v G; discriminate|].
    intros k v N G. unfold initial_mapping in G. cbn [dict_get] in G.
    destruct (String.eqb _metadata_key k) eqn:Q; [|discriminate].
    apply String.eqb_eq in Q. symmetry in Q. contradiction.
  - intros k v G. discriminate.
Qed.

Section Shape.
Context {rt : PyRuntime}.

Lemma populate_resolved (ce : CompositeEntityModel) (es : list EntityModel)
  (d : dict pyval) (verbose : bool) (parent : EntityModel) :
  find (is_parent ce) es = Some parent ->
  let grouped := distinct_from [] (child_candidates parent (children ce) es) in
  populate_composite_entity_model ce es d verbose
  = (meta <- (if verbose then extract_entity_metadata parent else Ok (VDict [])) ;;
     ch <- for_each (flat_step [] verbose) grouped (initial_mapping verbose) ;;
     d1 <- add_property d (extract_normalized_entity_name parent) (VDict ch) ;;
     d2 <- (if verbose
            then add_property_at d1 _metadata_key
                   (extract_normalized_entity_name parent) (Ok meta)
            else Ok d1) ;;
     Ok (filter (fun e => negb (mem_entity e grouped)) es, d2)).
Proof.
  intros F grouped. unfold populate_composite_entity_model.
  change (fun e : EntityModel =>
            String.eqb (type e) (parent_type ce) && String.eqb (entity e) (value ce))
    with (is_parent ce).
  rewrite F.
  replace (if verbose
           then dict_set (if verbose then dict_set [] _metadata_key (VDict []) else [])
                  _metadata_key (VDict [])
           else if verbose then dict_set [] _metadata_key (VDict []) else [])
    with (initial_mapping verbose) by (destruct verbose; reflexivity).
  rewrite children_loops. cbn [app]. fold grouped.
  destruct (if verbose then extract_entity_metadata parent else Ok (VDict []));
    [|reflexivity].
  cbn [bind]. destruct (for_each (flat_step [] verbose) grouped (initial_mapping verbose));
    reflexivity.
Qed.

Lemma flat_step_shaped (allowed types : list string) (verbose : bool)
  (d d' : dict pyval) (e : EntityModel) :
  shaped allowed verbose d -> In (extract_normalized_entity_name e) allowed ->
  flat_step types verbose d e = Ok d' -> shaped allowed verbose d'.
Proof.
  intros S I E. unfold flat_step in E.
  destruct (mem_string (type e) types); [injection E as <-; exact S|].
  apply bind_ok in E as (v & _ & E). apply bind_ok in E as (d1 & A & E).
  destruct verbose.
  - destruct S as (m & G & SM & SD).
    pose proof (add_property_metadata_key d m v d1 _ G A) as N.
    apply add_property_at_ok in E as (inner & x & inner' & G1 & _ & A1 & ->).
    rewrite (add_property_other d d1 _ _ v A N), G in G1. injection G1 as <-.
    exists inner'. split; [apply dict_get_set_same|].
    split; [exact (add_property_list_valued allowed m inner' _ x SM I A1)|].
    intros k v' NK GK. rewrite dict_get_set_other in GK by congruence.
    destruct (add_property_entry allowed d d1 _ v I A k v' GK) as [[G' _]|H];
      [exact (SD k v' NK G')|exact H].
  - injection E as <-. exact (add_property_list_valued allowed d d1 _ v S I A).
Qed.

Lemma flat_pass_shaped (allowed types : list string) (verbose : bool)
  (es : list EntityModel) (d out : dict pyval) :
  shaped allowed verbose d ->
  (forall e, In e es -> In (extract_normalized_entity_name e) allowed) ->
  for_each (flat_step types verbose) es d = Ok out -> shaped allowed verbose out.
Proof.
  revert d. induction es as [|e es IH]; intros d S I E; cbn [for_each] in E.
  - injection E as <-. exact S.
  - apply bind_ok in E as (d1 & E1 & E).
    apply (IH d1); [|intros e' I'; apply I; right; exact I'|exact E].
    apply (flat_step_shaped allowed types verbose d d1 e S); [|exact E1].
    apply I. left. reflexivity.
Qed.

Lemma populate_shaped (allowed : list string) (ce : CompositeEntityModel)
  (es : list EntityModel) (d : dict pyval) (verbose : bool)
  (rest : list EntityModel) (d' : dict pyval) :
  shaped allowed verbose d ->
  (forall e, In e es -> In (extract_normalized_entity_name e) allowed) ->
  populate_composite_entity_model ce es d verbose = Ok (rest, d') ->
  shaped allowed verbose d'.
Proof.
  intros S I E. destruct (find (is_parent ce) es) as [parent|] eqn:F.
  - assert (IP : In (extract_normalized_entity_name parent) allowed)
      by (apply I, (find_some _ _ F)).
    destruct (populate_ok ce es d verbose parent rest d' F E)
      as (_ & ch & d1 & _ & A & V).
    destruct verbose.
    + destruct S as (m & G & SM & SD).
      pose proof (add_property_metadata_key d m _ d1 _ G A) as N.
      destruct V as (inner & inner' & meta & _ & G1 & A1 & ->).
      rewrite (add_property_other d d1 _ _ _ A N), G in G1. injection G1 as <-.
      exists inner'. split; [apply dict_get_set_same|].
      split; [exact (add_property_list_valued allowed m inner' _ meta SM IP A1)|].
      intros k v' NK GK. rewrite dict_get_set_other in GK by congruence.
      destruct (add_property_entry allowed d d1 _ _ IP A k v' GK) as [[G' _]|H];
        [exact (SD k v' NK G')|exact H].
    + subst d'. exact (add_property_list_valued allowed d d1 _ _ S IP A).
  - rewrite (populate_unresolved ce es d verbose F) in E. injection E as _ <-.
    exact S.
Qed.

Lemma resolve_composites_shaped (allowed : list string)
  (cs : list CompositeEntityModel) (es : list EntityModel) (d : dict pyval)
  (verbose : bool) (rest : list EntityModel) (d' : dict pyval) :
  shaped allowed verbose d ->
  (forall e, In e es -> In (extract_normalized_entity_name e) allowed) ->
  resolve_composites cs es d verbose = Ok (rest, d') ->
  shaped allowed verbose d' /\ forall e, In e rest -> In e es.
Proof.
  unfold resolve_composites. revert es d.
  induction cs as [|ce cs IH]; intros es d S I E; cbn [for_each] in E.
  - injection E as <- <-. auto.
  - apply bind_ok in E as ([es1 d1] & P & E).
    destruct (populate_frame ce es d verbose es1 d1 P) as ([p ->] & _).
    assert (I1 : forall e, In e (filter p es) -> In e es)
      by (intros e Q; apply filter_In in Q; tauto).
    destruct (IH _ d1 (populate_shaped allowed ce es d verbose _ d1 S I P)
                (fun e Q => I e (I1 e Q)) E) as [S' R].
    auto.
Qed.

Lemma in_names (es : list EntityModel) (k : string) :
  In k (names es) <-> exists e, In e es /\ k = extract_normalized_entity_name e.
Proof.
  unfold names. rewrite in_map_iff. split; intros (e & A & B); exists e.
  - split; [exact B|symmetry; exact A].
  - split; [symmetry; exact B|exact A].
Qed.

(** X10.  Whatever the composites, a mapping returned by
    [extract_entities_and_metadata] has this shape: every key other than
    [$instance] is the normalized name of one of the given entities and maps
    to a non-empty list, never to a bare value; in verbose mode [$instance]
    is present and maps to a mapping of the same shape; and no key at
    either level holds a ['.'] or a [' ']. *)
Theorem result_shape (es : list EntityModel)
  (cs : option (list CompositeEntityModel)) (verbose : bool) (out : dict pyval) :
  extract_entities_and_metadata es cs verbose = Ok out ->
  (forall k v, dict_get out k = Some v -> verbose = false \/ k <> _metadata_key ->
      (exists e, In e es /\ k = extract_normalized_entity_name e)
      /\ (exists l, v = VList l /\ l <> [])
      /\ has "." k = false /\ has " " k = false)
  /\ (forall v, dict_get out _metadata_key = Some v -> verbose = true ->
        exists m, v = VDict m
          /\ forall k x, dict_get m k = Some x ->
               (exists e, In e es /\ k = extract_normalized_entity_name e)
               /\ (exists l, x = VList l /\ l <> [])
               /\ has "." k = false /\ has " " k = false)
  /\ (verbose = true -> In _metadata_key (keys out)).
Proof.
  intros E.
  assert (S : shaped (names es) verbose out).
  { assert (I : forall e, In e es -> In (extract_normalized_entity_name e) (names es))
      by (intros e Q; apply in_names; eauto).
    destruct cs as [[|c cs]|].
    - rewrite extract_without_composites in E by auto.
      apply (flat_pass_shaped (names es) [] verbose es _ out
               (initial_mapping_shaped _ verbose) I E).
    - rewrite extract_two_passes in E. apply bind_ok in E as ([cur d1] & R & E).
      destruct (resolve_composites_shaped (names es) _ es _ verbose cur d1
                  (initial_mapping_shaped _ verbose) I R) as [S1 I1].
      apply (flat_pass_shaped (names es) (map parent_type (c :: cs)) verbose cur d1 out
               S1); [|exact E].
      intros e Q. apply I, I1, Q.
    - rewrite extract_without_composites in E by auto.
      apply (flat_pass_shaped (names es) [] verbose es _ out
               (initial_mapping_shaped _ verbose) I E). }
  assert (C : forall k v, entry_ok (names es) k v ->
                (exists e, In e es /\ k = extract_normalized_entity_name e)
                /\ (exists l, v = VList l /\ l <> [])
                /\ has "." k = false /\ has " " k = false).
  { intros k v [I L]. apply in_names in I. split; [exact I|]. split; [exact L|].
    destruct I as (e & _ & ->). apply name_clean. }
  split; [|split].
  - intros k v G H. apply C. destruct verbose.
    + destruct H as [H|H]; [discriminate|]. destruct S as (m & _ & _ & S).
      exact (S k v H G).
    + exact (S k v G).
  - intros v G ->. destruct S as (m & GM & SM & _). rewrite GM in G.
    injection G as <-. exists m. split; [reflexivity|].
    intros k x GX. apply C, (SM k x GX).
  - intros ->. destruct S as (m & GM & _). apply dict_get_in_keys.
    rewrite GM. discriminate.
Qed.

End Shape.

(** ** When the extraction returns *)

Section Runs.
Context {rt : PyRuntime}.

Lemma flat_step_runs (allowed types : list string) (verbose : bool)
  (d : dict pyval) (e : EntityModel) :
  shaped allowed verbose d -> extractable verbose e ->
  exists d', flat_step types verbose d e = Ok d'.
Proof.
  intros S [[v V] X]. unfold flat_step.
  destruct (mem_string (type e) types); [eauto|]. rewrite V. cbn [bind].
  destruct verbose.
  - destruct (X eq_refl) as [[x M] N].
    destruct (proj1 (add_property_appendable d (extract_normalized_entity_name e) v)
                (shaped_appendable allowed true d _ S (or_intror N))) as [d1 A].
    rewrite A. cbn [bind]. destruct S as (m & G & SM & _).
    unfold add_property_at.
    rewrite (add_property_other d d1 _ _metadata_key v A N), G, M. cbn [of_option bind].
    destruct (proj1 (add_property_appendable m (extract_normalized_entity_name e) x)
                (list_valued_appendable allowed m _ SM)) as [m1 A1].
    rewrite A1. cbn [bind]. eauto.
  - destruct (proj1 (add_property_appendable d (extract_normalized_entity_name e) v)
                (shaped_appendable allowed false d _ S (or_introl eq_refl))) as [d1 A].
    rewrite A. cbn [bind]. eauto.
Qed.

Lemma flat_pass_runs (allowed types : list string) (verbose : bool)
  (es : list EntityModel) (d : dict pyval) :
  shaped allowed verbose d ->
  (forall e, In e es ->
             extractable verbose e /\ In (extract_normalized_entity_name e) allowed) ->
  exists out, for_each (flat_step types verbose) es d = Ok out.
Proof.
  revert d. induction es as [|e es IH]; intros d S H; cbn [for_each]; [eauto|].
  destruct (H e (or_introl eq_refl)) as [X I].
  destruct (flat_step_runs allowed types verbose d e S X) as [d1 E].
  rewrite E. cbn [bind].
  apply IH; [exact (flat_step_shaped allowed types verbose d d1 e S I E)|].
  intros e' I'. apply H. right. exact I'.
Qed.

Lemma populate_runs (allowed : list string) (ce : CompositeEntityModel)
  (es : list EntityModel) (d : dict pyval) (verbose : bool) :
  shaped allowed verbose d ->
  (forall e, In e es ->
             extractable verbose e /\ In (extract_normalized_entity_name e) allowed) ->
  exists rest d', populate_composite_entity_model ce es d verbose = Ok (rest, d').
Proof.
  intros S H. destruct (find (is_parent ce) es) as [parent|] eqn:F.
  - rewrite (populate_resolved ce es d verbose parent F).
    destruct (H parent (proj1 (find_some _ _ F))) as [[_ X] _].
    destruct (flat_pass_runs allowed [] verbose
                (distinct_from [] (child_candidates parent (children ce) es))
                (initial_mapping verbose) (initial_mapping_shaped allowed verbose))
      as [ch L].
    { intros e I. apply H. apply grouped_in in I. tauto. }
    destruct verbose.
    + destruct (X eq_refl) as [[meta M] N]. rewrite M. cbn [bind]. rewrite L. cbn [bind].
      destruct (proj1 (add_property_appendable d (extract_normalized_entity_name parent)
                         (VDict ch))
                  (shaped_appendable allowed true d _ S (or_intror N))) as [d1 A].
      rewrite A. cbn [bind]. destruct S as (m & G & SM & _).
      unfold add_property_at.
      rewrite (add_property_other d d1 _ _metadata_key _ A N), G. cbn [of_option bind].
      destruct (proj1 (add_property_appendable m (extract_normalized_entity_name parent)
                         meta)
                  (list_valued_appendable allowed m _ SM)) as [m1 A1].
      rewrite A1. cbn [bind]. eauto.
    + cbn [bind]. rewrite L. cbn [bind].
      destruct (proj1 (add_property_appendable d (extract_normalized_entity_name parent)
                         (VDict ch))
                  (shaped_appendable allowed false d _ S (or_introl eq_refl))) as [d1 A].
      rewrite A. cbn [bind]. eauto.
  - rewrite (populate_unresolved ce es d verbose F). eauto.
Qed.

Lemma resolve_composites_runs (allowed : list string)
  (cs : list CompositeEntityModel) (es : list EntityModel) (d : dict pyval)
  (verbose : bool) :
  shaped allowed verbose d ->
  (forall e, In e es ->
             extractable verbose e /\ In (extract_normalized_entity_name e) allowed) ->
  exists rest d', resolve_composites cs es d verbose = Ok (rest, d').
Proof.
  unfold resolve_composites. revert es d.
  induction cs as [|ce cs IH]; intros es d S H; cbn [for_each]; [eauto|].
  destruct (populate_runs allowed ce es d verbose S H) as (es1 & d1 & P).
  rewrite P. cbn [bind].
  destruct (populate_frame ce es d verbose es1 d1 P) as ([p ->] & _).
  apply IH.
  - apply (populate_shaped allowed ce es d verbose (filter p es) d1 S); [|exact P].
    intros e I. apply H, I.
  - intros e I. apply H. apply filter_In in I. tauto.
Qed.

Lemma extractable_without_properties (verbose : bool) (e : EntityModel) :
  additional_properties e = None ->
  extract_normalized_entity_name e <> _metadata_key ->
  extractable verbose e.
Proof.
  intros A N. unfold extractable, extract_entity_value, extract_entity_metadata.
  rewrite A. split; [eauto|]. intros _. split; [eauto|exact N].
Qed.

(** X11.  [extract_entities_and_metadata] returns a mapping, whatever the
    composites, when the value of every given entity can be extracted and, in
    verbose mode, the metadata of every given entity as well, none having
    [$instance] as its normalized name: the accumulation itself never
    fails. *)
Theorem extraction_returns (es : list EntityModel)
  (cs : option (list CompositeEntityModel)) (verbose : bool) :
  (forall e, In e es -> extractable verbose e) ->
  exists out, extract_entities_and_metadata es cs verbose = Ok out.
Proof.
  intros H.
  assert (HI : forall e, In e es ->
                 extractable verbose e
                 /\ In (extract_normalized_entity_name e) (names es)).
  { intros e I. split; [exact (H e I)|]. apply in_names. eauto. }
  destruct cs as [[|c cs]|].
  - rewrite extract_without_composites by auto.
    apply (flat_pass_runs (names es) [] verbose es _
             (initial_mapping_shaped _ verbose) HI).
  - rewrite extract_two_passes.
    destruct (resolve_composites_runs (names es) (c :: cs) es _ verbose
                (initial_mapping_shaped _ verbose) HI) as (cur & d1 & R).
    rewrite R. cbn [bind].
    destruct (resolve_composites_shaped (names es) _ es _ verbose cur d1
                (initial_mapping_shaped _ verbose) (fun e I => proj2 (HI e I)) R)
      as [S1 I1].
    apply (flat_pass_runs (names es) (map parent_type (c :: cs)) verbose cur d1 S1).
    intros e I. apply HI, I1, I.
  - rewrite extract_without_composites by auto.
    apply (flat_pass_runs (names es) [] verbose es _
             (initial_mapping_shaped _ verbose) HI).
Qed.

End Runs.

(** ** Verbose mode beside plain mode *)

Lemma add_property_cons (k0 : string) (v0 : pyval) (d : dict pyval) (k : string)
  (v : pyval) :
  k0 <> k ->
  add_property ((k0, v0) :: d) k v
  = (d1 <- add_property d k v ;; Ok ((k0, v0) :: d1)).
Proof.
  intros N. unfold add_property. cbn [dict_get dict_set].
  apply String.eqb_neq in N. rewrite N.
  destruct (dict_get d k) as [[]|]; reflexivity.
Qed.

Lemma add_property_head (k : string) (l : list pyval) (d : dict pyval) (v : pyval) :
  add_property ((k, VList l) :: d) k v = Ok ((k, VList (l ++ [v])) :: d).
Proof.
  unfold add_property. cbn [dict_get dict_set]. rewrite String.eqb_refl. reflexivity.
Qed.

Lemma add_property_mirrors (m d m' d' : dict pyval) (k : string) (x v : pyval) :
  mirrors m d -> add_property m k x = Ok m' -> add_property d k v = Ok d' ->
  mirrors m' d'.
Proof.
  intros M. revert m' d'. induction M as [|[ka va] [kb vb] m d H M IH]; intros m' d' A B.
  - cbn in A, B. injection A as <-. injection B as <-.
    constructor; [|constructor]. split; [reflexivity|].
    exists [x], [v]. auto.
  - cbn [fst snd] in H. destruct H as (<- & la & lb & -> & -> & L).
    destruct (String.eqb_spec ka k) as [->|N].
    + rewrite add_property_head in A, B. injection A as <-. injection B as <-.
      constructor; [|exact M]. split; [reflexivity|].
      exists (la ++ [x]), (lb ++ [v]). rewrite !length_app, L. auto.
    + rewrite add_property_cons in A, B by exact N.
      apply bind_ok in A as (m1 & A & Q). injection Q as <-.
      apply bind_ok in B as (d1 & B & Q). injection Q as <-.
      constructor; [|exact (IH m1 d1 A B)]. split; [reflexivity|].
      exists la, lb. auto.
Qed.

Section Modes.
Context {rt : PyRuntime}.

Lemma verbose_step_split (m d out : dict pyval) (e : EntityModel) :
  flat_step [] true ((_metadata_key, VDict m) :: d) e = Ok out ->
  exists m' d',
    out = (_metadata_key, VDict m') :: d'
    /\ flat_step [] false d e = Ok d'
    /\ (mirrors m d -> mirrors m' d').
Proof.
  intros E. rewrite flat_step_verbose in E. rewrite flat_step_plain.
  apply bind_ok in E as (v & V & E). apply bind_ok in E as (d1 & A & E).
  assert (N : _metadata_key <> extract_normalized_entity_name e).
  { intros Q. symmetry in Q.
    refine (add_property_metadata_key ((_metadata_key, VDict m) :: d) m v d1 _ _ A Q).
    cbn [dict_get]. rewrite String.eqb_refl. reflexivity. }
  rewrite add_property_cons in A by exact N.
  apply bind_ok in A as (d' & A & Q). injection Q as <-.
  apply add_property_at_ok in E as (inner & x & m' & G & _ & A1 & ->).
  cbn [dict_get] in G. rewrite String.eqb_refl in G. injection G as <-.
  exists m', d'. split.
  - cbn [dict_set]. rewrite String.eqb_refl. reflexivity.
  - rewrite V. cbn [bind]. split; [exact A|].
    intros M. exact (add_property_mirrors m d m' d' _ x v M A1 A).
Qed.

Lemma verbose_pass_split (es : list EntityModel) (m d out : dict pyval) :
  for_each (flat_step [] true) es ((_metadata_key, VDict m) :: d) = Ok out ->
  exists m' d',
    out = (_metadata_key, VDict m') :: d'
    /\ for_each (flat_step [] false) es d = Ok d'
    /\ (mirrors m d -> mirrors m' d').
Proof.
  revert m d. induction es as [|e es IH]; intros m d E; cbn [for_each] in *.
  - injection E as <-. exists m, d. auto.
  - apply bind_ok in E as (o1 & E1 & E).
    destruct (verbose_step_split m d o1 e E1) as (m1 & d1 & -> & P1 & M1).
    destruct (IH m1 d1 E) as (m' & d' & -> & P & M).
    exists m', d'. split; [reflexivity|]. rewrite P1. cbn [bind]. auto.
Qed.

(** X12.  Without composites, what verbose mode returns is what plain mode
    returns with one entry before it: [$instance] comes first and the
    entries after it are exactly the plain result, which plain mode does
    return whenever verbose mode returns.  The mapping under [$instance] has
    the keys of the plain result in the same order, and under each key as
    many metadata records as the plain result has values. *)
Theorem verbose_extends_plain (es : list EntityModel)
  (cs : option (list CompositeEntityModel)) (out : dict pyval) :
  cs = None \/ cs = Some [] ->
  extract_entities_and_metadata es cs true = Ok out ->
  exists m plain : dict pyval,
    out = (_metadata_key, VDict m) :: plain
    /\ extract_entities_and_metadata es cs false = Ok plain
    /\ keys m = keys plain
    /\ forall k l, dict_get plain k = Some (VList l) ->
                   exists lm, dict_get m k = Some (VList lm) /\ length lm = length l.
Proof.
  intros C E. rewrite extract_without_composites in * by exact C.
  destruct (verbose_pass_split es [] [] out E) as (m & plain & -> & P & M).
  specialize (M (Forall2_nil _)). exists m, plain.
  split; [reflexivity|]. split; [exact P|]. clear E P. split.
  - induction M as [|a b m d H M IH]; [reflexivity|].
    unfold keys in *. cbn [map]. rewrite IH. f_equal. apply H.
  - intros k l. induction M as [|[ka va] [kb vb] m d H M IH]; [discriminate|].
    cbn [fst snd] in H. destruct H as (<- & la & lb & -> & -> & L).
    cbn [dict_get]. destruct (String.eqb ka k); [|exact IH].
    intros Q. injection Q as <-. eauto.
Qed.

End Modes.

(** ** Sentiment *)

(** X13.  [add_properties] touches nothing but the key [sentiment] of the
    properties: the text, the intents and the entities stay, every other
    property keeps its value, and the keys that were there keep their order.
    With a sentiment, [sentiment] maps to its label and score afterwards,
    whatever it mapped to before, and a second call with the same sentiment
    changes nothing.  Without one the result is left as it is, an earlier
    [sentiment] included. *)
Theorem add_properties_sentiment_only (s : option Sentiment.t)
  (result : RecognizerResult.t) :
  let after := add_properties s result in
  RecognizerResult.text after = RecognizerResult.text result
  /\ RecognizerResult.altered_text after = RecognizerResult.altered_text result
  /\ RecognizerResult.intents after = RecognizerResult.intents result
  /\ RecognizerResult.entities after = RecognizerResult.entities result
  /\ (forall k, k <> "sentiment" ->
                dict_get (RecognizerResult.properties after) k
                = dict_get (RecognizerResult.properties result) k)
  /\ (exists added,
        keys (RecognizerResult.properties after)
        = keys (RecognizerResult.properties result) ++ added)
  /\ dict_get (RecognizerResult.properties after) "sentiment"
     = match s with
       | Some x => Some (VDict [("label", Sentiment.label x);
                                ("score", Sentiment.score x)])
       | None => dict_get (RecognizerResult.properties result) "sentiment"
       end
  /\ add_properties s after = after
  /\ add_properties None after = after.
Proof.
  destruct s as [x|]; cbn [add_properties RecognizerResult.text
    RecognizerResult.altered_text RecognizerResult.intents RecognizerResult.entities
    RecognizerResult.properties].
  - repeat split.
    + intros k N. apply dict_get_set_other. congruence.
    + rewrite dict_set_keys.
      destruct (dict_get (RecognizerResult.properties result) "sentiment");
        [exists []; symmetry; apply app_nil_r|eauto].
    + apply dict_get_set_same.
    + f_equal. set (v := VDict _). set (d := RecognizerResult.properties result).
      clearbody v d. induction d as [|[k0 v0] d IH]; cbn [dict_set].
      * rewrite String.eqb_refl. reflexivity.
      * destruct (String.eqb k0 "sentiment") eqn:Q; cbn [dict_set]; rewrite Q;
          [reflexivity|]. rewrite IH. reflexivity.
  - repeat split. exists []. symmetry. apply app_nil_r.
Qed.

(** ** Calling [next] *)

Section Next.
Variables Parent DialogReason DialogTurnResult Failure : Type.
Variable id : Parent -> string.
Variable NextCalled : DialogReason.
Variable resume_dialog :
  Parent -> WaterfallStepContext Parent DialogReason -> DialogReason -> pyval ->
  WaterfallStepContext Parent DialogReason * (DialogTurnResult + Failure).

Lemma next_again (self : WaterfallStepContext Parent DialogReason) (r : pyval) :
  _next_called self = true ->
  next id NextCalled resume_dialog self r = (self, Raised (already_called id self)).
Proof. intros C. unfold next. rewrite C. reflexivity. Qed.

Lemma next_each_again (self : WaterfallStepContext Parent DialogReason)
  (rs : list pyval) :
  _next_called self = true ->
  next_each id NextCalled resume_dialog self rs
  = (self, map (fun _ => Raised (already_called id self)) rs).
Proof.
  intros C. induction rs as [|r rs IH]; [reflexivity|].
  cbn [next_each map]. rewrite (next_again self r C), IH. reflexivity.
Qed.

(** X14.  On a step context as the constructor builds it, the first call of
    [next] hands the result to the parent's [resume_dialog], with the reason
    [NextCalled], once.  Provided the parent leaves the flag of the context
    alone, every later call raises the already-called exception, which names
    the dialog and the step, without reaching the parent and without changing
    the context: also when the first call ended with an exception of the
    parent. *)
Theorem next_only_once (parent : Parent) (options : pyval) (values : dict pyval)
  (index : Z) (reason : DialogReason) (result : pyval) (r : pyval)
  (rs : list pyval) :
  (forall p c why x,
      _next_called (fst (resume_dialog p c why x)) = _next_called c) ->
  let self := __init__ parent options values index reason result in
  let started :=
    {| _parent := parent; _next_called := true; _index := index;
       _options := options; _reason := reason; _result := result;
       _values := values |} in
  let after := fst (resume_dialog parent started NextCalled r) in
  next_each id NextCalled resume_dialog self (r :: rs)
  = (after,
     match snd (resume_dialog parent started NextCalled r) with
     | inl x => Returned x
     | inr f => Propagated f
     end :: map (fun _ => Raised (already_called id after)) rs)
  /\ _next_called after = true.
Proof.
  intros H self started after.
  assert (C : _next_called after = true) by (unfold after; rewrite H; reflexivity).
  split; [|exact C].
  cbn [next_each]. unfold next, self, __init__.
  cbn [_next_called _parent _index _options _reason _result _values].
  fold started. unfold after in *.
  destruct (resume_dialog parent started NextCalled r) as [c o]. cbn [fst snd] in *.
  rewrite (next_each_again c rs C). reflexivity.
Qed.

End Next.

(** ** The properties above on the sample utterance *)

Lemma composites_only_consume_witness :
  exists p, [room_booking; oslo] = filter p [room_booking; rome; oslo].
Proof.
  exact (proj1 (@composites_only_consume sample_runtime [booking_of_cities]
                  [room_booking; rome; oslo] [] false [room_booking; oslo]
                  [("roomBooking", VList [VDict [("city", VList [VStr "rome"])]])]
                  eq_refl)).
Defined.

Lemma composite_parent_in_own_span_witness :
  exists (ch : dict pyval) (l lx : list pyval) (x : pyval),
    dict_get [("roomBooking",
               VList [VDict [("roomBooking", VList [VStr "book a room in rome"]);
                             ("city", VList [VStr "rome"])]])]
      (extract_normalized_entity_name room_booking)
    = Some (VList (l ++ [VDict ch]))
    /\ @extract_entity_value sample_runtime room_booking = Ok x
    /\ dict_get ch (extract_normalized_entity_name room_booking) = Some (VList lx)
    /\ In x lx.
Proof.
  exact (proj2 (proj2 (@composite_parent_in_own_span sample_runtime booking_of_itself
                         [room_booking; rome; oslo] [] false room_booking [oslo]
                         [("roomBooking",
                           VList [VDict [("roomBooking",
                                          VList [VStr "book a room in rome"]);
                                         ("city", VList [VStr "rome"])]])]
                         eq_refl eq_refl))
           (ex_intro _ (Child.Build_t "roomBooking") (conj (or_introl eq_refl) eq_refl))).
Defined.

Lemma result_shape_witness :
  (exists e, In e [room_booking; rome; oslo]
             /\ "roomBooking" = extract_normalized_entity_name e)
  /\ (exists l, VList [VDict [("city", VList [VStr "rome"])]] = VList l /\ l <> [])
  /\ has "." "roomBooking" = false /\ has " " "roomBooking" = false.
Proof.
  exact (proj1 (@result_shape sample_runtime [room_booking; rome; oslo]
                  (Some [booking_of_cities]) false
                  [("roomBooking", VList [VDict [("city", VList [VStr "rome"])]]);
                   ("city", VList [VStr "oslo"])]
                  eq_refl)
           "roomBooking" _ eq_refl (or_introl eq_refl)).
Defined.

Lemma extraction_returns_witness :
  exists out,
    @extract_entities_and_metadata sample_runtime [room_booking; rome; oslo]
      (Some [booking_of_cities]) true = Ok out.
Proof.
  apply (@extraction_returns sample_runtime [room_booking; rome; oslo]
           (Some [booking_of_cities]) true).
  intros e [<-|[<-|[<-|[]]]];
    (split; [eexists; reflexivity|]; intros _;
     split; [eexists; reflexivity|discriminate]).
Defined.

Lemma verbose_extends_plain_witness :
  exists m plain : dict pyval,
    [("$instance",
      VDict [("city",
              VList [VDict [("startIndex", VInt 15); ("endIndex", VInt 19);
                            ("text", VStr "rome"); ("type", VStr "city")];
                     VDict [("startIndex", VInt 30); ("endIndex", VInt 34);
                            ("text", VStr "oslo"); ("type", VStr "city")]])]);
     ("city", VList [VStr "rome"; VStr "oslo"])]
    = (_metadata_key, VDict m) :: plain
    /\ @extract_entities_and_metadata sample_runtime [rome; oslo] None false = Ok plain
    /\ keys m = keys plain
    /\ forall k l, dict_get plain k = Some (VList l) ->
                   exists lm, dict_get m k = Some (VList lm) /\ length lm = length l.
Proof.
  exact (@verbose_extends_plain sample_runtime [rome; oslo] None _
           (or_introl eq_refl) eq_refl).
Defined.

Lemma next_only_once_witness :
  next id "NextCalled" echo_parent
    (__init__ "booking" VNone [] 0%Z "BeginCalled" VNone) (VStr "rome")
  = (let started := {| _parent := "booking"; _next_called := true; _index := 0%Z;
                       _options := VNone; _reason := "BeginCalled";
                       _result := VNone; _values := [] |} in
     (started, Returned (VStr "rome")))
  /\ next_each id "NextCalled" echo_parent
       (__init__ "booking" VNone [] 0%Z "BeginCalled" VNone)
       [VStr "rome"; VStr "oslo"]
     = (let started := {| _parent := "booking"; _next_called := true; _index := 0%Z;
                          _options := VNone; _reason := "BeginCalled";
                          _result := VNone; _values := [] |} in
        (started,
         [Returned (VStr "rome");
          Raised "WaterfallStepContext.next(): method already called for dialog and step 'booking'[0]."])).
Proof.
  split; [reflexivity|].
  exact (proj1 (next_only_once string string pyval exn id "NextCalled" echo_parent
                  "booking" VNone [] 0%Z "BeginCalled" VNone (VStr "rome")
                  [VStr "oslo"] (fun _ _ _ _ => eq_refl))).
Defined.
